(** * Renderer3D: a shallow embedding of tgx's 3D pipeline front end

    The development follows [Renderer3D.h]: the renderer is a record of the
    class's member variables, every public method is a state transformer,
    and the calls made to the external rasterizer are collected in a log.

    The C++ code computes with [float].  The embedding is parametric in an
    arithmetic interface ([Arith]); statements that only depend on the
    control flow hold for every instance, statements that depend on
    algebraic laws are proved for the exact rational instance. *)

From Stdlib Require Import ZArith QArith Qpower Qround Qabs Bool List Lia Lqa.
From Stdlib Require Import SpecFloat.
Import ListNotations.

Set Implicit Arguments.
Local Open Scope Z_scope.

(** ** Arithmetic interface for [float] *)

Declare Scope fl_scope.
Delimit Scope fl_scope with fl.

(** The operations the renderer performs on [float] values.  Comparisons
    are kept as separate boolean tests ([<] and [<=]) so that an instance
    with unordered values (NaN) can answer [false] to both. *)
Class Arith : Type := {
  F : Type;
  flit : Q -> F;              (* a decimal literal such as [0.15f] *)
  of_int : Z -> F;            (* conversion [int] -> [float] *)
  to_int : F -> Z;            (* the cast [(int)x]: truncation toward zero *)
  fadd : F -> F -> F;
  fsub : F -> F -> F;
  fmul : F -> F -> F;
  fdiv : F -> F -> F;
  fopp : F -> F;
  fltb : F -> F -> bool;
  fleb : F -> F -> bool;
  feqb : F -> F -> bool;
  fsqrt : F -> F;             (* square root, as used by [norm] *)
  powf : F -> F -> F;         (* the C library's [powf] *)
  (* unary minus flips the sign *)
  fopp_involutive : forall x, fopp (fopp x) = x
}.

Notation "x + y" := (fadd x y) : fl_scope.
Notation "x - y" := (fsub x y) : fl_scope.
Notation "x * y" := (fmul x y) : fl_scope.
Notation "x / y" := (fdiv x y) : fl_scope.
Notation "- x" := (fopp x) : fl_scope.
Notation "x <? y" := (fltb x y) : fl_scope.
Notation "x <=? y" := (fleb x y) : fl_scope.
Notation "x >? y" := (fltb y x) : fl_scope.
Notation "x >=? y" := (fleb y x) : fl_scope.
Notation "x =? y" := (feqb x y) : fl_scope.

(** The literals [0.0f] and [1.0f]. *)
Definition f0 {A : Arith} : F := flit 0.
Definition f1 {A : Arith} : F := flit 1.

(** ** Helpers of [Misc.h] *)

(** Modelled from the spec: [max] of [Misc.h] (not under src/), the larger
    of two floats. *)
Definition fmax {A : Arith} (a b : F) : F := if (a <? b)%fl then b else a.

(** Modelled from the spec: [min] of [Misc.h] (not under src/). *)
Definition fmin {A : Arith} (a b : F) : F := if (b <? a)%fl then b else a.

(** Modelled from the spec: [clamp] of [Misc.h] (not under src/), which
    brings a value into the range [vmin, vmax]. *)
Definition fclamp {A : Arith} (v vmin vmax : F) : F := fmax vmin (fmin vmax v).

(** Modelled from the spec: [clamp] of [Misc.h] at type [int]. *)
Definition clamp (v vmin vmax : Z) : Z := Z.max vmin (Z.min vmax v).

(** ** Vectors, colors and matrices (Vec2.h, Vec3.h, Vec4.h, Color.h, Mat4.h) *)

Section LinearAlgebra.
Context {A : Arith}.
Local Open Scope fl_scope.

Record fVec2 := mkVec2 { x2 : F; y2 : F }.
Record fVec3 := mkVec3 { x3 : F; y3 : F; z3 : F }.
Record fVec4 := mkVec4 { x4 : F; y4 : F; z4 : F; w4 : F }.
Record RGBf := mkRGBf { R : F; G : F; B : F }.
Record iVec2 := mkiVec2 { ix : Z; iy : Z }.

(** A [Vec4] derives from [Vec3]: passing it where a [Vec3] is expected
    keeps the first three components. *)
Definition vec3_of (V : fVec4) : fVec3 := mkVec3 (x4 V) (y4 V) (z4 V).

Definition sub4 (U V : fVec4) : fVec4 :=
  mkVec4 (x4 U - x4 V) (y4 U - y4 V) (z4 U - z4 V) (w4 U - w4 V).

Definition add3 (U V : fVec3) : fVec3 :=
  mkVec3 (x3 U + x3 V) (y3 U + y3 V) (z3 U + z3 V).

Definition opp3 (V : fVec3) : fVec3 := mkVec3 (- x3 V) (- y3 V) (- z3 V).

Definition scale3 (V : fVec3) (a : F) : fVec3 :=
  mkVec3 (x3 V * a) (y3 V * a) (z3 V * a).

(** Modelled from the spec: [crossProduct] of [Vec3.h]. *)
Definition crossProduct (U V : fVec3) : fVec3 :=
  mkVec3 (y3 U * z3 V - z3 U * y3 V)
         (z3 U * x3 V - x3 U * z3 V)
         (x3 U * y3 V - y3 U * x3 V).

(** Modelled from the spec: [dotProduct] of [Vec3.h]. *)
Definition dotProduct (U V : fVec3) : F :=
  x3 U * x3 V + y3 U * y3 V + z3 U * z3 V.

(** Modelled from the spec: [Vec3::norm] and [Vec3::normalize]. *)
Definition norm (V : fVec3) : F := fsqrt (dotProduct V V).
Definition normalize (V : fVec3) : fVec3 := scale3 V (f1 / norm V).

(** Modelled from the spec: [Vec4::zdivide], the perspective divide:
    [x], [y], [z] are divided by [w] and [w] is replaced by its inverse. *)
Definition zdivide (V : fVec4) : fVec4 :=
  let iw := f1 / w4 V in
  mkVec4 (x4 V * iw) (y4 V * iw) (z4 V * iw) iw.

(** Colors *)
Definition rgb_scale (c : RGBf) (a : F) : RGBf :=
  mkRGBf (R c * a) (G c * a) (B c * a).
Definition rgb_add (c d : RGBf) : RGBf :=
  mkRGBf (R c + R d) (G c + G d) (B c + B d).
Definition rgb_mul (c d : RGBf) : RGBf :=
  mkRGBf (R c * R d) (G c * G d) (B c * B d).
(** Modelled from the spec: [RGBf::clamp] brings every channel into the
    valid color range [0,1]. *)
Definition rgb_clamp (c : RGBf) : RGBf :=
  mkRGBf (fclamp (R c) f0 f1) (fclamp (G c) f0 f1) (fclamp (B c) f0 f1).

(** A 4x4 matrix, stored column by column as in [Mat4.h]:
    [Mij] is the entry at index [i] of the array [M]. *)
Record fMat4 := mkMat4 {
  M0 : F; M1 : F; M2 : F; M3 : F;
  M4 : F; M5 : F; M6 : F; M7 : F;
  M8 : F; M9 : F; M10 : F; M11 : F;
  M12 : F; M13 : F; M14 : F; M15 : F
}.

(** Modelled from the spec: [Mat4::invertYaxis] (Mat4.h is not under
    src/) inverts the Y axis of the transform: the four entries that
    produce the [y] coordinate change sign. *)
Definition invertYaxis (M : fMat4) : fMat4 :=
  mkMat4 (M0 M) (- M1 M) (M2 M) (M3 M)
         (M4 M) (- M5 M) (M6 M) (M7 M)
         (M8 M) (- M9 M) (M10 M) (M11 M)
         (M12 M) (- M13 M) (M14 M) (M15 M).

(** Modelled from the spec: matrix times [Vec4]. *)
Definition mat_vec (M : fMat4) (V : fVec4) : fVec4 :=
  mkVec4 (M0 M * x4 V + M4 M * y4 V + M8 M * z4 V + M12 M * w4 V)
         (M1 M * x4 V + M5 M * y4 V + M9 M * z4 V + M13 M * w4 V)
         (M2 M * x4 V + M6 M * y4 V + M10 M * z4 V + M14 M * w4 V)
         (M3 M * x4 V + M7 M * y4 V + M11 M * z4 V + M15 M * w4 V).

(** Modelled from the spec: [Mat4::mult1], the transform of a point
    (fourth coordinate taken as 1). *)
Definition mult1 (M : fMat4) (V : fVec3) : fVec4 :=
  mkVec4 (M0 M * x3 V + M4 M * y3 V + M8 M * z3 V + M12 M)
         (M1 M * x3 V + M5 M * y3 V + M9 M * z3 V + M13 M)
         (M2 M * x3 V + M6 M * y3 V + M10 M * z3 V + M14 M)
         (M3 M * x3 V + M7 M * y3 V + M11 M * z3 V + M15 M).

(** Modelled from the spec: [Mat4::mult0], the transform of a direction
    (translation ignored). *)
Definition mult0 (M : fMat4) (V : fVec3) : fVec3 :=
  mkVec3 (M0 M * x3 V + M4 M * y3 V + M8 M * z3 V)
         (M1 M * x3 V + M5 M * y3 V + M9 M * z3 V)
         (M2 M * x3 V + M6 M * y3 V + M10 M * z3 V).

Definition col (M : fMat4) (j : nat) : fVec4 :=
  match j with
  | 0%nat => mkVec4 (M0 M) (M1 M) (M2 M) (M3 M)
  | 1%nat => mkVec4 (M4 M) (M5 M) (M6 M) (M7 M)
  | 2%nat => mkVec4 (M8 M) (M9 M) (M10 M) (M11 M)
  | _ => mkVec4 (M12 M) (M13 M) (M14 M) (M15 M)
  end.

(** Modelled from the spec: the matrix product [A * B]. *)
Definition mat_mul (M N : fMat4) : fMat4 :=
  let c0 := mat_vec M (col N 0) in
  let c1 := mat_vec M (col N 1) in
  let c2 := mat_vec M (col N 2) in
  let c3 := mat_vec M (col N 3) in
  mkMat4 (x4 c0) (y4 c0) (z4 c0) (w4 c0)
         (x4 c1) (y4 c1) (z4 c1) (w4 c1)
         (x4 c2) (y4 c2) (z4 c2) (w4 c2)
         (x4 c3) (y4 c3) (z4 c3) (w4 c3).

Definition setIdentity : fMat4 :=
  mkMat4 f1 f0 f0 f0  f0 f1 f0 f0  f0 f0 f1 f0  f0 f0 f0 f1.

End LinearAlgebra.

Arguments fVec2 {A}.
Arguments fVec3 {A}.
Arguments fVec4 {A}.
Arguments RGBf {A}.
Arguments fMat4 {A}.

(** ** Template parameters and external collaborators *)

Definition MAXVIEWPORTDIMENSION : Z := 2048.

(** The template parameters of [Renderer3D<color_t, LX, LY, ZBUFFER, ORTHO>],
    with the class's [static_assert]s on the viewport size. *)
Class Template : Type := {
  color_t : Type;
  LX : Z;
  LY : Z;
  ZBUFFER : bool;
  ORTHO : bool;
  viewport_ok :
    (0 <? LX) && (LX <=? MAXVIEWPORTDIMENSION)
    && (0 <? LY) && (LY <=? MAXVIEWPORTDIMENSION) = true
}.

Section Types.
Context {A : Arith} {T : Template}.

(** Modelled from the spec: [Image<color_t>] (Image.h is not under src/),
    as far as the renderer looks at it: validity, size and the pixels. *)
Record Image := mkImage {
  isValid : bool;
  width : Z;
  height : Z;
  data : list color_t
}.

(** [Image<color_t>::RasterizerParams]: depth buffer, uniform face color
    and texture, in the order of the constructor's initializer. *)
Record RasterizerParams := mkRasterizerParams {
  zbuf : option (list F);
  facecolor : RGBf;
  tex : option Image
}.

(** [Image<color_t>::RasterizerVec4]: a [Vec4] with a color and texture
    coordinates. *)
Record RasterizerVec4 := mkRasterizerVec4 {
  pos : fVec4;
  color : RGBf;
  texT : fVec2
}.

(** One call of [rasterizeTriangle], with its arguments. *)
Record Submission := mkSubmission {
  sub_raster_type : Z;
  sub_V0 : RasterizerVec4;
  sub_V1 : RasterizerVec4;
  sub_V2 : RasterizerVec4;
  sub_ox : Z;
  sub_oy : Z;
  sub_uni : RasterizerParams
}.

End Types.

(** What the renderer uses and [src/] does not define: the shader flags,
    the rasterizer of [Image] and the matrix constructors of [Mat4]. *)
Class Extern {A : Arith} {T : Template} : Type := {
  SHADER_FLAT : Z;
  SHADER_GOURAUD : Z;
  SHADER_TEXTURE : Z;
  (* pixels and depth values after rasterizing one triangle *)
  rasterizeTriangle :
    Z -> RasterizerVec4 -> RasterizerVec4 -> RasterizerVec4 ->
    Z -> Z -> RasterizerParams -> Image -> list color_t * option (list F);
  Mat4_setOrtho : F -> F -> F -> F -> F -> F -> fMat4;
  Mat4_setFrustum : F -> F -> F -> F -> F -> F -> fMat4;
  Mat4_setPerspective : F -> F -> F -> F -> fMat4;
  Mat4_setLookAt : F -> F -> F -> F -> F -> F -> F -> F -> F -> fMat4;
  (* the flags are bit masks: Gouraud and texture are non-zero and no two
     flags share a bit *)
  shader_flags_ok :
    negb (SHADER_GOURAUD =? 0) && negb (SHADER_TEXTURE =? 0)
    && (Z.land SHADER_GOURAUD SHADER_TEXTURE =? 0)
    && (Z.land SHADER_FLAT SHADER_GOURAUD =? 0)
    && (Z.land SHADER_FLAT SHADER_TEXTURE =? 0) = true
}.

Section Renderer.
Context {A : Arith} {T : Template} {E : Extern}.
Local Open Scope fl_scope.

(** The member variables of the class. *)
Record Renderer3D := mkRenderer3D {
  _currentpow : Z;  (* exponent of the currently computed table (<0 if not yet computed) *)
  _powfact : F;  (* used to compute the table index *)
  _fastpowtab : list F;  (* the precomputed power table *)
  _ox : Z;  (* image offset w.r.t. the viewport *)
  _oy : Z;
  _im : option Image;  (* image to draw onto *)
  _projM : fMat4;  (* projection matrix *)
  _zbuffer_len : Z;  (* size of the zbuffer *)
  _uni : RasterizerParams;  (* rasterizer parameters (hold the zbuffer) *)
  _culling_dir : F;  (* culling direction, or 0 to disable face culling *)
  _viewM : fMat4;  (* view transform matrix *)
  _light : fVec3;  (* light direction *)
  _ambiantColor : RGBf;  (* light ambiant color *)
  _diffuseColor : RGBf;  (* light diffuse color *)
  _specularColor : RGBf;  (* light specular color *)
  _modelM : fMat4;  (* model transform matrix *)
  _color : RGBf;  (* model color *)
  _ambiantStrength : F;
  _diffuseStrength : F;
  _specularStrength : F;
  _specularExponent : Z;
  _r_modelViewM : fMat4;  (* model-view matrix *)
  _r_inorm : F;  (* inverse of the norm of a unit vector after view transform *)
  _r_light : fVec3;  (* light vector in view space (inverted and normalized) *)
  _r_light_inorm : fVec3;
  _r_H : fVec3;  (* halfway vector *)
  _r_H_inorm : fVec3;
  _r_ambiantColor : RGBf;  (* ambient color multiplied by ambient strength *)
  _r_diffuseColor : RGBf;  (* diffuse color multiplied by diffuse strength *)
  _r_specularColor : RGBf;  (* specular color multiplied by specular strength *)
  _r_objectColor : RGBf  (* color used for drawing the object *)
}.

(** Assignment to one member, the others unchanged. *)
Definition set_currentpow (v : Z) (r : Renderer3D) : Renderer3D :=
  mkRenderer3D v (_powfact r) (_fastpowtab r) (_ox r) (_oy r) (_im r)
    (_projM r) (_zbuffer_len r) (_uni r) (_culling_dir r) (_viewM r)
    (_light r) (_ambiantColor r) (_diffuseColor r) (_specularColor r)
    (_modelM r) (_color r) (_ambiantStrength r) (_diffuseStrength r)
    (_specularStrength r) (_specularExponent r) (_r_modelViewM r)
    (_r_inorm r) (_r_light r) (_r_light_inorm r) (_r_H r) (_r_H_inorm r)
    (_r_ambiantColor r) (_r_diffuseColor r) (_r_specularColor r)
    (_r_objectColor r).
Definition set_powfact (v : F) (r : Renderer3D) : Renderer3D :=
  mkRenderer3D (_currentpow r) v (_fastpowtab r) (_ox r) (_oy r) (_im r)
    (_projM r) (_zbuffer_len r) (_uni r) (_culling_dir r) (_viewM r)
    (_light r) (_ambiantColor r) (_diffuseColor r) (_specularColor r)
    (_modelM r) (_color r) (_ambiantStrength r) (_diffuseStrength r)
    (_specularStrength r) (_specularExponent r) (_r_modelViewM r)
    (_r_inorm r) (_r_light r) (_r_light_inorm r) (_r_H r) (_r_H_inorm r)
    (_r_ambiantColor r) (_r_diffuseColor r) (_r_specularColor r)
    (_r_objectColor r).
Definition set_fastpowtab (v : list F) (r : Renderer3D) : Renderer3D :=
  mkRenderer3D (_currentpow r) (_powfact r) v (_ox r) (_oy r) (_im r)
    (_projM r) (_zbuffer_len r) (_uni r) (_culling_dir r) (_viewM r)
    (_light r) (_ambiantColor r) (_diffuseColor r) (_specularColor r)
    (_modelM r) (_color r) (_ambiantStrength r) (_diffuseStrength r)
    (_specularStrength r) (_specularExponent r) (_r_modelViewM r)
    (_r_inorm r) (_r_light r) (_r_light_inorm r) (_r_H r) (_r_H_inorm r)
    (_r_ambiantColor r) (_r_diffuseColor r) (_r_specularColor r)
    (_r_objectColor r).
Definition set_ox (v : Z) (r : Renderer3D) : Renderer3D :=
  mkRenderer3D (_currentpow r) (_powfact r) (_fastpowtab r) v (_oy r)
    (_im r) (_projM r) (_zbuffer_len r) (_uni r) (_culling_dir r) (_viewM r)
    (_light r) (_ambiantColor r) (_diffuseColor r) (_specularColor r)
    (_modelM r) (_color r) (_ambiantStrength r) (_diffuseStrength r)
    (_specularStrength r) (_specularExponent r) (_r_modelViewM r)
    (_r_inorm r) (_r_light r) (_r_light_inorm r) (_r_H r) (_r_H_inorm r)
    (_r_ambiantColor r) (_r_diffuseColor r) (_r_specularColor r)
    (_r_objectColor r).
Definition set_oy (v : Z) (r : Renderer3D) : Renderer3D :=
  mkRenderer3D (_currentpow r) (_powfact r) (_fastpowtab r) (_ox r) v
    (_im r) (_projM r) (_zbuffer_len r) (_uni r) (_culling_dir r) (_viewM r)
    (_light r) (_ambiantColor r) (_diffuseColor r) (_specularColor r)
    (_modelM r) (_color r) (_ambiantStrength r) (_diffuseStrength r)
    (_specularStrength r) (_specularExponent r) (_r_modelViewM r)
    (_r_inorm r) (_r_light r) (_r_light_inorm r) (_r_H r) (_r_H_inorm r)
    (_r_ambiantColor r) (_r_diffuseColor r) (_r_specularColor r)
    (_r_objectColor r).
Definition set_im (v : option Image) (r : Renderer3D) : Renderer3D :=
  mkRenderer3D (_currentpow r) (_powfact r) (_fastpowtab r) (_ox r) (_oy r)
    v (_projM r) (_zbuffer_len r) (_uni r) (_culling_dir r) (_viewM r)
    (_light r) (_ambiantColor r) (_diffuseColor r) (_specularColor r)
    (_modelM r) (_color r) (_ambiantStrength r) (_diffuseStrength r)
    (_specularStrength r) (_specularExponent r) (_r_modelViewM r)
    (_r_inorm r) (_r_light r) (_r_light_inorm r) (_r_H r) (_r_H_inorm r)
    (_r_ambiantColor r) (_r_diffuseColor r) (_r_specularColor r)
    (_r_objectColor r).
Definition set_projM (v : fMat4) (r : Renderer3D) : Renderer3D :=
  mkRenderer3D (_currentpow r) (_powfact r) (_fastpowtab r) (_ox r) (_oy r)
    (_im r) v (_zbuffer_len r) (_uni r) (_culling_dir r) (_viewM r)
    (_light r) (_ambiantColor r) (_diffuseColor r) (_specularColor r)
    (_modelM r) (_color r) (_ambiantStrength r) (_diffuseStrength r)
    (_specularStrength r) (_specularExponent r) (_r_modelViewM r)
    (_r_inorm r) (_r_light r) (_r_light_inorm r) (_r_H r) (_r_H_inorm r)
    (_r_ambiantColor r) (_r_diffuseColor r) (_r_specularColor r)
    (_r_objectColor r).
Definition set_zbuffer_len (v : Z) (r : Renderer3D) : Renderer3D :=
  mkRenderer3D (_currentpow r) (_powfact r) (_fastpowtab r) (_ox r) (_oy r)
    (_im r) (_projM r) v (_uni r) (_culling_dir r) (_viewM r) (_light r)
    (_ambiantColor r) (_diffuseColor r) (_specularColor r) (_modelM r)
    (_color r) (_ambiantStrength r) (_diffuseStrength r)
    (_specularStrength r) (_specularExponent r) (_r_modelViewM r)
    (_r_inorm r) (_r_light r) (_r_light_inorm r) (_r_H r) (_r_H_inorm r)
    (_r_ambiantColor r) (_r_diffuseColor r) (_r_specularColor r)
    (_r_objectColor r).
Definition set_uni (v : RasterizerParams) (r : Renderer3D) : Renderer3D :=
  mkRenderer3D (_currentpow r) (_powfact r) (_fastpowtab r) (_ox r) (_oy r)
    (_im r) (_projM r) (_zbuffer_len r) v (_culling_dir r) (_viewM r)
    (_light r) (_ambiantColor r) (_diffuseColor r) (_specularColor r)
    (_modelM r) (_color r) (_ambiantStrength r) (_diffuseStrength r)
    (_specularStrength r) (_specularExponent r) (_r_modelViewM r)
    (_r_inorm r) (_r_light r) (_r_light_inorm r) (_r_H r) (_r_H_inorm r)
    (_r_ambiantColor r) (_r_diffuseColor r) (_r_specularColor r)
    (_r_objectColor r).
Definition set_culling_dir (v : F) (r : Renderer3D) : Renderer3D :=
  mkRenderer3D (_currentpow r) (_powfact r) (_fastpowtab r) (_ox r) (_oy r)
    (_im r) (_projM r) (_zbuffer_len r) (_uni r) v (_viewM r) (_light r)
    (_ambiantColor r) (_diffuseColor r) (_specularColor r) (_modelM r)
    (_color r) (_ambiantStrength r) (_diffuseStrength r)
    (_specularStrength r) (_specularExponent r) (_r_modelViewM r)
    (_r_inorm r) (_r_light r) (_r_light_inorm r) (_r_H r) (_r_H_inorm r)
    (_r_ambiantColor r) (_r_diffuseColor r) (_r_specularColor r)
    (_r_objectColor r).
Definition set_viewM (v : fMat4) (r : Renderer3D) : Renderer3D :=
  mkRenderer3D (_currentpow r) (_powfact r) (_fastpowtab r) (_ox r) (_oy r)
    (_im r) (_projM r) (_zbuffer_len r) (_uni r) (_culling_dir r) v
    (_light r) (_ambiantColor r) (_diffuseColor r) (_specularColor r)
    (_modelM r) (_color r) (_ambiantStrength r) (_diffuseStrength r)
    (_specularStrength r) (_specularExponent r) (_r_modelViewM r)
    (_r_inorm r) (_r_light r) (_r_light_inorm r) (_r_H r) (_r_H_inorm r)
    (_r_ambiantColor r) (_r_diffuseColor r) (_r_specularColor r)
    (_r_objectColor r).
Definition set_light (v : fVec3) (r : Renderer3D) : Renderer3D :=
  mkRenderer3D (_currentpow r) (_powfact r) (_fastpowtab r) (_ox r) (_oy r)
    (_im r) (_projM r) (_zbuffer_len r) (_uni r) (_culling_dir r) (_viewM r)
    v (_ambiantColor r) (_diffuseColor r) (_specularColor r) (_modelM r)
    (_color r) (_ambiantStrength r) (_diffuseStrength r)
    (_specularStrength r) (_specularExponent r) (_r_modelViewM r)
    (_r_inorm r) (_r_light r) (_r_light_inorm r) (_r_H r) (_r_H_inorm r)
    (_r_ambiantColor r) (_r_diffuseColor r) (_r_specularColor r)
    (_r_objectColor r).
Definition set_ambiantColor (v : RGBf) (r : Renderer3D) : Renderer3D :=
  mkRenderer3D (_currentpow r) (_powfact r) (_fastpowtab r) (_ox r) (_oy r)
    (_im r) (_projM r) (_zbuffer_len r) (_uni r) (_culling_dir r) (_viewM r)
    (_light r) v (_diffuseColor r) (_specularColor r) (_modelM r) (_color r)
    (_ambiantStrength r) (_diffuseStrength r) (_specularStrength r)
    (_specularExponent r) (_r_modelViewM r) (_r_inorm r) (_r_light r)
    (_r_light_inorm r) (_r_H r) (_r_H_inorm r) (_r_ambiantColor r)
    (_r_diffuseColor r) (_r_specularColor r) (_r_objectColor r).
Definition set_diffuseColor (v : RGBf) (r : Renderer3D) : Renderer3D :=
  mkRenderer3D (_currentpow r) (_powfact r) (_fastpowtab r) (_ox r) (_oy r)
    (_im r) (_projM r) (_zbuffer_len r) (_uni r) (_culling_dir r) (_viewM r)
    (_light r) (_ambiantColor r) v (_specularColor r) (_modelM r) (_color r)
    (_ambiantStrength r) (_diffuseStrength r) (_specularStrength r)
    (_specularExponent r) (_r_modelViewM r) (_r_inorm r) (_r_light r)
    (_r_light_inorm r) (_r_H r) (_r_H_inorm r) (_r_ambiantColor r)
    (_r_diffuseColor r) (_r_specularColor r) (_r_objectColor r).
Definition set_specularColor (v : RGBf) (r : Renderer3D) : Renderer3D :=
  mkRenderer3D (_currentpow r) (_powfact r) (_fastpowtab r) (_ox r) (_oy r)
    (_im r) (_projM r) (_zbuffer_len r) (_uni r) (_culling_dir r) (_viewM r)
    (_light r) (_ambiantColor r) (_diffuseColor r) v (_modelM r) (_color r)
    (_ambiantStrength r) (_diffuseStrength r) (_specularStrength r)
    (_specularExponent r) (_r_modelViewM r) (_r_inorm r) (_r_light r)
    (_r_light_inorm r) (_r_H r) (_r_H_inorm r) (_r_ambiantColor r)
    (_r_diffuseColor r) (_r_specularColor r) (_r_objectColor r).
Definition set_modelM (v : fMat4) (r : Renderer3D) : Renderer3D :=
  mkRenderer3D (_currentpow r) (_powfact r) (_fastpowtab r) (_ox r) (_oy r)
    (_im r) (_projM r) (_zbuffer_len r) (_uni r) (_culling_dir r) (_viewM r)
    (_light r) (_ambiantColor r) (_diffuseColor r) (_specularColor r) v
    (_color r) (_ambiantStrength r) (_diffuseStrength r)
    (_specularStrength r) (_specularExponent r) (_r_modelViewM r)
    (_r_inorm r) (_r_light r) (_r_light_inorm r) (_r_H r) (_r_H_inorm r)
    (_r_ambiantColor r) (_r_diffuseColor r) (_r_specularColor r)
    (_r_objectColor r).
Definition set_color (v : RGBf) (r : Renderer3D) : Renderer3D :=
  mkRenderer3D (_currentpow r) (_powfact r) (_fastpowtab r) (_ox r) (_oy r)
    (_im r) (_projM r) (_zbuffer_len r) (_uni r) (_culling_dir r) (_viewM r)
    (_light r) (_ambiantColor r) (_diffuseColor r) (_specularColor r)
    (_modelM r) v (_ambiantStrength r) (_diffuseStrength r)
    (_specularStrength r) (_specularExponent r) (_r_modelViewM r)
    (_r_inorm r) (_r_light r) (_r_light_inorm r) (_r_H r) (_r_H_inorm r)
    (_r_ambiantColor r) (_r_diffuseColor r) (_r_specularColor r)
    (_r_objectColor r).
Definition set_ambiantStrength (v : F) (r : Renderer3D) : Renderer3D :=
  mkRenderer3D (_currentpow r) (_powfact r) (_fastpowtab r) (_ox r) (_oy r)
    (_im r) (_projM r) (_zbuffer_len r) (_uni r) (_culling_dir r) (_viewM r)
    (_light r) (_ambiantColor r) (_diffuseColor r) (_specularColor r)
    (_modelM r) (_color r) v (_diffuseStrength r) (_specularStrength r)
    (_specularExponent r) (_r_modelViewM r) (_r_inorm r) (_r_light r)
    (_r_light_inorm r) (_r_H r) (_r_H_inorm r) (_r_ambiantColor r)
    (_r_diffuseColor r) (_r_specularColor r) (_r_objectColor r).
Definition set_diffuseStrength (v : F) (r : Renderer3D) : Renderer3D :=
  mkRenderer3D (_currentpow r) (_powfact r) (_fastpowtab r) (_ox r) (_oy r)
    (_im r) (_projM r) (_zbuffer_len r) (_uni r) (_culling_dir r) (_viewM r)
    (_light r) (_ambiantColor r) (_diffuseColor r) (_specularColor r)
    (_modelM r) (_color r) (_ambiantStrength r) v (_specularStrength r)
    (_specularExponent r) (_r_modelViewM r) (_r_inorm r) (_r_light r)
    (_r_light_inorm r) (_r_H r) (_r_H_inorm r) (_r_ambiantColor r)
    (_r_diffuseColor r) (_r_specularColor r) (_r_objectColor r).
Definition set_specularStrength (v : F) (r : Renderer3D) : Renderer3D :=
  mkRenderer3D (_currentpow r) (_powfact r) (_fastpowtab r) (_ox r) (_oy r)
    (_im r) (_projM r) (_zbuffer_len r) (_uni r) (_culling_dir r) (_viewM r)
    (_light r) (_ambiantColor r) (_diffuseColor r) (_specularColor r)
    (_modelM r) (_color r) (_ambiantStrength r) (_diffuseStrength r) v
    (_specularExponent r) (_r_modelViewM r) (_r_inorm r) (_r_light r)
    (_r_light_inorm r) (_r_H r) (_r_H_inorm r) (_r_ambiantColor r)
    (_r_diffuseColor r) (_r_specularColor r) (_r_objectColor r).
Definition set_specularExponent (v : Z) (r : Renderer3D) : Renderer3D :=
  mkRenderer3D (_currentpow r) (_powfact r) (_fastpowtab r) (_ox r) (_oy r)
    (_im r) (_projM r) (_zbuffer_len r) (_uni r) (_culling_dir r) (_viewM r)
    (_light r) (_ambiantColor r) (_diffuseColor r) (_specularColor r)
    (_modelM r) (_color r) (_ambiantStrength r) (_diffuseStrength r)
    (_specularStrength r) v (_r_modelViewM r) (_r_inorm r) (_r_light r)
    (_r_light_inorm r) (_r_H r) (_r_H_inorm r) (_r_ambiantColor r)
    (_r_diffuseColor r) (_r_specularColor r) (_r_objectColor r).
Definition set_r_modelViewM (v : fMat4) (r : Renderer3D) : Renderer3D :=
  mkRenderer3D (_currentpow r) (_powfact r) (_fastpowtab r) (_ox r) (_oy r)
    (_im r) (_projM r) (_zbuffer_len r) (_uni r) (_culling_dir r) (_viewM r)
    (_light r) (_ambiantColor r) (_diffuseColor r) (_specularColor r)
    (_modelM r) (_color r) (_ambiantStrength r) (_diffuseStrength r)
    (_specularStrength r) (_specularExponent r) v (_r_inorm r) (_r_light r)
    (_r_light_inorm r) (_r_H r) (_r_H_inorm r) (_r_ambiantColor r)
    (_r_diffuseColor r) (_r_specularColor r) (_r_objectColor r).
Definition set_r_inorm (v : F) (r : Renderer3D) : Renderer3D :=
  mkRenderer3D (_currentpow r) (_powfact r) (_fastpowtab r) (_ox r) (_oy r)
    (_im r) (_projM r) (_zbuffer_len r) (_uni r) (_culling_dir r) (_viewM r)
    (_light r) (_ambiantColor r) (_diffuseColor r) (_specularColor r)
    (_modelM r) (_color r) (_ambiantStrength r) (_diffuseStrength r)
    (_specularStrength r) (_specularExponent r) (_r_modelViewM r) v
    (_r_light r) (_r_light_inorm r) (_r_H r) (_r_H_inorm r)
    (_r_ambiantColor r) (_r_diffuseColor r) (_r_specularColor r)
    (_r_objectColor r).
Definition set_r_light (v : fVec3) (r : Renderer3D) : Renderer3D :=
  mkRenderer3D (_currentpow r) (_powfact r) (_fastpowtab r) (_ox r) (_oy r)
    (_im r) (_projM r) (_zbuffer_len r) (_uni r) (_culling_dir r) (_viewM r)
    (_light r) (_ambiantColor r) (_diffuseColor r) (_specularColor r)
    (_modelM r) (_color r) (_ambiantStrength r) (_diffuseStrength r)
    (_specularStrength r) (_specularExponent r) (_r_modelViewM r)
    (_r_inorm r) v (_r_light_inorm r) (_r_H r) (_r_H_inorm r)
    (_r_ambiantColor r) (_r_diffuseColor r) (_r_specularColor r)
    (_r_objectColor r).
Definition set_r_light_inorm (v : fVec3) (r : Renderer3D) : Renderer3D :=
  mkRenderer3D (_currentpow r) (_powfact r) (_fastpowtab r) (_ox r) (_oy r)
    (_im r) (_projM r) (_zbuffer_len r) (_uni r) (_culling_dir r) (_viewM r)
    (_light r) (_ambiantColor r) (_diffuseColor r) (_specularColor r)
    (_modelM r) (_color r) (_ambiantStrength r) (_diffuseStrength r)
    (_specularStrength r) (_specularExponent r) (_r_modelViewM r)
    (_r_inorm r) (_r_light r) v (_r_H r) (_r_H_inorm r) (_r_ambiantColor r)
    (_r_diffuseColor r) (_r_specularColor r) (_r_objectColor r).
Definition set_r_H (v : fVec3) (r : Renderer3D) : Renderer3D :=
  mkRenderer3D (_currentpow r) (_powfact r) (_fastpowtab r) (_ox r) (_oy r)
    (_im r) (_projM r) (_zbuffer_len r) (_uni r) (_culling_dir r) (_viewM r)
    (_light r) (_ambiantColor r) (_diffuseColor r) (_specularColor r)
    (_modelM r) (_color r) (_ambiantStrength r) (_diffuseStrength r)
    (_specularStrength r) (_specularExponent r) (_r_modelViewM r)
    (_r_inorm r) (_r_light r) (_r_light_inorm r) v (_r_H_inorm r)
    (_r_ambiantColor r) (_r_diffuseColor r) (_r_specularColor r)
    (_r_objectColor r).
Definition set_r_H_inorm (v : fVec3) (r : Renderer3D) : Renderer3D :=
  mkRenderer3D (_currentpow r) (_powfact r) (_fastpowtab r) (_ox r) (_oy r)
    (_im r) (_projM r) (_zbuffer_len r) (_uni r) (_culling_dir r) (_viewM r)
    (_light r) (_ambiantColor r) (_diffuseColor r) (_specularColor r)
    (_modelM r) (_color r) (_ambiantStrength r) (_diffuseStrength r)
    (_specularStrength r) (_specularExponent r) (_r_modelViewM r)
    (_r_inorm r) (_r_light r) (_r_light_inorm r) (_r_H r) v
    (_r_ambiantColor r) (_r_diffuseColor r) (_r_specularColor r)
    (_r_objectColor r).
Definition set_r_ambiantColor (v : RGBf) (r : Renderer3D) : Renderer3D :=
  mkRenderer3D (_currentpow r) (_powfact r) (_fastpowtab r) (_ox r) (_oy r)
    (_im r) (_projM r) (_zbuffer_len r) (_uni r) (_culling_dir r) (_viewM r)
    (_light r) (_ambiantColor r) (_diffuseColor r) (_specularColor r)
    (_modelM r) (_color r) (_ambiantStrength r) (_diffuseStrength r)
    (_specularStrength r) (_specularExponent r) (_r_modelViewM r)
    (_r_inorm r) (_r_light r) (_r_light_inorm r) (_r_H r) (_r_H_inorm r) v
    (_r_diffuseColor r) (_r_specularColor r) (_r_objectColor r).
Definition set_r_diffuseColor (v : RGBf) (r : Renderer3D) : Renderer3D :=
  mkRenderer3D (_currentpow r) (_powfact r) (_fastpowtab r) (_ox r) (_oy r)
    (_im r) (_projM r) (_zbuffer_len r) (_uni r) (_culling_dir r) (_viewM r)
    (_light r) (_ambiantColor r) (_diffuseColor r) (_specularColor r)
    (_modelM r) (_color r) (_ambiantStrength r) (_diffuseStrength r)
    (_specularStrength r) (_specularExponent r) (_r_modelViewM r)
    (_r_inorm r) (_r_light r) (_r_light_inorm r) (_r_H r) (_r_H_inorm r)
    (_r_ambiantColor r) v (_r_specularColor r) (_r_objectColor r).
Definition set_r_specularColor (v : RGBf) (r : Renderer3D) : Renderer3D :=
  mkRenderer3D (_currentpow r) (_powfact r) (_fastpowtab r) (_ox r) (_oy r)
    (_im r) (_projM r) (_zbuffer_len r) (_uni r) (_culling_dir r) (_viewM r)
    (_light r) (_ambiantColor r) (_diffuseColor r) (_specularColor r)
    (_modelM r) (_color r) (_ambiantStrength r) (_diffuseStrength r)
    (_specularStrength r) (_specularExponent r) (_r_modelViewM r)
    (_r_inorm r) (_r_light r) (_r_light_inorm r) (_r_H r) (_r_H_inorm r)
    (_r_ambiantColor r) (_r_diffuseColor r) v (_r_objectColor r).
Definition set_r_objectColor (v : RGBf) (r : Renderer3D) : Renderer3D :=
  mkRenderer3D (_currentpow r) (_powfact r) (_fastpowtab r) (_ox r) (_oy r)
    (_im r) (_projM r) (_zbuffer_len r) (_uni r) (_culling_dir r) (_viewM r)
    (_light r) (_ambiantColor r) (_diffuseColor r) (_specularColor r)
    (_modelM r) (_color r) (_ambiantStrength r) (_diffuseStrength r)
    (_specularStrength r) (_specularExponent r) (_r_modelViewM r)
    (_r_inorm r) (_r_light r) (_r_light_inorm r) (_r_H r) (_r_H_inorm r)
    (_r_ambiantColor r) (_r_diffuseColor r) (_r_specularColor r) v.

Definition set_zbuf (v : option (list F)) (u : RasterizerParams)
  : RasterizerParams := mkRasterizerParams v (facecolor u) (tex u).
Definition set_facecolor (v : RGBf) (u : RasterizerParams)
  : RasterizerParams := mkRasterizerParams (zbuf u) v (tex u).
Definition set_tex (v : option Image) (u : RasterizerParams)
  : RasterizerParams := mkRasterizerParams (zbuf u) (facecolor u) v.

(** *** General parameters *)

Definition setImage (im : option Image) (r : Renderer3D) : Renderer3D :=
  set_im im r.

Definition setOffset (ox oy : Z) (r : Renderer3D) : Renderer3D :=
  let r := set_ox (clamp ox 0 MAXVIEWPORTDIMENSION) r in
  set_oy (clamp oy 0 MAXVIEWPORTDIMENSION) r.

Definition setOffset_vec (offset : iVec2) (r : Renderer3D) : Renderer3D :=
  setOffset (ix offset) (iy offset) r.

Definition setProjectionMatrix (M : fMat4) (r : Renderer3D) : Renderer3D :=
  let r := set_projM M r in
  set_projM (invertYaxis (_projM r)) r.

Definition getProjectionMatrix (r : Renderer3D) : fMat4 :=
  let M := _projM r in
  invertYaxis M.

Definition setOrtho (left right bottom top zNear zFar : F) (r : Renderer3D)
  : Renderer3D :=
  let r := set_projM (Mat4_setOrtho left right bottom top zNear zFar) r in
  set_projM (invertYaxis (_projM r)) r.

Definition setFrustum (left right bottom top zNear zFar : F) (r : Renderer3D)
  : Renderer3D :=
  let r := set_projM (Mat4_setFrustum left right bottom top zNear zFar) r in
  set_projM (invertYaxis (_projM r)) r.

Definition setPerspective (fovy aspect zNear zFar : F) (r : Renderer3D)
  : Renderer3D :=
  let r := set_projM (Mat4_setPerspective fovy aspect zNear zFar) r in
  set_projM (invertYaxis (_projM r)) r.

Definition setCulling (w : Z) (r : Renderer3D) : Renderer3D :=
  set_culling_dir
    (if (w >? 0)%Z then flit 1 else if (w <? 0)%Z then flit (-1) else flit 0) r.

Definition setZbuffer (zbuffer : option (list F)) (length : Z)
  (r : Renderer3D) : Renderer3D :=
  let r := set_uni (set_zbuf zbuffer (_uni r)) r in
  set_zbuffer_len length r.

(** [memset] over the first [n] floats of the buffer. *)
Definition memset0 (buf : list F) (n : Z) : list F :=
  repeat f0 (Nat.min (Z.to_nat n) (length buf)) ++ skipn (Z.to_nat n) buf.

Definition clearZbuffer (r : Renderer3D) : Renderer3D :=
  match zbuf (_uni r) with
  | Some buf =>
      set_uni (set_zbuf (Some (memset0 buf (_zbuffer_len r))) (_uni r)) r
  | None => r
  end.

(** *** Scene parameters *)

(** The light part of the recomputation, shared by [setViewMatrix] and
    [setLightDirection]. *)
Definition recompute_light (r : Renderer3D) : Renderer3D :=
  let r := set_r_light (mult0 (_viewM r) (_light r)) r in
  let r := set_r_light (opp3 (_r_light r)) r in
  let r := set_r_light (normalize (_r_light r)) r in
  let r := set_r_light_inorm (scale3 (_r_light r) (_r_inorm r)) r in
  let r := set_r_H (mkVec3 f0 f0 f1) r in
  let r := set_r_H (add3 (_r_H r) (_r_light r)) r in
  let r := set_r_H (normalize (_r_H r)) r in
  set_r_H_inorm (scale3 (_r_H r) (_r_inorm r)) r.

Definition setViewMatrix (M : fMat4) (r : Renderer3D) : Renderer3D :=
  let r := set_viewM M r in
  let r := set_r_modelViewM (mat_mul (_viewM r) (_modelM r)) r in
  let r :=
    set_r_inorm (f1 / norm (mult0 (_r_modelViewM r) (mkVec3 f0 f0 f1))) r in
  recompute_light r.

Definition getViewMatrix (r : Renderer3D) : fMat4 := _viewM r.

Definition setLookAt (eyeX eyeY eyeZ centerX centerY centerZ upX upY upZ : F)
  (r : Renderer3D) : Renderer3D :=
  let M :=
    Mat4_setLookAt eyeX eyeY eyeZ centerX centerY centerZ upX upY upZ in
  setViewMatrix M r.

Definition setLookAt_vec (eye center up : fVec3) (r : Renderer3D)
  : Renderer3D :=
  setLookAt (x3 eye) (y3 eye) (z3 eye) (x3 center) (y3 center) (z3 center)
            (x3 up) (y3 up) (z3 up) r.

Definition setLightDirection (direction : fVec3) (r : Renderer3D)
  : Renderer3D :=
  let r := set_light direction r in
  recompute_light r.

Definition setLightAmbiant (c : RGBf) (r : Renderer3D) : Renderer3D :=
  let r := set_ambiantColor c r in
  set_r_ambiantColor (rgb_scale (_ambiantColor r) (_ambiantStrength r)) r.

Definition setLightDiffuse (c : RGBf) (r : Renderer3D) : Renderer3D :=
  let r := set_diffuseColor c r in
  set_r_diffuseColor (rgb_scale (_diffuseColor r) (_diffuseStrength r)) r.

Definition setLightSpecular (c : RGBf) (r : Renderer3D) : Renderer3D :=
  let r := set_specularColor c r in
  set_r_specularColor (rgb_scale (_specularColor r) (_specularStrength r)) r.

Definition setLight (direction : fVec3)
  (ambiantColor diffuseColor specularColor : RGBf) (r : Renderer3D)
  : Renderer3D :=
  let r := setLightDirection direction r in
  let r := setLightAmbiant ambiantColor r in
  let r := setLightDiffuse diffuseColor r in
  setLightSpecular specularColor r.

(** *** Model parameters *)

Definition setModelMatrix (M : fMat4) (r : Renderer3D) : Renderer3D :=
  let r := set_modelM M r in
  let r := set_r_modelViewM (mat_mul (_viewM r) (_modelM r)) r in
  let r :=
    set_r_inorm (f1 / norm (mult0 (_r_modelViewM r) (mkVec3 f0 f0 f1))) r in
  let r := set_r_light_inorm (scale3 (_r_light r) (_r_inorm r)) r in
  set_r_H_inorm (scale3 (_r_H r) (_r_inorm r)) r.

Definition getModelMatrix (r : Renderer3D) : fMat4 := _modelM r.

Definition setMaterialColor (c : RGBf) (r : Renderer3D) : Renderer3D :=
  let r := set_color c r in
  set_r_objectColor (_color r) r.

Definition setMaterialAmbiantStrength (strenght : F) (r : Renderer3D)
  : Renderer3D :=
  let r := set_ambiantStrength (fclamp strenght (flit 0) (flit 10)) r in
  set_r_ambiantColor (rgb_scale (_ambiantColor r) (_ambiantStrength r)) r.

Definition setMaterialDiffuseStrength (strenght : F) (r : Renderer3D)
  : Renderer3D :=
  let r := set_diffuseStrength (fclamp strenght (flit 0) (flit 10)) r in
  set_r_diffuseColor (rgb_scale (_diffuseColor r) (_diffuseStrength r)) r.

Definition setMaterialSpecularStrength (strenght : F) (r : Renderer3D)
  : Renderer3D :=
  let r := set_specularStrength (fclamp strenght (flit 0) (flit 10)) r in
  set_r_specularColor (rgb_scale (_specularColor r) (_specularStrength r)) r.

Definition setMaterialSpecularExponent (exponent : Z) (r : Renderer3D)
  : Renderer3D :=
  set_specularExponent (clamp exponent 0 100) r.

Definition setMaterial (c : RGBf)
  (ambiantStrength diffuseStrength specularStrength : F)
  (specularExponent : Z) (r : Renderer3D) : Renderer3D :=
  let r := setMaterialColor c r in
  let r := setMaterialAmbiantStrength ambiantStrength r in
  let r := setMaterialDiffuseStrength diffuseStrength r in
  let r := setMaterialSpecularStrength specularStrength r in
  setMaterialSpecularExponent specularExponent r.

(** *** Phong lightning *)

Definition _POWTABSIZE : Z := 16.

(** The assignment [tab[k] = v]. *)
Fixpoint list_set (tab : list F) (k : nat) (v : F) : list F :=
  match tab, k with
  | [], _ => []
  | _ :: tl, O => v :: tl
  | a :: tl, S k' => a :: list_set tl k' v
  end.

(** The read [tab[k]]. *)
Definition tab_get (tab : list F) (k : Z) : F := nth (Z.to_nat k) tab f0.

(** [for (int k = k0; k < k0 + n; k++) tab[k] = entry(k);] *)
Fixpoint fill_table (entry : Z -> F) (n : nat) (k : Z) (tab : list F)
  : list F :=
  match n with
  | O => tab
  | S n' => fill_table entry n' (k + 1) (list_set tab (Z.to_nat k) (entry k))
  end.

Definition _precomputeSpecularTable (exponent : Z) (r : Renderer3D)
  : Renderer3D :=
  if (_currentpow r =? exponent)%Z then r else
  let r := set_currentpow exponent r in
  let specularExponent := of_int exponent in
  let bbsp :=
    if specularExponent <? flit 8 then specularExponent else flit 8 in
  if (exponent >? 0)%Z then
    let r := set_powfact ((specularExponent * of_int _POWTABSIZE) / bbsp) r in
    set_fastpowtab
      (fill_table
         (fun k =>
            let v :=
              f1 - ((bbsp * of_int k) / (specularExponent * of_int _POWTABSIZE))
            in powf v specularExponent)
         (Z.to_nat _POWTABSIZE) 0 (_fastpowtab r)) r
  else
    let r := set_powfact (of_int 0) r in
    set_fastpowtab
      (fill_table (fun _ => f0) (Z.to_nat _POWTABSIZE) 0 (_fastpowtab r)) r.

Definition _powSpecular (r : Renderer3D) (x : F) : F :=
  let indf := (f1 - x) * _powfact r in
  let indi := to_int indf in
  if (indi >=? _POWTABSIZE - 1)%Z then f0
  else
    tab_get (_fastpowtab r) indi
    + (indf - of_int indi)
      * (tab_get (_fastpowtab r) (indi + 1) - tab_get (_fastpowtab r) indi).

Definition _phong (TEXTURE : bool) (r : Renderer3D) (v_diffuse v_specular : F)
  : RGBf :=
  let col := _r_ambiantColor r in
  let col := rgb_add col (rgb_scale (_r_diffuseColor r) (fmax v_diffuse f0)) in
  let col :=
    rgb_add col
      (rgb_scale (_r_specularColor r) (_powSpecular r (fmax v_specular f0))) in
  let col := if negb TEXTURE then rgb_mul col (_r_objectColor r) else col in
  rgb_clamp col.

(** *** Drawing a single triangle or quad *)

(** The C test [if (a & b)] on shader flags. *)
Definition has_flag (a b : Z) : bool := negb (Z.land a b =? 0)%Z.

(** The C update [a &= ~b]. *)
Definition clear_flag (a b : Z) : Z := Z.land a (Z.lnot b).

Definition rv_set_pos (v : fVec4) (V : RasterizerVec4) : RasterizerVec4 :=
  mkRasterizerVec4 v (color V) (texT V).
Definition rv_set_color (c : RGBf) (V : RasterizerVec4) : RasterizerVec4 :=
  mkRasterizerVec4 (pos V) c (texT V).
Definition rv_set_texT (t : fVec2) (V : RasterizerVec4) : RasterizerVec4 :=
  mkRasterizerVec4 (pos V) (color V) t.

(** A local [RasterizerVec4] before anything is written to it. *)
Definition uninit_RasterizerVec4 : RasterizerVec4 :=
  mkRasterizerVec4 (mkVec4 f0 f0 f0 f0) (mkRGBf f0 f0 f0) (mkVec2 f0 f0).

(** A null pointer is never read by the callers of the drawing routines;
    the model reads zero there. *)
Definition deref3 (p : option fVec3) : fVec3 :=
  match p with Some v => v | None => mkVec3 f0 f0 f0 end.
Definition deref2 (p : option fVec2) : fVec2 :=
  match p with Some v => v | None => mkVec2 f0 f0 end.

(** [static const float clipboundXY = (2048 / ((LX > LY) ? LX : LY));]
    an integer quotient, then converted. *)
Definition clipboundXY : F :=
  of_int (Z.quot 2048 (if (LX >? LY)%Z then LX else LY)).

(** The position part of [PC] receives [_projM * Q], followed by
    [if (ORTHO) { PC.w = 2.0f - PC.z; } else { PC.zdivide(); }] *)
Definition project (r : Renderer3D) (Q : fVec4) (PC : RasterizerVec4)
  : RasterizerVec4 :=
  let PC := rv_set_pos (mat_vec (_projM r) Q) PC in
  if ORTHO then
    rv_set_pos (mkVec4 (x4 (pos PC)) (y4 (pos PC)) (z4 (pos PC))
                    (flit 2 - z4 (pos PC))) PC
  else rv_set_pos (zdivide (pos PC)) PC.

(** The per-vertex clip test: behind the eye, outside the coordinate
    bound, or depth outside [-1,1]. *)
Definition needclip_vertex (Q : fVec4) (PC : RasterizerVec4) : bool :=
  (z4 Q >=? f0)
  || (x4 (pos PC) <? - clipboundXY) || (x4 (pos PC) >? clipboundXY)
  || (y4 (pos PC) <? - clipboundXY) || (y4 (pos PC) >? clipboundXY)
  || (z4 (pos PC) <? flit (-1)) || (z4 (pos PC) >? flit 1).

(** The signed culling test value of the view-space triangle. *)
Definition cull_value (faceN : fVec3) (Q0 : fVec4) : F :=
  if ORTHO then dotProduct faceN (mkVec3 (flit 0) (flit 0) (flit (-1)))
  else dotProduct faceN (vec3_of Q0).

(** The call [rasterizeTriangle<LX,LY,ZBUFFER,ORTHO>(type, V0, V1, V2, _ox,
    _oy, _uni)] on the image [_im]: the image and the depth buffer are
    written in place, and the call is recorded. *)
Definition rasterize (RASTER_TYPE : Z) (V0 V1 V2 : RasterizerVec4)
  (r : Renderer3D) : Renderer3D * list Submission :=
  let s := mkSubmission RASTER_TYPE V0 V1 V2 (_ox r) (_oy r) (_uni r) in
  match _im r with
  | Some im =>
      let '(px, zb) :=
        rasterizeTriangle RASTER_TYPE V0 V1 V2 (_ox r) (_oy r) (_uni r) im in
      let r := set_im (Some (mkImage (isValid im) (width im) (height im) px)) r in
      (set_uni (set_zbuf zb (_uni r)) r, [s])
  | None => (r, [s])
  end.

(** Gouraud color of one vertex. *)
Definition gouraud_color (TEXTURE : bool) (r : Renderer3D) (icu : F)
  (NN : fVec3) : RGBf :=
  _phong TEXTURE r (icu * dotProduct NN (_r_light_inorm r))
                   (icu * dotProduct NN (_r_H_inorm r)).

(** Flat color of a face, stored in [_uni.facecolor]. *)
Definition flat_shade (TEXTURE : bool) (cu : F) (faceN : fVec3)
  (r : Renderer3D) : Renderer3D :=
  let icu := if cu >? f0 then flit (-1) else flit 1 in
  let faceN := normalize faceN in
  set_uni
    (set_facecolor
       (_phong TEXTURE r (icu * dotProduct faceN (_r_light r))
                         (icu * dotProduct faceN (_r_H r)))
       (_uni r)) r.

Definition _drawTriangle (RASTER_TYPE : Z)
  (P0 P1 P2 : fVec3) (N0 N1 N2 : option fVec3) (T0 T1 T2 : option fVec2)
  (r : Renderer3D) : Renderer3D * list Submission :=
  (* compute position in view space *)
  let Q0 := mult1 (_r_modelViewM r) P0 in
  let Q1 := mult1 (_r_modelViewM r) P1 in
  let Q2 := mult1 (_r_modelViewM r) P2 in
  (* face culling *)
  let faceN := crossProduct (vec3_of (sub4 Q1 Q0)) (vec3_of (sub4 Q2 Q0)) in
  let cu := cull_value faceN Q0 in
  if cu * _culling_dir r >? f0 then (r, []) else
  (* test if clipping is needed *)
  let PC0 := project r Q0 uninit_RasterizerVec4 in
  let needclip := needclip_vertex Q0 PC0 in
  let PC1 := project r Q1 uninit_RasterizerVec4 in
  let needclip := needclip || needclip_vertex Q1 PC1 in
  let PC2 := project r Q2 uninit_RasterizerVec4 in
  let needclip := needclip || needclip_vertex Q2 PC2 in
  if needclip then (r, []) else
  (* compute phong lightning *)
  let TEXTURE := has_flag RASTER_TYPE SHADER_TEXTURE in
  let '(r, PC0, PC1, PC2) :=
    if has_flag RASTER_TYPE SHADER_GOURAUD then
      let NN0 := mult0 (_r_modelViewM r) (deref3 N0) in
      let NN1 := mult0 (_r_modelViewM r) (deref3 N1) in
      let NN2 := mult0 (_r_modelViewM r) (deref3 N2) in
      let icu :=
        if negb (_culling_dir r =? f0) then flit 1
        else if cu >? f0 then flit (-1) else flit 1 in
      (r, rv_set_color (gouraud_color TEXTURE r icu NN0) PC0,
          rv_set_color (gouraud_color TEXTURE r icu NN1) PC1,
          rv_set_color (gouraud_color TEXTURE r icu NN2) PC2)
    else (flat_shade TEXTURE cu faceN r, PC0, PC1, PC2) in
  let '(PC0, PC1, PC2) :=
    if TEXTURE then
      (rv_set_texT (deref2 T0) PC0, rv_set_texT (deref2 T1) PC1,
       rv_set_texT (deref2 T2) PC2)
    else (PC0, PC1, PC2) in
  (* go rasterize *)
  rasterize RASTER_TYPE PC0 PC1 PC2 r.

Definition _drawQuad (RASTER_TYPE : Z)
  (P0 P1 P2 P3 : fVec3) (N0 N1 N2 N3 : option fVec3)
  (T0 T1 T2 T3 : option fVec2)
  (r : Renderer3D) : Renderer3D * list Submission :=
  let Q0 := mult1 (_r_modelViewM r) P0 in
  let Q1 := mult1 (_r_modelViewM r) P1 in
  let Q2 := mult1 (_r_modelViewM r) P2 in
  (* face culling, on the triangle (0 1 2) *)
  let faceN := crossProduct (vec3_of (sub4 Q1 Q0)) (vec3_of (sub4 Q2 Q0)) in
  let cu := cull_value faceN Q0 in
  if cu * _culling_dir r >? f0 then (r, []) else
  let Q3 := mult1 (_r_modelViewM r) P3 in
  let PC0 := project r Q0 uninit_RasterizerVec4 in
  let needclip := needclip_vertex Q0 PC0 in
  let PC1 := project r Q1 uninit_RasterizerVec4 in
  let needclip := needclip || needclip_vertex Q1 PC1 in
  let PC2 := project r Q2 uninit_RasterizerVec4 in
  let needclip := needclip || needclip_vertex Q2 PC2 in
  let PC3 := project r Q3 uninit_RasterizerVec4 in
  let needclip := needclip || needclip_vertex Q3 PC3 in
  if needclip then (r, []) else
  let TEXTURE := has_flag RASTER_TYPE SHADER_TEXTURE in
  let '(r, PC0, PC1, PC2, PC3) :=
    if has_flag RASTER_TYPE SHADER_GOURAUD then
      let NN0 := mult0 (_r_modelViewM r) (deref3 N0) in
      let NN1 := mult0 (_r_modelViewM r) (deref3 N1) in
      let NN2 := mult0 (_r_modelViewM r) (deref3 N2) in
      let NN3 := mult0 (_r_modelViewM r) (deref3 N3) in
      let icu :=
        if negb (_culling_dir r =? f0) then flit 1
        else if cu >? f0 then flit (-1) else flit 1 in
      (r, rv_set_color (gouraud_color TEXTURE r icu NN0) PC0,
          rv_set_color (gouraud_color TEXTURE r icu NN1) PC1,
          rv_set_color (gouraud_color TEXTURE r icu NN2) PC2,
          rv_set_color (gouraud_color TEXTURE r icu NN3) PC3)
    else (flat_shade TEXTURE cu faceN r, PC0, PC1, PC2, PC3) in
  let '(PC0, PC1, PC2, PC3) :=
    if TEXTURE then
      (rv_set_texT (deref2 T0) PC0, rv_set_texT (deref2 T1) PC1,
       rv_set_texT (deref2 T2) PC2, rv_set_texT (deref2 T3) PC3)
    else (PC0, PC1, PC2, PC3) in
  let '(r, log1) := rasterize RASTER_TYPE PC0 PC1 PC2 r in
  let '(r, log2) := rasterize RASTER_TYPE PC0 PC2 PC3 r in
  (r, log1 ++ log2).

(** *** Clipping *)

(** Used by [_discard] for testing a point against the frustum planes;
    returns the updated flags [fl]. *)
Definition _clip (fl : Z) (P : fVec3) (M : fMat4) (bx Bx by_ By : F) : Z :=
  let Sp := mult1 M P in
  let Sp :=
    if negb ORTHO then
      let Sp := zdivide Sp in
      if w4 Sp <=? f0 then mkVec4 (x4 Sp) (y4 Sp) (flit (-2)) (w4 Sp) else Sp
    else Sp in
  let fl := if x4 Sp >=? bx then Z.land fl (Z.lnot 1) else fl in
  let fl := if x4 Sp <=? Bx then Z.land fl (Z.lnot 2) else fl in
  let fl := if y4 Sp >=? by_ then Z.land fl (Z.lnot 4) else fl in
  let fl := if y4 Sp <=? By then Z.land fl (Z.lnot 8) else fl in
  let fl := if z4 Sp >=? flit (-1) then Z.land fl (Z.lnot 16) else fl in
  let fl := if z4 Sp <=? flit 1 then Z.land fl (Z.lnot 32) else fl in
  fl.

(** [_im->width()] and [_im->height()]. *)
Definition im_width (r : Renderer3D) : Z :=
  match _im r with Some im => width im | None => 0 end.
Definition im_height (r : Renderer3D) : Z :=
  match _im r with Some im => height im | None => 0 end.

(** The eight corners of a box, in the order the source visits them. *)
Definition corners (xmin xmax ymin ymax zmin zmax : F) : list fVec3 :=
  [ mkVec3 xmin ymin zmin; mkVec3 xmin ymin zmax;
    mkVec3 xmin ymax zmin; mkVec3 xmin ymax zmax;
    mkVec3 xmax ymin zmin; mkVec3 xmax ymin zmax;
    mkVec3 xmax ymax zmin; mkVec3 xmax ymax zmax ].

(** [_clip(fl, corner, ...); if (fl == 0) return false;] over the corners,
    then [return true]. *)
Fixpoint _discard_corners (fl : Z) (cs : list fVec3) (M : fMat4)
  (bx Bx by_ By : F) : bool :=
  match cs with
  | [] => true
  | P :: cs' =>
      let fl := _clip fl P M bx Bx by_ By in
      if (fl =? 0)%Z then false else _discard_corners fl cs' M bx Bx by_ By
  end.

(** Test if a box is outside the image and should be discarded. *)
Definition _discard (r : Renderer3D) (xmin xmax ymin ymax zmin zmax : F)
  (M : fMat4) : bool :=
  if (xmin =? f0) && (xmax =? f0) && (ymin =? f0) && (ymax =? f0)
     && (zmin =? f0) && (zmax =? f0)
  then false (* do not discard if the bounding box is uninitialized *)
  else
    let ilx := flit 2 / of_int LX in
    let bx := of_int (_ox r - 1) * ilx - flit 1 in
    let Bx := of_int (_ox r + im_width r + 1) * ilx - flit 1 in
    let ily := flit 2 / of_int LY in
    let by_ := of_int (_oy r - 1) * ily - flit 1 in
    let By := of_int (_oy r + im_height r + 1) * ily - flit 1 in
    _discard_corners 63 (corners xmin xmax ymin ymax zmin zmax) M bx Bx by_ By.

(** Used by [_clipTestNeeded]. *)
Definition _clip2 (clipboundXY : F) (P : fVec3) (M : fMat4) : bool :=
  let Sp := mult1 M P in
  let Sp :=
    if negb ORTHO then
      let Sp := zdivide Sp in
      if w4 Sp <=? f0 then mkVec4 (x4 Sp) (y4 Sp) (flit (-2)) (w4 Sp) else Sp
    else Sp in
  (x4 Sp <=? - clipboundXY) || (x4 Sp >=? clipboundXY)
  || (y4 Sp <=? - clipboundXY) || (y4 Sp >=? clipboundXY)
  || (z4 Sp <=? flit (-1)) || (z4 Sp >=? flit 1).

(** Test if the mesh may possibly need clipping.  If it returns [false],
    the clip test can be skipped. *)
Definition _clipTestNeeded (clipboundXY : F)
  (xmin xmax ymin ymax zmin zmax : F) (M : fMat4) : bool :=
  _clip2 clipboundXY (mkVec3 xmin ymin zmin) M
  || _clip2 clipboundXY (mkVec3 xmin ymin zmax) M
  || _clip2 clipboundXY (mkVec3 xmin ymax zmin) M
  || _clip2 clipboundXY (mkVec3 xmin ymax zmax) M
  || _clip2 clipboundXY (mkVec3 xmax ymin zmin) M
  || _clip2 clipboundXY (mkVec3 xmax ymin zmax) M
  || _clip2 clipboundXY (mkVec3 xmax ymax zmin) M
  || _clip2 clipboundXY (mkVec3 xmax ymax zmax) M.

(** *** Meshes *)

Record fBox3 := mkBox3 {
  xmin : F; xmax : F; ymin : F; ymax : F; zmin : F; zmax : F
}.

(** Modelled from the spec: [Mesh3D<color_t>] (Mesh3D.h is not under src/),
    with the members the renderer reads.  A null array is [None].  The
    [next] link is not a field: a chain of meshes is the list of its
    meshes, and following [next] is taking the tail. *)
Record Mesh3D := mkMesh3D {
  vertice : option (list fVec3);
  texcoord : option (list fVec2);
  normal : option (list fVec3);
  face : list Z;
  texture : option Image;
  mesh_color : RGBf;
  ambiant_strength : F;
  diffuse_strength : F;
  specular_strength : F;
  specular_exponent : Z;
  bounding_box : fBox3
}.

(** Vector with additional attributes used by [_drawMesh]. *)
Record ExtVec4 := mkExtVec4 {
  rv : RasterizerVec4;   (* the [RasterizerVec4] base *)
  ext_P : fVec4;         (* after model-view matrix multiplication *)
  ext_N : fVec3;         (* normal vector after model-view multiplication *)
  missedP : bool;        (* true if the attributes should be computed *)
  indn : Z;              (* index for normal vector in array *)
  indt : Z               (* index for texture vector in array *)
}.

Definition set_rv (v : RasterizerVec4) (e : ExtVec4) : ExtVec4 :=
  mkExtVec4 v (ext_P e) (ext_N e) (missedP e) (indn e) (indt e).
Definition set_P (v : fVec4) (e : ExtVec4) : ExtVec4 :=
  mkExtVec4 (rv e) v (ext_N e) (missedP e) (indn e) (indt e).
Definition set_N (v : fVec3) (e : ExtVec4) : ExtVec4 :=
  mkExtVec4 (rv e) (ext_P e) v (missedP e) (indn e) (indt e).
Definition set_missedP (v : bool) (e : ExtVec4) : ExtVec4 :=
  mkExtVec4 (rv e) (ext_P e) (ext_N e) v (indn e) (indt e).
Definition set_indn (v : Z) (e : ExtVec4) : ExtVec4 :=
  mkExtVec4 (rv e) (ext_P e) (ext_N e) (missedP e) v (indt e).
Definition set_indt (v : Z) (e : ExtVec4) : ExtVec4 :=
  mkExtVec4 (rv e) (ext_P e) (ext_N e) (missedP e) (indn e) v.

Definition uninit_ExtVec4 : ExtVec4 :=
  mkExtVec4 uninit_RasterizerVec4 (mkVec4 f0 f0 f0 f0) (mkVec3 f0 f0 f0)
            false 0 0.

(** The three working vertices [QQA], [QQB], [QQC]; the pointers [PC0],
    [PC1], [PC2] of the source name one of them each. *)
Inductive Slot : Type := SlotA | SlotB | SlotC.

Record Slots := mkSlots { QQA : ExtVec4; QQB : ExtVec4; QQC : ExtVec4 }.

Definition get (s : Slots) (p : Slot) : ExtVec4 :=
  match p with SlotA => QQA s | SlotB => QQB s | SlotC => QQC s end.

Definition put (p : Slot) (v : ExtVec4) (s : Slots) : Slots :=
  match p with
  | SlotA => mkSlots v (QQB s) (QQC s)
  | SlotB => mkSlots (QQA s) v (QQC s)
  | SlotC => mkSlots (QQA s) (QQB s) v
  end.

(** [p->field = v] through one of the pointers. *)
Definition upd (p : Slot) (f : ExtVec4 -> ExtVec4) (s : Slots) : Slots :=
  put p (f (get s p)) s.

(** State of the walk over one mesh. *)
Record Walk := mkWalk {
  w_r : Renderer3D;
  w_slots : Slots;
  PC0 : Slot;
  PC1 : Slot;
  PC2 : Slot;
  w_face : list Z;               (* the cursor [face] *)
  w_log : list Submission
}.

Definition tab3 (tab : option (list fVec3)) (i : Z) : fVec3 :=
  match tab with
  | Some l => nth (Z.to_nat i) l (mkVec3 f0 f0 f0)
  | None => mkVec3 f0 f0 f0
  end.
Definition tab2 (tab : option (list fVec2)) (i : Z) : fVec2 :=
  match tab with
  | Some l => nth (Z.to_nat i) l (mkVec2 f0 f0)
  | None => mkVec2 f0 f0
  end.
Definition is_null {X : Type} (p : option X) : bool :=
  match p with Some _ => false | None => true end.

(** [if (TEXTURE) p->indt = *(face++); else { if (tab_tex) face++; }]
    [if (GOURAUD) p->indn = *(face++); else { if (tab_norm) face++; }] *)
Definition load_indices (TEXTURE GOURAUD : bool) (mesh : Mesh3D) (p : Slot)
  (sf : Slots * list Z) : Slots * list Z :=
  let '(s, face) := sf in
  let '(s, face) :=
    if TEXTURE then (upd p (set_indt (hd 0 face)) s, tl face)
    else if negb (is_null (texcoord mesh)) then (s, tl face) else (s, face) in
  if GOURAUD then (upd p (set_indn (hd 0 face)) s, tl face)
  else if negb (is_null (normal mesh)) then (s, tl face) else (s, face).

(** Projection of the vertex behind pointer [p]. *)
Definition project_slot (r : Renderer3D) (p : Slot) (s : Slots) : Slots :=
  upd p (fun e => set_rv (project r (ext_P e) (rv e)) e) s.

Definition needclip_slot (p : Slot) (s : Slots) : bool :=
  needclip_vertex (ext_P (get s p)) (rv (get s p)).

(** Gouraud attributes of the vertex behind pointer [p]. *)
Definition shade_slot (TEXTURE : bool) (r : Renderer3D) (mesh : Mesh3D)
  (icu : F) (p : Slot) (s : Slots) : Slots :=
  let s :=
    upd p (fun e =>
             set_N (mult0 (_r_modelViewM r) (tab3 (normal mesh) (indn e))) e)
        s in
  upd p (fun e =>
           set_rv (rv_set_color (gouraud_color TEXTURE r icu (ext_N e)) (rv e))
                  e) s.

Definition tex_slot (mesh : Mesh3D) (p : Slot) (s : Slots) : Slots :=
  upd p (fun e =>
           set_rv (rv_set_texT (tab2 (texcoord mesh) (indt e)) (rv e)) e) s.

(** The projection of the three vertices of the current triangle, with
    the clip test when [cliptestneeded] is set.  The vertex [PC2] is always
    projected, the other two if their attributes are missing.  Returns the
    slots and [needclip]. *)
Definition mesh_cliptest (cliptestneeded : bool) (r : Renderer3D)
  (pc0 pc1 pc2 : Slot) (s : Slots) : Slots * bool :=
  if cliptestneeded then
    (* test if clipping is needed *)
    let s := project_slot r pc2 s in
    let needclip := needclip_slot pc2 s in
    let '(s, needclip) :=
      if missedP (get s pc0) then
        let s := project_slot r pc0 s in
        (s, needclip || needclip_slot pc0 s)
      else (s, needclip) in
    if missedP (get s pc1) then
      let s := project_slot r pc1 s in
      (s, needclip || needclip_slot pc1 s)
    else (s, needclip)
  else
    (* skip the clipping test *)
    let s := project_slot r pc2 s in
    let s := if missedP (get s pc0) then project_slot r pc0 s else s in
    let s := if missedP (get s pc1) then project_slot r pc1 s else s in
    (s, false).

(** The shading of the current triangle: colors on the vertices whose
    attributes are missing (Gouraud) or on the face (flat), then the
    texture coordinates; all attributes are then up to date. *)
Definition mesh_shade (RASTER_TYPE : Z) (mesh : Mesh3D) (cu : F)
  (faceN : fVec3) (r : Renderer3D) (pc0 pc1 pc2 : Slot) (s : Slots)
  : Renderer3D * Slots :=
  let TEXTURE := has_flag RASTER_TYPE SHADER_TEXTURE in
  let GOURAUD := has_flag RASTER_TYPE SHADER_GOURAUD in
  let '(r, s) :=
    if GOURAUD then
      (* reverse normal only when culling is disabled *)
      let icu :=
        if negb (_culling_dir r =? f0) then flit 1
        else if cu >? f0 then flit (-1) else flit 1 in
      let s :=
        if missedP (get s pc0)
        then shade_slot TEXTURE r mesh icu pc0 s else s in
      let s :=
        if missedP (get s pc1)
        then shade_slot TEXTURE r mesh icu pc1 s else s in
      (r, shade_slot TEXTURE r mesh icu pc2 s)
    else (flat_shade TEXTURE cu faceN r, s) in
  let s :=
    if TEXTURE then
      let s := if missedP (get s pc0) then tex_slot mesh pc0 s else s in
      let s := if missedP (get s pc1) then tex_slot mesh pc1 s else s in
      tex_slot mesh pc2 s
    else s in
  (* attributes are now all up to date *)
  let s := upd pc0 (set_missedP false) s in
  let s := upd pc1 (set_missedP false) s in
  let s := upd pc2 (set_missedP false) s in
  (r, s).

(** One turn of the inner loop of [_drawMesh], from the culling test to
    the label [rasterize_next_triangle]. *)
Definition mesh_triangle (RASTER_TYPE : Z) (cliptestneeded : bool)
  (mesh : Mesh3D) (w : Walk) : Walk :=
  let r := w_r w in
  let s := w_slots w in
  let skip (s : Slots) :=
    mkWalk r s (PC0 w) (PC1 w) (PC2 w) (w_face w) (w_log w) in
  (* face culling *)
  let faceN :=
    crossProduct
      (vec3_of (sub4 (ext_P (get s (PC1 w))) (ext_P (get s (PC0 w)))))
      (vec3_of (sub4 (ext_P (get s (PC2 w))) (ext_P (get s (PC0 w))))) in
  let cu := cull_value faceN (ext_P (get s (PC0 w))) in
  if cu * _culling_dir r >? f0 then skip s else
  (* triangle is not culled *)
  let '(s, needclip) :=
    mesh_cliptest cliptestneeded r (PC0 w) (PC1 w) (PC2 w) s in
  (* we just drop the triangles that need clipping *)
  if needclip then skip s else
  (* the triangle must be rasterized *)
  let '(r, s) :=
    mesh_shade RASTER_TYPE mesh cu faceN r (PC0 w) (PC1 w) (PC2 w) s in
  (* go rasterize *)
  let '(r, log) :=
    rasterize RASTER_TYPE (rv (QQA s)) (rv (QQB s)) (rv (QQC s)) r in
  mkWalk r s (PC0 w) (PC1 w) (PC2 w) (w_face w) (w_log w ++ log).

(** The end of a turn, when the chain goes on: get the next triangle. *)
Definition mesh_next_vertex (RASTER_TYPE : Z) (mesh : Mesh3D) (w : Walk)
  : Walk :=
  let TEXTURE := has_flag RASTER_TYPE SHADER_TEXTURE in
  let GOURAUD := has_flag RASTER_TYPE SHADER_GOURAUD in
  let nv2 := hd 0 (w_face w) in
  let face := tl (w_face w) in
  (* swap(((nv2 & 32768) ? PC0 : PC1), PC2) *)
  let '(pc0, pc1, pc2) :=
    if negb (Z.land nv2 32768 =? 0)%Z then (PC2 w, PC1 w, PC0 w)
    else (PC0 w, PC2 w, PC1 w) in
  let '(s, face) := load_indices TEXTURE GOURAUD mesh pc2 (w_slots w, face) in
  let s :=
    upd pc2
      (set_P (mult1 (_r_modelViewM (w_r w))
                    (tab3 (vertice mesh) (Z.land nv2 32767)))) s in
  let s := upd pc2 (set_missedP true) s in
  mkWalk (w_r w) s pc0 pc1 pc2 face (w_log w).

(** The inner [while (1)] loop: [n] more triangles follow the current one. *)
Fixpoint mesh_chain (RASTER_TYPE : Z) (cliptestneeded : bool) (mesh : Mesh3D)
  (n : nat) (w : Walk) : Walk :=
  let w := mesh_triangle RASTER_TYPE cliptestneeded mesh w in
  match n with
  | O => w
  | S n' =>
      mesh_chain RASTER_TYPE cliptestneeded mesh n'
                 (mesh_next_vertex RASTER_TYPE mesh w)
  end.

(** The start of a chain: load the first triangle. *)
Definition mesh_first_triangle (RASTER_TYPE : Z) (mesh : Mesh3D) (w : Walk)
  : Walk :=
  let TEXTURE := has_flag RASTER_TYPE SHADER_TEXTURE in
  let GOURAUD := has_flag RASTER_TYPE SHADER_GOURAUD in
  let s := w_slots w in
  let face := w_face w in
  let v0 := hd 0 face in
  let '(s, face) := load_indices TEXTURE GOURAUD mesh (PC0 w) (s, tl face) in
  let v1 := hd 0 face in
  let '(s, face) := load_indices TEXTURE GOURAUD mesh (PC1 w) (s, tl face) in
  let v2 := hd 0 face in
  let '(s, face) := load_indices TEXTURE GOURAUD mesh (PC2 w) (s, tl face) in
  let MV := _r_modelViewM (w_r w) in
  let s := upd (PC2 w) (set_P (mult1 MV (tab3 (vertice mesh) v2))) s in
  let s := upd (PC0 w) (set_P (mult1 MV (tab3 (vertice mesh) v0))) s in
  let s := upd (PC1 w) (set_P (mult1 MV (tab3 (vertice mesh) v1))) s in
  let s := upd (PC0 w) (set_missedP true) s in
  let s := upd (PC1 w) (set_missedP true) s in
  let s := upd (PC2 w) (set_missedP true) s in
  mkWalk (w_r w) s (PC0 w) (PC1 w) (PC2 w) face (w_log w).

(** The outer loop [while ((nbt = *(face++)) > 0)].  Every turn reads at
    least one entry of the face array, and the end of the array reads as
    the terminating 0, so [fuel] above the length of the array is never
    exhausted. *)
Fixpoint mesh_faces (RASTER_TYPE : Z) (cliptestneeded : bool) (mesh : Mesh3D)
  (fuel : nat) (w : Walk) : Walk :=
  match fuel with
  | O => w
  | S fuel' =>
      let nbt := hd 0 (w_face w) in
      let w :=
        mkWalk (w_r w) (w_slots w) (PC0 w) (PC1 w) (PC2 w) (tl (w_face w))
               (w_log w) in
      if (nbt >? 0)%Z then
        let w := mesh_first_triangle RASTER_TYPE mesh w in
        let w :=
          mesh_chain RASTER_TYPE cliptestneeded mesh (Z.to_nat (nbt - 1)) w in
        mesh_faces RASTER_TYPE cliptestneeded mesh fuel' w
      else w
  end.

(** The walk of [_drawMesh], once the bounding box tests are done. *)
Definition mesh_walk (RASTER_TYPE : Z) (cliptestneeded : bool)
  (mesh : Mesh3D) (r : Renderer3D) : Renderer3D * list Submission :=
  (* set the texture *)
  let r := set_uni (set_tex (texture mesh) (_uni r)) r in
  let w :=
    mkWalk r (mkSlots uninit_ExtVec4 uninit_ExtVec4 uninit_ExtVec4)
           SlotA SlotB SlotC (face mesh) [] in
  let w :=
    mesh_faces RASTER_TYPE cliptestneeded mesh (S (length (face mesh))) w in
  (w_r w, w_log w).

(** Method called by [drawMesh] which does the actual drawing. *)
Definition _drawMesh (RASTER_TYPE : Z) (mesh : Mesh3D) (r : Renderer3D)
  : Renderer3D * list Submission :=
  let bb := bounding_box mesh in
  let M := mat_mul (_projM r) (_r_modelViewM r) in
  (* check if the object is completely outside of the image *)
  if _discard r (xmin bb) (xmax bb) (ymin bb) (ymax bb) (zmin bb) (zmax bb) M
  then (r, []) else
  (* check if the clipping test should be performed for each triangle *)
  let cliptestneeded :=
    _clipTestNeeded clipboundXY (xmin bb) (xmax bb) (ymin bb) (ymax bb)
                    (zmin bb) (zmax bb) M in
  mesh_walk RASTER_TYPE cliptestneeded mesh r.

(** *** Draw entry points *)

(** [(_im == nullptr) || (!_im->isValid())] *)
Definition no_valid_image (r : Renderer3D) : bool :=
  match _im r with
  | None => true
  | Some im => negb (isValid im)
  end.

(** [(ZBUFFER) && ((_uni.zbuf == nullptr) || (_zbuffer_len < LX * LY))] *)
Definition no_valid_zbuffer (r : Renderer3D) : bool :=
  ZBUFFER && (is_null (zbuf (_uni r)) || (_zbuffer_len r <? LX * LY)%Z).

(** The result of a draw method: status, renderer, rasterizer calls. *)
Definition DrawResult : Type := Z * Renderer3D * list Submission.

Definition drawTriangle (shader : Z) (P1 P2 P3 : fVec3) (r : Renderer3D)
  : DrawResult :=
  if no_valid_image r then (-1, r, []) else
  if no_valid_zbuffer r then (-2, r, []) else
  let r := _precomputeSpecularTable (_specularExponent r) r in
  let '(r, log) :=
    _drawTriangle SHADER_FLAT P1 P2 P3 None None None None None None r in
  (0, r, log).

Definition drawTriangle_N (shader : Z) (P1 P2 P3 : fVec3) (N1 N2 N3 : fVec3)
  (r : Renderer3D) : DrawResult :=
  if no_valid_image r then (-1, r, []) else
  if no_valid_zbuffer r then (-2, r, []) else
  let r := _precomputeSpecularTable (_specularExponent r) r in
  let shader := clear_flag shader SHADER_TEXTURE in
  let '(r, log) :=
    _drawTriangle shader P1 P2 P3 (Some N1) (Some N2) (Some N3)
                  None None None r in
  (0, r, log).

Definition drawTriangle_T (shader : Z) (P1 P2 P3 : fVec3) (T1 T2 T3 : fVec2)
  (texture : option Image) (r : Renderer3D) : DrawResult :=
  if no_valid_image r then (-1, r, []) else
  if no_valid_zbuffer r then (-2, r, []) else
  let r := _precomputeSpecularTable (_specularExponent r) r in
  let shader := clear_flag shader SHADER_GOURAUD in
  if has_flag shader SHADER_TEXTURE && is_null texture then (-3, r, []) else
  let r :=
    if has_flag shader SHADER_TEXTURE
    then set_uni (set_tex texture (_uni r)) r else r in
  let '(r, log) :=
    _drawTriangle shader P1 P2 P3 None None None
                  (Some T1) (Some T2) (Some T3) r in
  (0, r, log).

Definition drawTriangle_NT (shader : Z) (P1 P2 P3 : fVec3) (N1 N2 N3 : fVec3)
  (T1 T2 T3 : fVec2) (texture : option Image) (r : Renderer3D)
  : DrawResult :=
  if no_valid_image r then (-1, r, []) else
  if no_valid_zbuffer r then (-2, r, []) else
  let r := _precomputeSpecularTable (_specularExponent r) r in
  if has_flag shader SHADER_TEXTURE && is_null texture then (-3, r, []) else
  let r :=
    if has_flag shader SHADER_TEXTURE
    then set_uni (set_tex texture (_uni r)) r else r in
  let '(r, log) :=
    _drawTriangle shader P1 P2 P3 (Some N1) (Some N2) (Some N3)
                  (Some T1) (Some T2) (Some T3) r in
  (0, r, log).

Definition drawQuad (shader : Z) (P1 P2 P3 P4 : fVec3) (r : Renderer3D)
  : DrawResult :=
  if no_valid_image r then (-1, r, []) else
  if no_valid_zbuffer r then (-2, r, []) else
  let r := _precomputeSpecularTable (_specularExponent r) r in
  let '(r, log) :=
    _drawQuad shader P1 P2 P3 P4 None None None None None None None None r in
  (0, r, log).

Definition drawQuad_N (shader : Z) (P1 P2 P3 P4 : fVec3)
  (N1 N2 N3 N4 : fVec3) (r : Renderer3D) : DrawResult :=
  if no_valid_image r then (-1, r, []) else
  if no_valid_zbuffer r then (-2, r, []) else
  let r := _precomputeSpecularTable (_specularExponent r) r in
  let shader := clear_flag shader SHADER_TEXTURE in
  let '(r, log) :=
    _drawQuad shader P1 P2 P3 P4 (Some N1) (Some N2) (Some N3) (Some N4)
              None None None None r in
  (0, r, log).

Definition drawQuad_T (shader : Z) (P1 P2 P3 P4 : fVec3)
  (T1 T2 T3 T4 : fVec2) (texture : option Image) (r : Renderer3D)
  : DrawResult :=
  if no_valid_image r then (-1, r, []) else
  if no_valid_zbuffer r then (-2, r, []) else
  let r := _precomputeSpecularTable (_specularExponent r) r in
  let shader := clear_flag shader SHADER_GOURAUD in
  if has_flag shader SHADER_TEXTURE && is_null texture then (-3, r, []) else
  let r :=
    if has_flag shader SHADER_TEXTURE
    then set_uni (set_tex texture (_uni r)) r else r in
  let '(r, log) :=
    _drawQuad shader P1 P2 P3 P4 None None None None
              (Some T1) (Some T2) (Some T3) (Some T4) r in
  (0, r, log).

Definition drawQuad_NT (shader : Z) (P1 P2 P3 P4 : fVec3)
  (N1 N2 N3 N4 : fVec3) (T1 T2 T3 T4 : fVec2) (texture : option Image)
  (r : Renderer3D) : DrawResult :=
  if no_valid_image r then (-1, r, []) else
  if no_valid_zbuffer r then (-2, r, []) else
  let r := _precomputeSpecularTable (_specularExponent r) r in
  if has_flag shader SHADER_TEXTURE && is_null texture then (-3, r, []) else
  let r :=
    if has_flag shader SHADER_TEXTURE
    then set_uni (set_tex texture (_uni r)) r else r in
  let '(r, log) :=
    _drawQuad shader P1 P2 P3 P4 (Some N1) (Some N2) (Some N3) (Some N4)
              (Some T1) (Some T2) (Some T3) (Some T4) r in
  (0, r, log).

(** [tab + ind[n]]: a pointer into an array, through an index array. *)
Definition at3 (tab : option (list fVec3)) (ind : option (list Z)) (n : Z)
  : fVec3 :=
  tab3 tab (match ind with Some l => nth (Z.to_nat n) l 0 | None => 0 end).
Definition at2 (tab : option (list fVec2)) (ind : option (list Z)) (n : Z)
  : fVec2 :=
  tab2 tab (match ind with Some l => nth (Z.to_nat n) l 0 | None => 0 end).

(** [for (int n = n0; n < n0 + 3 * count; n += 3) _drawTriangle(...)], with
    the normals and texture coordinates passed or null as [gouraud] and
    [texturing] say. *)
Fixpoint drawTriangles_loop (shader : Z) (gouraud texturing : bool)
  (ind_vertices : option (list Z)) (vertices : option (list fVec3))
  (ind_normals : option (list Z)) (normals : option (list fVec3))
  (ind_texture : option (list Z)) (textures : option (list fVec2))
  (count : nat) (n : Z) (r : Renderer3D) : Renderer3D * list Submission :=
  match count with
  | O => (r, [])
  | S count' =>
      let nrm k := if gouraud then Some (at3 normals ind_normals k) else None in
      let txt k :=
        if texturing then Some (at2 textures ind_texture k) else None in
      let '(r, log1) :=
        _drawTriangle shader
          (at3 vertices ind_vertices n) (at3 vertices ind_vertices (n + 1))
          (at3 vertices ind_vertices (n + 2))
          (nrm n) (nrm (n + 1)%Z) (nrm (n + 2)%Z)
          (txt n) (txt (n + 1)%Z) (txt (n + 2)%Z) r in
      let '(r, log2) :=
        drawTriangles_loop shader gouraud texturing ind_vertices vertices
          ind_normals normals ind_texture textures count' (n + 3) r in
      (r, log1 ++ log2)
  end.

Definition drawTriangles (shader : Z) (nb_triangles : Z)
  (ind_vertices : option (list Z)) (vertices : option (list fVec3))
  (ind_normals : option (list Z)) (normals : option (list fVec3))
  (ind_texture : option (list Z)) (textures : option (list fVec2))
  (texture_image : option Image) (r : Renderer3D) : DrawResult :=
  if no_valid_image r then (-1, r, []) else
  if no_valid_zbuffer r then (-2, r, []) else
  if is_null ind_vertices || is_null vertices then (-3, r, []) else
  let shader :=
    if is_null ind_normals || is_null normals
    then clear_flag shader SHADER_GOURAUD else shader in
  let shader :=
    if is_null ind_texture || is_null textures || is_null texture_image
    then clear_flag shader SHADER_TEXTURE else shader in
  let r := _precomputeSpecularTable (_specularExponent r) r in
  let r :=
    if has_flag shader SHADER_TEXTURE
    then set_uni (set_tex texture_image (_uni r)) r else r in
  let '(r, log) :=
    drawTriangles_loop shader (has_flag shader SHADER_GOURAUD)
      (has_flag shader SHADER_TEXTURE) ind_vertices vertices
      ind_normals normals ind_texture textures (Z.to_nat nb_triangles) 0 r in
  (0, r, log).

Fixpoint drawQuads_loop (shader : Z) (gouraud texturing : bool)
  (ind_vertices : option (list Z)) (vertices : option (list fVec3))
  (ind_normals : option (list Z)) (normals : option (list fVec3))
  (ind_texture : option (list Z)) (textures : option (list fVec2))
  (count : nat) (n : Z) (r : Renderer3D) : Renderer3D * list Submission :=
  match count with
  | O => (r, [])
  | S count' =>
      let nrm k := if gouraud then Some (at3 normals ind_normals k) else None in
      let txt k :=
        if texturing then Some (at2 textures ind_texture k) else None in
      let '(r, log1) :=
        _drawQuad shader
          (at3 vertices ind_vertices n) (at3 vertices ind_vertices (n + 1))
          (at3 vertices ind_vertices (n + 2))
          (at3 vertices ind_vertices (n + 3))
          (nrm n) (nrm (n + 1)%Z) (nrm (n + 2)%Z) (nrm (n + 3)%Z)
          (txt n) (txt (n + 1)%Z) (txt (n + 2)%Z) (txt (n + 3)%Z) r in
      let '(r, log2) :=
        drawQuads_loop shader gouraud texturing ind_vertices vertices
          ind_normals normals ind_texture textures count' (n + 4) r in
      (r, log1 ++ log2)
  end.

Definition drawQuads (shader : Z) (nb_quads : Z)
  (ind_vertices : option (list Z)) (vertices : option (list fVec3))
  (ind_normals : option (list Z)) (normals : option (list fVec3))
  (ind_texture : option (list Z)) (textures : option (list fVec2))
  (texture_image : option Image) (r : Renderer3D) : DrawResult :=
  if no_valid_image r then (-1, r, []) else
  if no_valid_zbuffer r then (-2, r, []) else
  if is_null ind_vertices || is_null vertices then (-3, r, []) else
  let shader :=
    if is_null ind_normals || is_null normals
    then clear_flag shader SHADER_GOURAUD else shader in
  let shader :=
    if is_null ind_texture || is_null textures || is_null texture_image
    then clear_flag shader SHADER_TEXTURE else shader in
  let r := _precomputeSpecularTable (_specularExponent r) r in
  let r :=
    if has_flag shader SHADER_TEXTURE
    then set_uni (set_tex texture_image (_uni r)) r else r in
  let '(r, log) :=
    drawQuads_loop shader (has_flag shader SHADER_GOURAUD)
      (has_flag shader SHADER_TEXTURE) ind_vertices vertices
      ind_normals normals ind_texture textures (Z.to_nat nb_quads) 0 r in
  (0, r, log).

(** *** Drawing a chain of meshes *)

(** One call of [_drawMesh]: its template argument, the mesh, the renderer
    on entry, and the rasterizer calls it made. *)
Record MeshCall := mkMeshCall {
  mc_raster_type : Z;
  mc_mesh : Mesh3D;
  mc_entry : Renderer3D;
  mc_log : list Submission
}.

(** Use the mesh material: the four assignments of [drawMesh]. *)
Definition use_material (mesh : Mesh3D) (r : Renderer3D) : Renderer3D :=
  let r :=
    set_r_ambiantColor (rgb_scale (_ambiantColor r) (ambiant_strength mesh)) r in
  let r :=
    set_r_diffuseColor (rgb_scale (_diffuseColor r) (diffuse_strength mesh)) r in
  let r :=
    set_r_specularColor
      (rgb_scale (_specularColor r) (specular_strength mesh)) r in
  set_r_objectColor (mesh_color mesh) r.

(** Restore material pre-computed values. *)
Definition restore_material (r : Renderer3D) : Renderer3D :=
  let r :=
    set_r_ambiantColor (rgb_scale (_ambiantColor r) (_ambiantStrength r)) r in
  let r :=
    set_r_diffuseColor (rgb_scale (_diffuseColor r) (_diffuseStrength r)) r in
  let r :=
    set_r_specularColor
      (rgb_scale (_specularColor r) (_specularStrength r)) r in
  set_r_objectColor (_color r) r.

(** The shading of one mesh: the flags of [shader] that the mesh can
    honour, as the template argument of the instance of [_drawMesh] that
    [drawMesh] calls. *)
Definition mesh_raster_type (shader : Z) (mesh : Mesh3D) : Z :=
  let raster_type := shader in
  (* gouraud shading not available so we disable it *)
  let raster_type :=
    if is_null (normal mesh)
    then clear_flag raster_type SHADER_GOURAUD else raster_type in
  (* texturing not available so we disable it *)
  let raster_type :=
    if is_null (texcoord mesh) || is_null (texture mesh)
    then clear_flag raster_type SHADER_TEXTURE else raster_type in
  if has_flag raster_type SHADER_GOURAUD then
    if has_flag raster_type SHADER_TEXTURE
    then Z.lor SHADER_GOURAUD SHADER_TEXTURE
    else SHADER_GOURAUD
  else
    if has_flag raster_type SHADER_TEXTURE
    then Z.lor SHADER_FLAT SHADER_TEXTURE
    else SHADER_FLAT.

(** The body of the loop of [drawMesh], for the mesh [mesh]. *)
Definition drawMesh_body (shader : Z) (use_mesh_material : bool)
  (mesh : Mesh3D) (r : Renderer3D) : Renderer3D * list MeshCall :=
  if negb (is_null (vertice mesh)) then
    (* use mesh material if requested *)
    let r := if use_mesh_material then use_material mesh r else r in
    (* precompute pow(.,specularExponent) table if needed *)
    let specularExpo :=
      if use_mesh_material then specular_exponent mesh
      else _specularExponent r in
    let r := _precomputeSpecularTable specularExpo r in
    let RASTER_TYPE := mesh_raster_type shader mesh in
    let '(r', log) := _drawMesh RASTER_TYPE mesh r in
    (r', [mkMeshCall RASTER_TYPE mesh r log])
  else (r, []).

(** [while (mesh) { ...; mesh = draw_chained_meshes ? mesh->next : nullptr; }]
    over the chain that starts at [mesh]. *)
Fixpoint drawMesh_loop (shader : Z)
  (use_mesh_material draw_chained_meshes : bool)
  (mesh : list Mesh3D) (r : Renderer3D) : Renderer3D * list MeshCall :=
  match mesh with
  | [] => (r, [])
  | m :: next =>
      let '(r, calls1) := drawMesh_body shader use_mesh_material m r in
      let '(r, calls2) :=
        if draw_chained_meshes
        then drawMesh_loop shader use_mesh_material draw_chained_meshes next r
        else (r, []) in
      (r, calls1 ++ calls2)
  end.

(** [drawMesh], with the calls of [_drawMesh] it made. *)
Definition drawMesh_calls (shader : Z) (mesh : list Mesh3D)
  (use_mesh_material draw_chained_meshes : bool) (r : Renderer3D)
  : Z * Renderer3D * list MeshCall :=
  if no_valid_image r then (-1, r, []) else
  if no_valid_zbuffer r then (-2, r, []) else
  let '(r, calls) :=
    drawMesh_loop shader use_mesh_material draw_chained_meshes mesh r in
  let r := if use_mesh_material then restore_material r else r in
  (0, r, calls).

Definition drawMesh (shader : Z) (mesh : list Mesh3D)
  (use_mesh_material draw_chained_meshes : bool) (r : Renderer3D)
  : DrawResult :=
  let '(status, r, calls) :=
    drawMesh_calls shader mesh use_mesh_material draw_chained_meshes r in
  (status, r, flat_map mc_log calls).

(** *** Constructor *)

(** The constructor runs on the uninitialized object [g]: the member
    initializers first, then the body. *)
Definition Renderer3D_new (g : Renderer3D) : Renderer3D :=
  let r := set_currentpow (-1) g in
  let r := set_ox 0 r in
  let r := set_oy 0 r in
  let r := set_im None r in
  let r := set_zbuffer_len 0 r in
  let r :=
    set_uni (mkRasterizerParams None (mkRGBf (flit 1) (flit 1) (flit 1)) None)
            r in
  let r := set_culling_dir (of_int 1) r in
  let M :=
    if ORTHO
    then Mat4_setOrtho (flit (-16)) (flit 16) (flit (-12)) (flit 12)
                       (flit 1) (flit 1000)
    else Mat4_setPerspective (flit 45) (flit 1.5) (flit 1) (flit 1000) in
  let r := setProjectionMatrix M r in
  let r :=
    setLookAt_vec (mkVec3 f0 f0 f0) (mkVec3 f0 f0 (of_int (-1)))
                  (mkVec3 f0 f1 f0) r in
  let r :=
    setLight (mkVec3 (flit (-1)) (flit (-1)) (flit (-1)))
             (mkRGBf (flit 1) (flit 1) (flit 1))
             (mkRGBf (flit 1) (flit 1) (flit 1))
             (mkRGBf (flit 1) (flit 1) (flit 1)) r in
  let M := setIdentity in
  let r := setModelMatrix M r in
  let r :=
    setMaterial (mkRGBf (flit 0.75) (flit 0.75) (flit 0.75))
                (flit 0.15) (flit 0.7) (flit 0.5) 16 r in
  _precomputeSpecularTable 16 r.

(** *** The public interface as operations *)

Inductive DrawCall : Type :=
| DrawMesh (shader : Z) (mesh : list Mesh3D)
    (use_mesh_material draw_chained_meshes : bool)
| DrawTriangle (shader : Z) (P1 P2 P3 : fVec3)
| DrawTriangle_N (shader : Z) (P1 P2 P3 N1 N2 N3 : fVec3)
| DrawTriangle_T (shader : Z) (P1 P2 P3 : fVec3) (T1 T2 T3 : fVec2)
    (texture : option Image)
| DrawTriangle_NT (shader : Z) (P1 P2 P3 N1 N2 N3 : fVec3)
    (T1 T2 T3 : fVec2) (texture : option Image)
| DrawTriangles (shader nb_triangles : Z)
    (ind_vertices : option (list Z)) (vertices : option (list fVec3))
    (ind_normals : option (list Z)) (normals : option (list fVec3))
    (ind_texture : option (list Z)) (textures : option (list fVec2))
    (texture_image : option Image)
| DrawQuad (shader : Z) (P1 P2 P3 P4 : fVec3)
| DrawQuad_N (shader : Z) (P1 P2 P3 P4 N1 N2 N3 N4 : fVec3)
| DrawQuad_T (shader : Z) (P1 P2 P3 P4 : fVec3) (T1 T2 T3 T4 : fVec2)
    (texture : option Image)
| DrawQuad_NT (shader : Z) (P1 P2 P3 P4 N1 N2 N3 N4 : fVec3)
    (T1 T2 T3 T4 : fVec2) (texture : option Image)
| DrawQuads (shader nb_quads : Z)
    (ind_vertices : option (list Z)) (vertices : option (list fVec3))
    (ind_normals : option (list Z)) (normals : option (list fVec3))
    (ind_texture : option (list Z)) (textures : option (list fVec2))
    (texture_image : option Image).

Definition draw (c : DrawCall) (r : Renderer3D) : DrawResult :=
  match c with
  | DrawMesh shader mesh umm dcm => drawMesh shader mesh umm dcm r
  | DrawTriangle shader P1 P2 P3 => drawTriangle shader P1 P2 P3 r
  | DrawTriangle_N shader P1 P2 P3 N1 N2 N3 =>
      drawTriangle_N shader P1 P2 P3 N1 N2 N3 r
  | DrawTriangle_T shader P1 P2 P3 T1 T2 T3 texture =>
      drawTriangle_T shader P1 P2 P3 T1 T2 T3 texture r
  | DrawTriangle_NT shader P1 P2 P3 N1 N2 N3 T1 T2 T3 texture =>
      drawTriangle_NT shader P1 P2 P3 N1 N2 N3 T1 T2 T3 texture r
  | DrawTriangles shader nb iv v inn n it t ti =>
      drawTriangles shader nb iv v inn n it t ti r
  | DrawQuad shader P1 P2 P3 P4 => drawQuad shader P1 P2 P3 P4 r
  | DrawQuad_N shader P1 P2 P3 P4 N1 N2 N3 N4 =>
      drawQuad_N shader P1 P2 P3 P4 N1 N2 N3 N4 r
  | DrawQuad_T shader P1 P2 P3 P4 T1 T2 T3 T4 texture =>
      drawQuad_T shader P1 P2 P3 P4 T1 T2 T3 T4 texture r
  | DrawQuad_NT shader P1 P2 P3 P4 N1 N2 N3 N4 T1 T2 T3 T4 texture =>
      drawQuad_NT shader P1 P2 P3 P4 N1 N2 N3 N4 T1 T2 T3 T4 texture r
  | DrawQuads shader nb iv v inn n it t ti =>
      drawQuads shader nb iv v inn n it t ti r
  end.

(** The single-primitive calls that take a texture image: texturing is
    requested by the shader flag and the image pointer is null. *)
Definition texture_missing (c : DrawCall) : bool :=
  match c with
  | DrawTriangle_T shader _ _ _ _ _ _ texture
  | DrawTriangle_NT shader _ _ _ _ _ _ _ _ _ texture
  | DrawQuad_T shader _ _ _ _ _ _ _ _ texture
  | DrawQuad_NT shader _ _ _ _ _ _ _ _ _ _ _ _ texture =>
      has_flag shader SHADER_TEXTURE && is_null texture
  | _ => false
  end.

(** The state-changing public methods. *)
Inductive Op : Type :=
| OpSetImage (im : option Image)
| OpSetOffset (ox oy : Z)
| OpSetOffset_vec (offset : iVec2)
| OpSetProjectionMatrix (M : fMat4)
| OpSetOrtho (left right bottom top zNear zFar : F)
| OpSetFrustum (left right bottom top zNear zFar : F)
| OpSetPerspective (fovy aspect zNear zFar : F)
| OpSetCulling (w : Z)
| OpSetZbuffer (zbuffer : option (list F)) (length : Z)
| OpClearZbuffer
| OpSetViewMatrix (M : fMat4)
| OpSetLookAt (eyeX eyeY eyeZ centerX centerY centerZ upX upY upZ : F)
| OpSetLookAt_vec (eye center up : fVec3)
| OpSetLightDirection (direction : fVec3)
| OpSetLightAmbiant (c : RGBf)
| OpSetLightDiffuse (c : RGBf)
| OpSetLightSpecular (c : RGBf)
| OpSetLight (direction : fVec3) (ambiant diffuse specular : RGBf)
| OpSetModelMatrix (M : fMat4)
| OpSetMaterialColor (c : RGBf)
| OpSetMaterialAmbiantStrength (strenght : F)
| OpSetMaterialDiffuseStrength (strenght : F)
| OpSetMaterialSpecularStrength (strenght : F)
| OpSetMaterialSpecularExponent (exponent : Z)
| OpSetMaterial (c : RGBf) (ambiant diffuse specular : F) (exponent : Z)
| OpDraw (c : DrawCall).

(** The methods guarded by a [static_assert] on a template parameter. *)
Definition available (o : Op) : bool :=
  match o with
  | OpSetOrtho _ _ _ _ _ _ => ORTHO
  | OpSetFrustum _ _ _ _ _ _ | OpSetPerspective _ _ _ _ => negb ORTHO
  | OpSetZbuffer _ _ | OpClearZbuffer => ZBUFFER
  | _ => true
  end.

Definition step (o : Op) (r : Renderer3D) : Renderer3D :=
  match o with
  | OpSetImage im => setImage im r
  | OpSetOffset ox oy => setOffset ox oy r
  | OpSetOffset_vec offset => setOffset_vec offset r
  | OpSetProjectionMatrix M => setProjectionMatrix M r
  | OpSetOrtho a b c d e f => setOrtho a b c d e f r
  | OpSetFrustum a b c d e f => setFrustum a b c d e f r
  | OpSetPerspective a b c d => setPerspective a b c d r
  | OpSetCulling w => setCulling w r
  | OpSetZbuffer zb len => setZbuffer zb len r
  | OpClearZbuffer => clearZbuffer r
  | OpSetViewMatrix M => setViewMatrix M r
  | OpSetLookAt a b c d e f g h i => setLookAt a b c d e f g h i r
  | OpSetLookAt_vec eye center up => setLookAt_vec eye center up r
  | OpSetLightDirection d => setLightDirection d r
  | OpSetLightAmbiant c => setLightAmbiant c r
  | OpSetLightDiffuse c => setLightDiffuse c r
  | OpSetLightSpecular c => setLightSpecular c r
  | OpSetLight d a b c => setLight d a b c r
  | OpSetModelMatrix M => setModelMatrix M r
  | OpSetMaterialColor c => setMaterialColor c r
  | OpSetMaterialAmbiantStrength s => setMaterialAmbiantStrength s r
  | OpSetMaterialDiffuseStrength s => setMaterialDiffuseStrength s r
  | OpSetMaterialSpecularStrength s => setMaterialSpecularStrength s r
  | OpSetMaterialSpecularExponent e => setMaterialSpecularExponent e r
  | OpSetMaterial c a b d e => setMaterial c a b d e r
  | OpDraw c => snd (fst (draw c r))
  end.

(** A program: a sequence of method calls, run from left to right. *)
Definition run (ops : list Op) (r : Renderer3D) : Renderer3D :=
  fold_left (fun r o => step o r) ops r.

(** The states a program can reach from a freshly constructed renderer
    (whose power table is the 16-entry array of the class). *)
Definition reachable (r : Renderer3D) : Prop :=
  exists (g : Renderer3D) (ops : list Op),
    length (_fastpowtab g) = 16%nat
    /\ forallb available ops = true
    /\ r = run ops (Renderer3D_new g).

End Renderer.

(** ** Instances of the arithmetic interface *)

(** *** Exact rational arithmetic *)

Definition Qltb (x y : Q) : bool := negb (Qle_bool y x).

(** Truncation toward zero. *)
Definition Qtrunc (x : Q) : Z := Z.quot (Qnum x) (Zpos (Qden x)).

(** Square root, exact on the squares of rationals and rounded down on a
    grid of step 2^-32 elsewhere. *)
Definition Qsqrt (x : Q) : Q :=
  Qred (Z.sqrt (Qnum x * Zpos (Qden x) * 2 ^ 64) # (Qden x * 2 ^ 32)).

(** [powf] at an integral exponent, which is how the renderer calls it. *)
Definition Qpowf (x y : Q) : Q := Qred (Qpower x (Qtrunc y)).

Definition Qdiv' (x y : Q) : Q := Qred (x / y).

(** The results are kept in lowest terms. *)
Definition ExactQ : Arith := {|
  F := Q;
  flit := fun q => q;
  of_int := inject_Z;
  to_int := Qtrunc;
  fadd := Qplus';
  fsub := Qminus';
  fmul := Qmult';
  fdiv := Qdiv';
  fopp := Qopp;
  fltb := Qltb;
  fleb := Qle_bool;
  feqb := Qeq_bool;
  fsqrt := Qsqrt;
  powf := Qpowf;
  fopp_involutive := fun x =>
    match x as q return Qopp (Qopp q) = q with
    | Qmake a b => f_equal (fun n => Qmake n b) (Z.opp_involutive a)
    end
|}.

(** *** IEEE 754 binary32 *)

Definition b32_of_Z (z : Z) : spec_float := binary_normalize 24 128 z 0 false.

(** A decimal literal, rounded to the nearest float. *)
Definition b32_lit (q : Q) : spec_float :=
  SFdiv 24 128 (b32_of_Z (Qnum q)) (b32_of_Z (Zpos (Qden q))).

(** The cast to [int] of a finite float (truncation). *)
Definition b32_to_Z (x : spec_float) : Z :=
  match x with
  | S754_finite s m e =>
      cond_Zopp s (if (0 <=? e)%Z then Z.shiftl (Zpos m) e
                   else Z.shiftr (Zpos m) (- e))
  | _ => 0
  end.

(** The instance is parametric in the C library's [powf]. *)
Definition Binary32 (libm_powf : spec_float -> spec_float -> spec_float)
  : Arith := {|
  F := spec_float;
  flit := b32_lit;
  of_int := b32_of_Z;
  to_int := b32_to_Z;
  fadd := SFadd 24 128;
  fsub := SFsub 24 128;
  fmul := SFmul 24 128;
  fdiv := SFdiv 24 128;
  fopp := SFopp;
  fltb := SFltb;
  fleb := SFleb;
  feqb := SFeqb;
  fsqrt := SFsqrt 24 128;
  powf := libm_powf;
  fopp_involutive := fun x =>
    match x as f return SFopp (SFopp f) = f with
    | S754_zero s => f_equal S754_zero (negb_involutive s)
    | S754_infinity s => f_equal S754_infinity (negb_involutive s)
    | S754_nan => eq_refl
    | S754_finite s m e =>
        f_equal (fun b => S754_finite b m e) (negb_involutive s)
    end
|}.

(** [x^n] by repeated multiplication, for an integral [n >= 0]. *)
Definition b32_powf (x y : spec_float) : spec_float :=
  Z.iter (b32_to_Z y) (SFmul 24 128 x) (b32_of_Z 1).

Definition B32 : Arith := Binary32 b32_powf.

(** ** A concrete platform for examples

    The standard OpenGL matrices stand for the constructors of [Mat4], a
    small rasterizer for the one of [Image], and the shader flags are the
    bits 0 and 1. *)

Section Demo.
Context {A : Arith} {T : Template}.
Local Open Scope fl_scope.

Definition glOrtho (l r b t n f : F) : fMat4 :=
  mkMat4 (flit 2 / (r - l)) f0 f0 f0
         f0 (flit 2 / (t - b)) f0 f0
         f0 f0 (flit (-2) / (f - n)) f0
         (- ((r + l) / (r - l))) (- ((t + b) / (t - b)))
         (- ((f + n) / (f - n))) f1.

Definition glFrustum (l r b t n f : F) : fMat4 :=
  mkMat4 (flit 2 * n / (r - l)) f0 f0 f0
         f0 (flit 2 * n / (t - b)) f0 f0
         ((r + l) / (r - l)) ((t + b) / (t - b))
         (- ((f + n) / (f - n))) (flit (-1))
         f0 f0 (- (flit 2 * f * n / (f - n))) f0.

(** The tangent of half an angle given in degrees, by its Taylor
    polynomial of degree 5. *)
Definition tan_half_deg (a : F) : F :=
  let x := a * flit (355 # 113) / flit 360 in
  x + x * x * x / flit 3 + flit 2 * x * x * x * x * x / flit 15.

Definition gluPerspective (fovy aspect zNear zFar : F) : fMat4 :=
  let top := zNear * tan_half_deg fovy in
  let right := top * aspect in
  glFrustum (- right) right (- top) top zNear zFar.

Definition gluLookAt (eyeX eyeY eyeZ centerX centerY centerZ upX upY upZ : F)
  : fMat4 :=
  let f :=
    normalize (mkVec3 (centerX - eyeX) (centerY - eyeY) (centerZ - eyeZ)) in
  let s := normalize (crossProduct f (mkVec3 upX upY upZ)) in
  let u := crossProduct s f in
  let eye := mkVec3 eyeX eyeY eyeZ in
  mkMat4 (x3 s) (x3 u) (- x3 f) f0
         (y3 s) (y3 u) (- y3 f) f0
         (z3 s) (z3 u) (- z3 f) f0
         (- dotProduct s eye) (- dotProduct u eye) (dotProduct f eye) f1.

(** A rasterizer that leaves a visible trace: the pixels are reversed and
    the depth buffer is filled with the depth of the first vertex. *)
Definition demo_rasterize (RASTER_TYPE : Z) (V0 V1 V2 : RasterizerVec4)
  (ox oy : Z) (uni : RasterizerParams) (im : Image)
  : list color_t * option (list F) :=
  (rev (data im), option_map (map (fun _ => w4 (pos V0))) (zbuf uni)).

Definition DemoExtern : Extern := {|
  SHADER_FLAT := 0;
  SHADER_GOURAUD := 1;
  SHADER_TEXTURE := 2;
  rasterizeTriangle := demo_rasterize;
  Mat4_setOrtho := glOrtho;
  Mat4_setFrustum := glFrustum;
  Mat4_setPerspective := gluPerspective;
  Mat4_setLookAt := gluLookAt;
  shader_flags_ok := eq_refl
|}.

Definition translation (tx ty tz : F) : fMat4 :=
  mkMat4 f1 f0 f0 f0  f0 f1 f0 f0  f0 f0 f1 f0  tx ty tz f1.

Definition vec3i (x y z : Z) : fVec3 := mkVec3 (of_int x) (of_int y) (of_int z).

End Demo.

(** An 8x8 viewport with depth buffer, in perspective mode, and the same in
    orthographic mode; pixels are integers. *)
Definition Persp8 : Template := {|
  color_t := Z; LX := 8; LY := 8; ZBUFFER := true; ORTHO := false;
  viewport_ok := eq_refl
|}.

Definition Ortho8 : Template := {|
  color_t := Z; LX := 8; LY := 8; ZBUFFER := true; ORTHO := true;
  viewport_ok := eq_refl
|}.

Section DemoScene.
Context {A : Arith}.
#[local] Existing Instance Persp8.
#[local] Existing Instance DemoExtern.

(** The memory the constructor runs on. *)
Definition demo_memory : Renderer3D :=
  let c := mkRGBf f0 f0 f0 in
  let v := mkVec3 f0 f0 f0 in
  let M := translation f0 f0 f0 in
  mkRenderer3D 0 f0 (repeat f0 16) 0 0 None M 0
    (mkRasterizerParams None c None) f0 M v c c c M c f0 f0 f0 0
    M f0 v v v v c c c c.

Definition demo_image : Image := mkImage true 8 8 (repeat 0%Z 64).

(** A scene: an 8x8 image and its depth buffer, the frustum
    [-1,1]x[-1,1]x[1,3], the light along the view axis and the model moved
    two units in front of the camera. *)
Definition demo_setup : list Op :=
  [ OpSetImage (Some demo_image);
    OpSetZbuffer (Some (repeat f0 64)) 64;
    OpSetFrustum (flit (-1)) (flit 1) (flit (-1)) (flit 1) (flit 1) (flit 3);
    OpSetLightDirection (vec3i 0 0 (-1));
    OpSetModelMatrix (translation f0 f0 (flit (-2))) ].

Definition demo_renderer : Renderer3D :=
  run demo_setup (Renderer3D_new demo_memory).

(** A mesh of one triangle, three units behind the model origin (so one
    unit behind the eye in the scene above), whose bounding box was not
    computed (all zeros). *)
Definition behind_mesh : Mesh3D :=
  mkMesh3D (Some [vec3i 0 0 3; vec3i 0 1 3; vec3i 1 0 3]) None None
           [1; 0; 1; 2; 0] None
           (mkRGBf f1 f1 f1) (flit 0.1) (flit 0.6) (flit 0.5) 16
           (mkBox3 f0 f0 f0 f0 f0 f0).

(** A mesh of two triangles whose bounding box was not computed either:
    the first triangle faces the camera, the second one shares two of its
    vertices and has its third vertex behind the eye. *)
Definition crossing_mesh : Mesh3D :=
  mkMesh3D (Some [vec3i 0 0 0; vec3i 1 0 0; vec3i 0 1 0; vec3i 0 0 3])
           None None
           [1; 0; 1; 2; 1; 0; 1; 3; 0] None
           (mkRGBf f1 f1 f1) (flit 0.1) (flit 0.6) (flit 0.5) 16
           (mkBox3 f0 f0 f0 f0 f0 f0).

(** A triangle seen edge-on: its plane goes through the eye. *)
Definition edge_on_triangle : fVec3 * fVec3 * fVec3 :=
  (vec3i 0 0 1, vec3i 0 0 0, vec3i 0 1 1).

(** A mesh without vertex array. *)
Definition null_mesh : Mesh3D :=
  mkMesh3D None None None [] None
           (mkRGBf f1 f1 f1) (flit 0.1) (flit 0.6) (flit 0.5) 16
           (mkBox3 f0 f0 f0 f0 f0 f0).

(** A triangle facing the camera, with one normal shared by its three
    vertices, and the same triangle without normals. *)
Definition smooth_mesh : Mesh3D :=
  mkMesh3D (Some [vec3i 0 0 0; vec3i 1 0 0; vec3i 0 1 0]) None
           (Some [vec3i 0 0 1])
           [1; 0; 0; 1; 0; 2; 0; 0] None
           (mkRGBf f1 f1 f1) (flit 0.1) (flit 0.6) (flit 0.5) 16
           (mkBox3 f0 f1 f0 f1 f0 f0).

Definition flat_mesh : Mesh3D :=
  mkMesh3D (Some [vec3i 0 0 0; vec3i 1 0 0; vec3i 0 1 0]) None None
           [1; 0; 1; 2; 0] None
           (mkRGBf (flit 0.5) (flit 0.5) (flit 0.5))
           (flit 0.2) (flit 0.3) (flit 0.4) 4
           (mkBox3 f0 f1 f0 f1 f0 f0).

(** The view-space depth of the vertex [i] of a mesh. *)
Definition view_z (r : Renderer3D) (mesh : Mesh3D) (i : Z) : F :=
  z4 (mult1 (_r_modelViewM r) (tab3 (vertice mesh) i)).

End DemoScene.

(** ** Notions used by the statements *)

Section Notions.
Context {A : Arith} {T : Template} {E : Extern}.
Local Open Scope fl_scope.

(** The culling test value of [_drawTriangle] and [_drawQuad] for the
    triangle [(P0, P1, P2)] given in model space. *)
Definition cull_test (r : Renderer3D) (P0 P1 P2 : fVec3) : F :=
  let Q0 := mult1 (_r_modelViewM r) P0 in
  let Q1 := mult1 (_r_modelViewM r) P1 in
  let Q2 := mult1 (_r_modelViewM r) P2 in
  let faceN := crossProduct (vec3_of (sub4 Q1 Q0)) (vec3_of (sub4 Q2 Q0)) in
  cull_value faceN Q0.

(** The triangle is discarded by the face culling step. *)
Definition culled (r : Renderer3D) (P0 P1 P2 : fVec3) : bool :=
  cull_test r P0 P1 P2 * _culling_dir r >? f0.

(** The view-space depth of a model-space point is [>= 0]. *)
Definition behind_eye (r : Renderer3D) (P : fVec3) : bool :=
  z4 (mult1 (_r_modelViewM r) P) >=? f0.

(** [r'] differs from [r] at most in the image and in the rasterizer
    parameters (depth buffer, face color, texture). *)
Definition only_buffers (r r' : Renderer3D) : Prop :=
  r' = set_uni (_uni r') (set_im (_im r') r).

(** [r'] differs from [r] at most in the image, the rasterizer parameters
    and the power table. *)
Definition table_frame (r r' : Renderer3D) : Prop :=
  r' =
  set_im (_im r')
    (set_uni (_uni r')
       (set_currentpow (_currentpow r')
          (set_powfact (_powfact r')
             (set_fastpowtab (_fastpowtab r') r)))).

(** [r'] differs from [r] at most in what a draw method may write: image,
    rasterizer parameters, power table and cached material. *)
Definition draw_frame (r r' : Renderer3D) : Prop :=
  r' =
  set_im (_im r')
    (set_uni (_uni r')
       (set_currentpow (_currentpow r')
          (set_powfact (_powfact r')
             (set_fastpowtab (_fastpowtab r')
                (set_r_ambiantColor (_r_ambiantColor r')
                   (set_r_diffuseColor (_r_diffuseColor r')
                      (set_r_specularColor (_r_specularColor r')
                         (set_r_objectColor (_r_objectColor r') r)))))))).

(** The image offset lies in the viewport range. *)
Definition offset_ok (r : Renderer3D) : Prop :=
  (0 <= _ox r <= MAXVIEWPORTDIMENSION /\ 0 <= _oy r <= MAXVIEWPORTDIMENSION)%Z.

(** The two overloads of [setOffset]. *)
Definition sets_offset (o : Op) : bool :=
  match o with
  | OpSetOffset _ _ | OpSetOffset_vec _ => true
  | _ => false
  end.

(** The cached material: light colors times strengths, and object color. *)
Definition cached_material (r : Renderer3D) : RGBf * RGBf * RGBf * RGBf :=
  (_r_ambiantColor r, _r_diffuseColor r, _r_specularColor r,
   _r_objectColor r).

(** The material of the caller, from the light colors, the strengths and
    the color set in the renderer. *)
Definition caller_material (r : Renderer3D) : RGBf * RGBf * RGBf * RGBf :=
  (rgb_scale (_ambiantColor r) (_ambiantStrength r),
   rgb_scale (_diffuseColor r) (_diffuseStrength r),
   rgb_scale (_specularColor r) (_specularStrength r),
   _color r).

(** The cache is up to date with the material set in the renderer. *)
Definition material_inv (r : Renderer3D) : Prop :=
  cached_material r = caller_material r.

(** The material override of a mesh. *)
Definition mesh_material (mesh : Mesh3D) (r : Renderer3D)
  : RGBf * RGBf * RGBf * RGBf :=
  (rgb_scale (_ambiantColor r) (ambiant_strength mesh),
   rgb_scale (_diffuseColor r) (diffuse_strength mesh),
   rgb_scale (_specularColor r) (specular_strength mesh),
   mesh_color mesh).

(** The meshes [drawMesh] visits: the whole chain, or its head only. *)
Definition visited (draw_chained_meshes : bool) (mesh : list Mesh3D)
  : list Mesh3D :=
  if draw_chained_meshes then mesh else firstn 1 mesh.

(** The meshes [drawMesh] draws: the visited ones that have vertices. *)
Definition drawn (draw_chained_meshes : bool) (mesh : list Mesh3D)
  : list Mesh3D :=
  filter (fun m => negb (is_null (vertice m)))
         (visited draw_chained_meshes mesh).

(** The entry [k] of the power table built for [exponent], and the factor
    that goes with it. *)
Definition specular_entry (exponent : Z) (k : Z) : F :=
  let specularExponent := of_int exponent in
  let bbsp :=
    if specularExponent <? flit 8 then specularExponent else flit 8 in
  if (exponent >? 0)%Z then
    powf (f1 - ((bbsp * of_int k) / (specularExponent * of_int _POWTABSIZE)))
         specularExponent
  else f0.

Definition specular_powfact (exponent : Z) : F :=
  let specularExponent := of_int exponent in
  let bbsp :=
    if specularExponent <? flit 8 then specularExponent else flit 8 in
  if (exponent >? 0)%Z then (specularExponent * of_int _POWTABSIZE) / bbsp
  else of_int 0.

(** The power table is the one of the exponent [_currentpow]. *)
Definition table_built (r : Renderer3D) : Prop :=
  length (_fastpowtab r) = 16%nat
  /\ _powfact r = specular_powfact (_currentpow r)
  /\ forall k, (0 <= k < _POWTABSIZE)%Z ->
       tab_get (_fastpowtab r) k = specular_entry (_currentpow r) k.

(** The vertex at view-space position [P] passes the per-vertex clip
    test. *)
Definition vertex_unclipped (r : Renderer3D) (P : fVec4) : Prop :=
  forall V, needclip_vertex P (project r P V) = false.

(** Every vertex a face array can name passes the per-vertex clip test. *)
Definition mesh_unclipped (r : Renderer3D) (mesh : Mesh3D) : Prop :=
  forall i,
    vertex_unclipped r (mult1 (_r_modelViewM r) (tab3 (vertice mesh) i)).

(** [_drawMesh] with the clip test on every triangle. *)
Definition _drawMesh_always_tested (RASTER_TYPE : Z) (mesh : Mesh3D)
  (r : Renderer3D) : Renderer3D * list Submission :=
  let bb := bounding_box mesh in
  let M := mat_mul (_projM r) (_r_modelViewM r) in
  if _discard r (xmin bb) (xmax bb) (ymin bb) (ymax bb) (zmin bb) (zmax bb) M
  then (r, [])
  else mesh_walk RASTER_TYPE true mesh r.

(** The invariant of the walk over a mesh without clipped vertex:
    the renderer differs from the initial one in the buffers only, and the
    three working vertices pass the clip test. *)
Definition walk_unclipped (r0 : Renderer3D) (w : Walk) : Prop :=
  only_buffers r0 (w_r w)
  /\ vertex_unclipped r0 (ext_P (get (w_slots w) (PC0 w)))
  /\ vertex_unclipped r0 (ext_P (get (w_slots w) (PC1 w)))
  /\ vertex_unclipped r0 (ext_P (get (w_slots w) (PC2 w))).

End Notions.

(** ** Notions of the culling step *)

Section CullingNotions.
Context {A : Arith} {T : Template} {E : Extern}.
Local Open Scope fl_scope.

(** A product with zero is never [> 0].  (In IEEE arithmetic it is a zero
    or a NaN; in exact arithmetic it is zero.) *)
Definition product_with_zero_not_positive : Prop :=
  forall x : F, (x * flit 0 >? f0) = false.

(** The value [needclip] of [_drawTriangle] for the triangle
    [(P0, P1, P2)] given in model space: one of its vertices fails the
    clip test. *)
Definition clipped (r : Renderer3D) (P0 P1 P2 : fVec3) : bool :=
  let Q0 := mult1 (_r_modelViewM r) P0 in
  let Q1 := mult1 (_r_modelViewM r) P1 in
  let Q2 := mult1 (_r_modelViewM r) P2 in
  needclip_vertex Q0 (project r Q0 uninit_RasterizerVec4)
  || needclip_vertex Q1 (project r Q1 uninit_RasterizerVec4)
  || needclip_vertex Q2 (project r Q2 uninit_RasterizerVec4).

(** A triangle that is nearly edge-on in the example scene: its plane
    passes close to the eye (coordinates in 1/4096). *)
Definition nearly_edge_on_triangle : fVec3 * fVec3 * fVec3 :=
  (mkVec3 (flit (-2606 # 4096)) (flit (-2552 # 4096)) (flit (794 # 4096)),
   mkVec3 (flit (2561 # 4096)) (flit (1828 # 4096)) (flit (2507 # 4096)),
   mkVec3 (flit (1825 # 4096)) (flit (1259 # 4096)) (flit (3309 # 4096))).

End CullingNotions.

(** ** Notions of the exact-arithmetic statements *)

(** Linear interpolation in a table [tab] at the abscissa [t]: between the
    entries [tab i] and [tab (i+1)] around [t], and 0 from 15 on. *)
Definition interpolate (tab : Z -> Q) (t : Q) : Q :=
  if (Qfloor t >=? 15)%Z then 0
  else tab (Qfloor t)
       + (t - inject_Z (Qfloor t)) * (tab (Qfloor t + 1)%Z - tab (Qfloor t)).

(** The factor [bbsp] of the power table: the exponent, capped at 8. *)
Definition bbsp (e : Z) : Q :=
  if Qltb (inject_Z e) 8 then inject_Z e else 8.

(** The step between the abscissas of two entries of the power table. *)
Definition table_slope (e : Z) : Q := bbsp e / (inject_Z e * 16).

(** A model-space point lies in a box. *)
Definition in_box (bb : @fBox3 ExactQ) (P : @fVec3 ExactQ) : Prop :=
  (xmin bb <= x3 P <= xmax bb
   /\ ymin bb <= y3 P <= ymax bb
   /\ zmin bb <= z3 P <= zmax bb)%Q.

(** A perspective projection matrix stores [-z] into the [w] component. *)
Definition stores_minus_z_in_w (M : @fMat4 ExactQ) : Prop :=
  (M3 M == 0 /\ M7 M == 0 /\ M11 M == - (1) /\ M15 M == 0)%Q.

(** Clip coordinates strictly inside the safe region of bound [b]. *)
Definition inside (b : Q) (C : @fVec4 ExactQ) : Prop :=
  (0 < w4 C
   /\ - b * w4 C < x4 C /\ x4 C < b * w4 C
   /\ - b * w4 C < y4 C /\ y4 C < b * w4 C
   /\ - w4 C < z4 C /\ z4 C < w4 C)%Q.

(** Unfolding of the rational instance. *)
Ltac exactq :=
  unfold f0, f1;
  cbn [F flit of_int to_int fadd fsub fmul fdiv fopp fltb fleb feqb powf
       ExactQ];
  unfold Qplus', Qminus', Qmult', Qdiv', Qpowf.

(** Results in lowest terms are equal, as rationals, to the plain ones. *)
Ltac strip_Qred :=
  repeat match goal with
         | |- context [Qred ?x] => rewrite (Qred_correct x)
         end.

Unset Implicit Arguments.

(** * Properties *)

(** ** Shader flags *)

Section Flags.
Context {A : Arith} {T : Template} {E : Extern}.

Lemma shader_flags_facts :
  SHADER_GOURAUD <> 0 /\ SHADER_TEXTURE <> 0
  /\ Z.land SHADER_GOURAUD SHADER_TEXTURE = 0
  /\ Z.land SHADER_FLAT SHADER_GOURAUD = 0
  /\ Z.land SHADER_FLAT SHADER_TEXTURE = 0.
Proof.
  pose proof shader_flags_ok as H.
  repeat (apply andb_true_iff in H; destruct H as [H ?]).
  repeat match goal with
         | H : negb _ = true |- _ => apply negb_true_iff in H
         | H : (_ =? _) = true |- _ => apply Z.eqb_eq in H
         | H : (_ =? _) = false |- _ => apply Z.eqb_neq in H
         end.
  auto.
Qed.

(** Clearing the bits of a flag does not change the test of a flag that
    shares no bit with it. *)
Lemma has_flag_clear_other (s a b : Z) :
  Z.land a b = 0 -> has_flag (clear_flag s a) b = has_flag s b.
Proof.
  intros H. unfold has_flag, clear_flag. f_equal. f_equal.
  rewrite <- Z.land_assoc. f_equal.
  apply Z.bits_inj'. intros n Hn.
  rewrite Z.land_spec, Z.lnot_spec by exact Hn.
  assert (Hb : Z.testbit (Z.land a b) n = false) by (rewrite H; apply Z.bits_0).
  rewrite Z.land_spec in Hb.
  destruct (Z.testbit a n), (Z.testbit b n); try reflexivity; discriminate.
Qed.






End Flags.

Section Frame.
Context {A : Arith} {T : Template} {E : Extern}.

(** ** What the drawing routines leave unchanged *)

Lemma only_buffers_refl (r : Renderer3D) : only_buffers r r.
Proof. unfold only_buffers. destruct r; reflexivity. Qed.

Lemma only_buffers_trans (r1 r2 r3 : Renderer3D) :
  only_buffers r1 r2 -> only_buffers r2 r3 -> only_buffers r1 r3.
Proof.
  unfold only_buffers. intros H12 H23.
  rewrite H23. rewrite H12. reflexivity.
Qed.

Lemma only_buffers_set_uni (u : RasterizerParams) (r : Renderer3D) :
  only_buffers r (set_uni u r).
Proof. unfold only_buffers. destruct r; reflexivity. Qed.

Lemma only_buffers_set_im (i : option Image) (r : Renderer3D) :
  only_buffers r (set_im i r).
Proof. unfold only_buffers. destruct r; reflexivity. Qed.

Lemma rasterize_only_buffers RT V0 V1 V2 (r : Renderer3D) :
  only_buffers r (fst (rasterize RT V0 V1 V2 r)).
Proof.
  unfold rasterize. destruct (_im r) as [im|].
  - destruct (rasterizeTriangle _ _ _ _ _ _ _ _) as [px zb]. cbn [fst].
    eapply only_buffers_trans; [apply only_buffers_set_im|apply only_buffers_set_uni].
  - apply only_buffers_refl.
Qed.

Lemma flat_shade_only_buffers TEXTURE cu faceN (r : Renderer3D) :
  only_buffers r (flat_shade TEXTURE cu faceN r).
Proof. apply only_buffers_set_uni. Qed.


Lemma needclip_vertex_behind (Q : fVec4) (PC : RasterizerVec4) :
  (z4 Q >=? f0)%fl = true -> needclip_vertex Q PC = true.
Proof. intros H. unfold needclip_vertex. rewrite H. reflexivity. Qed.

(** [_drawTriangle] starts with the culling test. *)
Lemma _drawTriangle_culled RT P0 P1 P2 N0 N1 N2 T0 T1 T2 (r : Renderer3D) :
  culled r P0 P1 P2 = true ->
  _drawTriangle RT P0 P1 P2 N0 N1 N2 T0 T1 T2 r = (r, []).
Proof.
  unfold culled, cull_test, _drawTriangle. cbv zeta. intros ->. reflexivity.
Qed.

(** A triangle with a vertex behind the eye is dropped by [_drawTriangle]. *)
Lemma _drawTriangle_behind RT P0 P1 P2 N0 N1 N2 T0 T1 T2 (r : Renderer3D) :
  behind_eye r P0 || behind_eye r P1 || behind_eye r P2 = true ->
  _drawTriangle RT P0 P1 P2 N0 N1 N2 T0 T1 T2 r = (r, []).
Proof.
  unfold behind_eye, _drawTriangle. cbv zeta. intros H.
  destruct (fltb f0 _); [reflexivity|].
  match goal with
  | |- (if ?c then _ else _) = _ => assert (Hc : c = true); [|rewrite Hc; reflexivity]
  end.
  unfold needclip_vertex.
  apply orb_true_iff in H. destruct H as [H|H].
  - apply orb_true_iff in H. destruct H as [H|H]; rewrite H; cbn;
      rewrite ?orb_true_r; reflexivity.
  - rewrite H. cbn. rewrite ?orb_true_r. reflexivity.
Qed.

Lemma _drawTriangle_only_buffers RT P0 P1 P2 N0 N1 N2 T0 T1 T2
  (r : Renderer3D) :
  only_buffers r (fst (_drawTriangle RT P0 P1 P2 N0 N1 N2 T0 T1 T2 r)).
Proof.
  unfold _drawTriangle. cbv zeta.
  destruct (fltb f0 _); [apply only_buffers_refl|].
  destruct (_ || _ || _); [apply only_buffers_refl|].
  destruct (has_flag RT SHADER_GOURAUD); destruct (has_flag RT SHADER_TEXTURE);
    cbv beta iota;
    first [ apply rasterize_only_buffers
          | eapply only_buffers_trans;
            [apply flat_shade_only_buffers | apply rasterize_only_buffers] ].
Qed.


Lemma _drawQuad_culled RT P0 P1 P2 P3 N0 N1 N2 N3 T0 T1 T2 T3
  (r : Renderer3D) :
  culled r P0 P1 P2 = true ->
  _drawQuad RT P0 P1 P2 P3 N0 N1 N2 N3 T0 T1 T2 T3 r = (r, []).
Proof.
  unfold culled, cull_test, _drawQuad. cbv zeta. intros ->. reflexivity.
Qed.

(** A quad with a vertex behind the eye is dropped by [_drawQuad]. *)
Lemma _drawQuad_behind RT P0 P1 P2 P3 N0 N1 N2 N3 T0 T1 T2 T3
  (r : Renderer3D) :
  behind_eye r P0 || behind_eye r P1 || behind_eye r P2 || behind_eye r P3
    = true ->
  _drawQuad RT P0 P1 P2 P3 N0 N1 N2 N3 T0 T1 T2 T3 r = (r, []).
Proof.
  unfold behind_eye, _drawQuad. cbv zeta. intros H.
  destruct (fltb f0 _); [reflexivity|].
  match goal with
  | |- (if ?c then _ else _) = _ => assert (Hc : c = true); [|rewrite Hc; reflexivity]
  end.
  unfold needclip_vertex.
  repeat (apply orb_true_iff in H; destruct H as [H|H]);
    rewrite H; cbn; rewrite ?orb_true_r; reflexivity.
Qed.

Lemma _drawQuad_only_buffers RT P0 P1 P2 P3 N0 N1 N2 N3 T0 T1 T2 T3
  (r : Renderer3D) :
  only_buffers r (fst (_drawQuad RT P0 P1 P2 P3 N0 N1 N2 N3 T0 T1 T2 T3 r)).
Proof.
  unfold _drawQuad. cbv zeta.
  destruct (fltb f0 _); [apply only_buffers_refl|].
  destruct (_ || _ || _ || _); [apply only_buffers_refl|].
  destruct (has_flag RT SHADER_GOURAUD); destruct (has_flag RT SHADER_TEXTURE);
    cbv beta iota;
    repeat match goal with
    | |- context [rasterize ?a ?b ?c ?d ?e] =>
        let H := fresh "H" in
        pose proof (rasterize_only_buffers a b c d e) as H;
        destruct (rasterize a b c d e); cbn [fst] in H |- *
    end;
    repeat (eapply only_buffers_trans; [|eassumption]);
    first [apply only_buffers_refl | apply flat_shade_only_buffers].
Qed.


Lemma drawTriangles_loop_only_buffers shader g t iv v inn n it tx count :
  forall k (r : Renderer3D),
  only_buffers r
    (fst (drawTriangles_loop shader g t iv v inn n it tx count k r)).
Proof.
  induction count as [|count IH]; intros k r; cbn [drawTriangles_loop].
  - apply only_buffers_refl.
  - cbv zeta.
    match goal with
    | |- context [_drawTriangle ?a ?b ?c ?d ?e ?f ?g ?h ?i ?j ?k] =>
        pose proof (_drawTriangle_only_buffers a b c d e f g h i j k) as H1;
        destruct (_drawTriangle a b c d e f g h i j k) as [r1 log1]
    end.
    specialize (IH (k + 3) r1).
    destruct (drawTriangles_loop _ _ _ _ _ _ _ _ _ _ _ _) as [r2 log2].
    cbn [fst] in *. eapply only_buffers_trans; eassumption.
Qed.

Lemma drawQuads_loop_only_buffers shader g t iv v inn n it tx count :
  forall k (r : Renderer3D),
  only_buffers r
    (fst (drawQuads_loop shader g t iv v inn n it tx count k r)).
Proof.
  induction count as [|count IH]; intros k r; cbn [drawQuads_loop].
  - apply only_buffers_refl.
  - cbv zeta.
    match goal with
    | |- context [_drawQuad ?a ?b ?c ?d ?e ?f ?g ?h ?i ?j ?k ?l ?m ?n] =>
        pose proof (_drawQuad_only_buffers a b c d e f g h i j k l m n) as H1;
        destruct (_drawQuad a b c d e f g h i j k l m n) as [r1 log1]
    end.
    specialize (IH (k + 4) r1).
    destruct (drawQuads_loop _ _ _ _ _ _ _ _ _ _ _ _) as [r2 log2].
    cbn [fst] in *. eapply only_buffers_trans; eassumption.
Qed.

(** *** The walk over a mesh *)

Lemma mesh_shade_only_buffers RT mesh cu faceN (r : Renderer3D) p0 p1 p2 s :
  only_buffers r (fst (mesh_shade RT mesh cu faceN r p0 p1 p2 s)).
Proof.
  unfold mesh_shade. cbv zeta.
  destruct (has_flag RT SHADER_GOURAUD); cbn [fst].
  - apply only_buffers_refl.
  - apply flat_shade_only_buffers.
Qed.

Lemma mesh_triangle_only_buffers RT c mesh (w : Walk) :
  only_buffers (w_r w) (w_r (mesh_triangle RT c mesh w)).
Proof.
  unfold mesh_triangle. cbv zeta.
  destruct (fltb f0 _); [apply only_buffers_refl|].
  destruct (mesh_cliptest _ _ _ _ _ _) as [s needclip].
  destruct needclip; [apply only_buffers_refl|].
  match goal with
  | |- context [mesh_shade ?a ?b ?c ?d ?e ?f ?g ?h ?i] =>
      pose proof (mesh_shade_only_buffers a b c d e f g h i) as H1;
      destruct (mesh_shade a b c d e f g h i) as [r1 s1]
  end.
  match goal with
  | |- context [rasterize ?a ?b ?c ?d ?e] =>
      pose proof (rasterize_only_buffers a b c d e) as H2;
      destruct (rasterize a b c d e) as [r2 log2]
  end.
  cbn [fst w_r] in *. eapply only_buffers_trans; eassumption.
Qed.

Lemma mesh_next_vertex_r RT mesh (w : Walk) :
  w_r (mesh_next_vertex RT mesh w) = w_r w.
Proof.
  unfold mesh_next_vertex. cbv zeta.
  destruct (negb _); destruct (load_indices _ _ _ _ _); reflexivity.
Qed.

Lemma mesh_first_triangle_r RT mesh (w : Walk) :
  w_r (mesh_first_triangle RT mesh w) = w_r w.
Proof.
  unfold mesh_first_triangle. cbv zeta.
  repeat destruct (load_indices _ _ _ _ _). reflexivity.
Qed.

Lemma mesh_chain_only_buffers RT c mesh n :
  forall w : Walk, only_buffers (w_r w) (w_r (mesh_chain RT c mesh n w)).
Proof.
  induction n as [|n IH]; intros w; cbn [mesh_chain]; cbv zeta.
  - apply mesh_triangle_only_buffers.
  - eapply only_buffers_trans; [apply (mesh_triangle_only_buffers RT c mesh w)|].
    rewrite <- (mesh_next_vertex_r RT mesh (mesh_triangle RT c mesh w)).
    apply IH.
Qed.

Lemma mesh_faces_only_buffers RT c mesh fuel :
  forall w : Walk, only_buffers (w_r w) (w_r (mesh_faces RT c mesh fuel w)).
Proof.
  induction fuel as [|fuel IH]; intros w; cbn [mesh_faces]; cbv zeta.
  - apply only_buffers_refl.
  - destruct (_ >? 0); [|apply only_buffers_refl].
    eapply only_buffers_trans; [|apply IH].
    eapply only_buffers_trans; [|apply mesh_chain_only_buffers].
    rewrite mesh_first_triangle_r. apply only_buffers_refl.
Qed.

Lemma mesh_walk_only_buffers RT c mesh (r : Renderer3D) :
  only_buffers r (fst (mesh_walk RT c mesh r)).
Proof.
  unfold mesh_walk. cbv zeta. cbn [fst].
  eapply only_buffers_trans; [|apply mesh_faces_only_buffers].
  apply only_buffers_set_uni.
Qed.

Lemma _drawMesh_only_buffers RT mesh (r : Renderer3D) :
  only_buffers r (fst (_drawMesh RT mesh r)).
Proof.
  unfold _drawMesh. cbv zeta.
  destruct (_discard _ _ _ _ _ _ _ _); [apply only_buffers_refl|].
  apply mesh_walk_only_buffers.
Qed.


(** *** The draw methods *)

Lemma table_frame_refl (r : Renderer3D) : table_frame r r.
Proof. unfold table_frame. destruct r; reflexivity. Qed.

Lemma table_frame_trans (r1 r2 r3 : Renderer3D) :
  table_frame r1 r2 -> table_frame r2 r3 -> table_frame r1 r3.
Proof.
  unfold table_frame. intros H12 H23. rewrite H23. rewrite H12. reflexivity.
Qed.

Lemma only_buffers_table_frame (r r' : Renderer3D) :
  only_buffers r r' -> table_frame r r'.
Proof.
  unfold only_buffers, table_frame. intros H. rewrite H.
  destruct r; reflexivity.
Qed.

Lemma _precomputeSpecularTable_frame e (r : Renderer3D) :
  table_frame r (_precomputeSpecularTable e r).
Proof.
  unfold _precomputeSpecularTable, table_frame. cbv zeta.
  destruct (_ =? _); [destruct r; reflexivity|].
  destruct (e >? 0); destruct r; reflexivity.
Qed.

Lemma _precomputeSpecularTable_buffers e (r : Renderer3D) :
  _im (_precomputeSpecularTable e r) = _im r
  /\ _uni (_precomputeSpecularTable e r) = _uni r.
Proof.
  unfold _precomputeSpecularTable. cbv zeta.
  destruct (_ =? _); [split; reflexivity|].
  destruct (e >? 0); split; reflexivity.
Qed.

Lemma draw_frame_refl (r : Renderer3D) : draw_frame r r.
Proof. unfold draw_frame. destruct r; reflexivity. Qed.

Lemma draw_frame_trans (r1 r2 r3 : Renderer3D) :
  draw_frame r1 r2 -> draw_frame r2 r3 -> draw_frame r1 r3.
Proof.
  unfold draw_frame. intros H12 H23. rewrite H23. rewrite H12. reflexivity.
Qed.

Lemma table_frame_draw_frame (r r' : Renderer3D) :
  table_frame r r' -> draw_frame r r'.
Proof.
  unfold table_frame, draw_frame. intros H. rewrite H.
  destruct r; reflexivity.
Qed.

Lemma use_material_frame mesh (r : Renderer3D) :
  draw_frame r (use_material mesh r).
Proof. unfold use_material, draw_frame. destruct r; reflexivity. Qed.

Lemma restore_material_frame (r : Renderer3D) :
  draw_frame r (restore_material r).
Proof. unfold restore_material, draw_frame. destruct r; reflexivity. Qed.

(** The body of the loop of [drawMesh], on a mesh that has vertices. *)
Lemma drawMesh_body_drawn shader (umm : bool) mesh (r : Renderer3D) :
  is_null (vertice mesh) = false ->
  let entry :=
    _precomputeSpecularTable
      (if umm then specular_exponent mesh else _specularExponent r)
      (if umm then use_material mesh r else r) in
  exists log r1,
    drawMesh_body shader umm mesh r
    = (r1, [mkMeshCall (mesh_raster_type shader mesh) mesh entry log])
    /\ only_buffers entry r1.
Proof.
  intros Hv. unfold drawMesh_body. rewrite Hv. cbn [negb]. cbv zeta.
  destruct umm;
    match goal with
    | |- context [_drawMesh ?a ?b ?c] =>
        pose proof (_drawMesh_only_buffers a b c) as H1;
        destruct (_drawMesh a b c) as [r1 log1]
    end;
    cbn [fst] in H1; exists log1, r1; split;
    [reflexivity | exact H1 | reflexivity | exact H1].
Qed.

(** A mesh without vertex array is skipped. *)
Lemma drawMesh_body_null shader umm mesh (r : Renderer3D) :
  is_null (vertice mesh) = true ->
  drawMesh_body shader umm mesh r = (r, []).
Proof. intros Hv. unfold drawMesh_body. rewrite Hv. reflexivity. Qed.

Lemma drawMesh_body_frame shader umm mesh (r : Renderer3D) :
  draw_frame r (fst (drawMesh_body shader umm mesh r))
  /\ (umm = false -> table_frame r (fst (drawMesh_body shader umm mesh r))).
Proof.
  destruct (is_null (vertice mesh)) eqn:Hv.
  - rewrite drawMesh_body_null by exact Hv. cbn [fst].
    split; intros; [apply draw_frame_refl|apply table_frame_refl].
  - destruct (drawMesh_body_drawn shader umm mesh r Hv) as (log & r1 & -> & H1).
    cbn [fst]. split.
    + eapply draw_frame_trans;
        [|apply table_frame_draw_frame, only_buffers_table_frame; exact H1].
      eapply draw_frame_trans;
        [|apply table_frame_draw_frame, _precomputeSpecularTable_frame].
      destruct umm; [apply use_material_frame|apply draw_frame_refl].
    + intros ->.
      eapply table_frame_trans; [|apply only_buffers_table_frame; exact H1].
      apply _precomputeSpecularTable_frame.
Qed.

Lemma drawMesh_loop_frame shader umm dcm mesh :
  forall r : Renderer3D,
  draw_frame r (fst (drawMesh_loop shader umm dcm mesh r))
  /\ (umm = false ->
      table_frame r (fst (drawMesh_loop shader umm dcm mesh r))).
Proof.
  induction mesh as [|m next IH]; intros r; cbn [drawMesh_loop].
  - split; intros; [apply draw_frame_refl|apply table_frame_refl].
  - destruct (drawMesh_body_frame shader umm m r) as [H1 H1'].
    destruct (drawMesh_body shader umm m r) as [r1 calls1].
    destruct dcm.
    + destruct (IH r1) as [H2 H2'].
      destruct (drawMesh_loop shader umm true next r1) as [r2 calls2].
      cbn [fst] in *. split.
      * eapply draw_frame_trans; eassumption.
      * intros Hu. eapply table_frame_trans; [apply H1'|apply H2']; exact Hu.
    + split; assumption.
Qed.

(** A draw method that does not use a mesh material writes at most the
    image, the rasterizer parameters and the power table. *)
Lemma draw_table_frame (c : DrawCall) (r : Renderer3D) :
  match c with
  | DrawMesh _ _ true _ => True
  | _ => table_frame r (snd (fst (draw c r)))
  end.
Proof.
  destruct c; [destruct use_mesh_material; [exact I|]|..]; cbn [draw];
    unfold drawMesh, drawMesh_calls, drawTriangle, drawTriangle_N,
      drawTriangle_T, drawTriangle_NT, drawTriangles, drawQuad, drawQuad_N,
      drawQuad_T, drawQuad_NT, drawQuads; cbv zeta;
    (destruct (no_valid_image r); [apply table_frame_refl|]);
    (destruct (no_valid_zbuffer r); [apply table_frame_refl|]).
  1: { destruct (drawMesh_loop_frame shader false draw_chained_meshes mesh r)
         as [_ H].
       destruct (drawMesh_loop _ _ _ _ _) as [r1 calls]. cbn [fst snd] in *.
       apply H. reflexivity. }
  all: repeat match goal with
         | |- context [if ?c then _ else _] => destruct c
         end;
       cbn [fst snd];
       try (repeat match goal with
              | |- table_frame ?r ?r => apply table_frame_refl
              | |- table_frame _ (set_uni _ _) =>
                  apply only_buffers_table_frame, only_buffers_set_uni
              | |- table_frame _ (_precomputeSpecularTable _ _) =>
                  apply _precomputeSpecularTable_frame
              | |- table_frame _ (if ?c then _ else _) => destruct c
              end; fail);
       match goal with
       | |- context [_drawTriangle ?a ?b ?c ?d ?e ?f ?g ?h ?i ?j ?k] =>
           pose proof (_drawTriangle_only_buffers a b c d e f g h i j k) as H;
           destruct (_drawTriangle a b c d e f g h i j k) as [r1 log1]
       | |- context [_drawQuad ?a ?b ?c ?d ?e ?f ?g ?h ?i ?j ?k ?l ?m ?n] =>
           pose proof (_drawQuad_only_buffers a b c d e f g h i j k l m n) as H;
           destruct (_drawQuad a b c d e f g h i j k l m n) as [r1 log1]
       | |- context [drawTriangles_loop ?a ?b ?c ?d ?e ?f ?g ?h ?i ?j ?k ?l] =>
           pose proof
             (drawTriangles_loop_only_buffers a b c d e f g h i j k l) as H;
           destruct (drawTriangles_loop a b c d e f g h i j k l) as [r1 log1]
       | |- context [drawQuads_loop ?a ?b ?c ?d ?e ?f ?g ?h ?i ?j ?k ?l] =>
           pose proof
             (drawQuads_loop_only_buffers a b c d e f g h i j k l) as H;
           destruct (drawQuads_loop a b c d e f g h i j k l) as [r1 log1]
       end;
       cbn [fst snd] in *;
       (eapply table_frame_trans;
        [|apply only_buffers_table_frame; exact H]);
       repeat first [match goal with
              | |- table_frame ?r ?r => apply table_frame_refl
              | |- table_frame _ (set_uni _ _) =>
                  apply only_buffers_table_frame, only_buffers_set_uni
              | |- table_frame _ (_precomputeSpecularTable _ _) =>
                  apply _precomputeSpecularTable_frame
              | |- table_frame _ (if ?c then _ else _) => destruct c
              end
                    | eapply table_frame_trans;
                      [|apply only_buffers_table_frame, only_buffers_set_uni]].
Qed.

(** A draw method writes at most the image, the rasterizer parameters, the
    power table and the cached material. *)
Lemma draw_draw_frame (c : DrawCall) (r : Renderer3D) :
  draw_frame r (snd (fst (draw c r))).
Proof.
  pose proof (draw_table_frame c r) as H.
  destruct c; try (apply table_frame_draw_frame; exact H).
  destruct use_mesh_material; [|apply table_frame_draw_frame; exact H].
  cbn [draw]. unfold drawMesh, drawMesh_calls. cbv zeta.
  destruct (no_valid_image r); [apply draw_frame_refl|].
  destruct (no_valid_zbuffer r); [apply draw_frame_refl|].
  destruct (drawMesh_loop_frame shader true draw_chained_meshes mesh r)
    as [H1 _].
  destruct (drawMesh_loop _ _ _ _ _) as [r1 calls]. cbn [fst snd] in *.
  eapply draw_frame_trans; [exact H1|apply restore_material_frame].
Qed.

End Frame.

(** ** C1: rejected draw calls *)

Section Rejection.
Context {A : Arith} {T : Template} {E : Extern}.

(** C1.  Every draw entry point checks its preconditions first: without a
    valid image it returns -1; else, when depth testing is compiled in and
    the depth buffer is null or shorter than [LX * LY], it returns -2; else,
    on a single-primitive call that requests texturing with a null texture
    image, it returns -3.  A call rejected with -1 or -2 leaves the whole
    renderer unchanged; one rejected with -3 leaves the image and the
    rasterizer parameters (depth buffer included) unchanged; in all three
    cases nothing is sent to the rasterizer. *)
Theorem draw_rejected_is_noop (c : DrawCall) (r : Renderer3D) :
  (no_valid_image r = true -> draw c r = (-1, r, []))
  /\ (no_valid_image r = false -> no_valid_zbuffer r = true ->
      draw c r = (-2, r, []))
  /\ (no_valid_image r = false -> no_valid_zbuffer r = false ->
      texture_missing c = true ->
      exists r', draw c r = (-3, r', [])
                 /\ _im r' = _im r /\ _uni r' = _uni r).
Proof.
  destruct shader_flags_facts as (_ & _ & HGT & _ & _).
  split; [|split].
  - intros Him.
    destruct c; cbn [draw];
      unfold drawMesh, drawMesh_calls, drawTriangle, drawTriangle_N,
        drawTriangle_T, drawTriangle_NT, drawTriangles, drawQuad, drawQuad_N,
        drawQuad_T, drawQuad_NT, drawQuads; cbv zeta;
      rewrite Him; reflexivity.
  - intros Him Hz.
    destruct c; cbn [draw];
      unfold drawMesh, drawMesh_calls, drawTriangle, drawTriangle_N,
        drawTriangle_T, drawTriangle_NT, drawTriangles, drawQuad, drawQuad_N,
        drawQuad_T, drawQuad_NT, drawQuads; cbv zeta;
      rewrite Him, Hz; reflexivity.
  - intros Him Hz Htex.
    exists (_precomputeSpecularTable (_specularExponent r) r).
    split; [|apply _precomputeSpecularTable_buffers].
    destruct c; cbn [texture_missing] in Htex; try discriminate Htex;
      cbn [draw];
      unfold drawTriangle_T, drawTriangle_NT, drawQuad_T, drawQuad_NT;
      cbv zeta; rewrite Him, Hz;
      rewrite ?has_flag_clear_other by exact HGT; rewrite Htex; reflexivity.
Qed.

End Rejection.

(** ** C8: the projection matrix round trip *)

Section Projection.
Context {A : Arith} {T : Template} {E : Extern}.

Lemma invertYaxis_involutive (M : fMat4) : invertYaxis (invertYaxis M) = M.
Proof.
  destruct M. unfold invertYaxis. cbn. rewrite !fopp_involutive. reflexivity.
Qed.

(** C8.  Setting the projection matrix to the one returned by
    [getProjectionMatrix] leaves the renderer (hence the stored projection
    matrix) unchanged, so every later sequence of calls and every later
    draw behaves as if the call had been omitted. *)
Theorem setProjectionMatrix_getProjectionMatrix (r : Renderer3D) :
  let r' := setProjectionMatrix (getProjectionMatrix r) r in
  _projM r' = _projM r
  /\ r' = r
  /\ (forall ops, run ops r' = run ops r)
  /\ (forall c, draw c r' = draw c r).
Proof.
  assert (H : setProjectionMatrix (getProjectionMatrix r) r = r).
  { unfold setProjectionMatrix, getProjectionMatrix. cbv zeta.
    destruct r. cbn. rewrite invertYaxis_involutive. reflexivity. }
  cbv zeta. rewrite H. repeat split; reflexivity.
Qed.

End Projection.

(** ** C9: the image offset *)

Section Offset.
Context {A : Arith} {T : Template} {E : Extern}.

Lemma clamp_range (v lo hi : Z) : lo <= hi -> lo <= clamp v lo hi <= hi.
Proof. unfold clamp. lia. Qed.

Lemma clamp_cases (v lo hi : Z) :
  lo <= hi ->
  (v < lo -> clamp v lo hi = lo)
  /\ (hi < v -> clamp v lo hi = hi)
  /\ (lo <= v <= hi -> clamp v lo hi = v).
Proof. unfold clamp. lia. Qed.

Lemma setOffset_fields ox oy (r : Renderer3D) :
  _ox (setOffset ox oy r) = clamp ox 0 MAXVIEWPORTDIMENSION
  /\ _oy (setOffset ox oy r) = clamp oy 0 MAXVIEWPORTDIMENSION.
Proof. split; reflexivity. Qed.

Lemma draw_frame_offset (r r' : Renderer3D) :
  draw_frame r r' -> _ox r' = _ox r /\ _oy r' = _oy r.
Proof. unfold draw_frame. intros ->. split; reflexivity. Qed.

(** Only [setOffset] writes the offset. *)
Lemma step_offset (o : Op) (r : Renderer3D) :
  sets_offset o = false ->
  _ox (step o r) = _ox r /\ _oy (step o r) = _oy r.
Proof.
  destruct o; cbn [sets_offset step]; intros Hs; try discriminate Hs;
    try (split; reflexivity).
  - unfold clearZbuffer. destruct (zbuf (_uni r)); split; reflexivity.
  - apply draw_frame_offset, draw_draw_frame.
Qed.

Lemma step_offset_ok (o : Op) (r : Renderer3D) :
  offset_ok r -> offset_ok (step o r).
Proof.
  intros Hr. destruct (sets_offset o) eqn:Hs.
  - destruct o; try discriminate Hs; cbn [step];
      unfold offset_ok, setOffset_vec;
      rewrite (proj1 (setOffset_fields _ _ _)), (proj2 (setOffset_fields _ _ _));
      split; apply clamp_range; unfold MAXVIEWPORTDIMENSION; lia.
  - destruct (step_offset o r Hs) as [Hx Hy].
    unfold offset_ok. rewrite Hx, Hy. exact Hr.
Qed.

Lemma run_offset_ok (ops : list Op) :
  forall r : Renderer3D, offset_ok r -> offset_ok (run ops r).
Proof.
  unfold run. induction ops as [|o ops IH]; intros r Hr; cbn [fold_left].
  - exact Hr.
  - apply IH, step_offset_ok, Hr.
Qed.

Lemma Renderer3D_new_offset (g : Renderer3D) :
  _ox (Renderer3D_new g) = 0 /\ _oy (Renderer3D_new g) = 0.
Proof.
  unfold Renderer3D_new. cbv zeta.
  match goal with
  | |- _ (_precomputeSpecularTable ?e ?r) = _ /\ _ =>
      destruct (draw_frame_offset _ _
                  (table_frame_draw_frame _ _
                     (_precomputeSpecularTable_frame e r)))
        as [-> ->]
  end.
  split; reflexivity.
Qed.

(** C9.  [setOffset] clamps each argument into [0, 2048]; the constructor
    sets the offset to (0,0) and no other method writes it; hence the offset
    lies in [0, 2048] x [0, 2048] in every state a program can reach. *)
Theorem offset_in_viewport_range :
  (forall ox oy (r : Renderer3D),
     let r' := setOffset ox oy r in
     _ox r' = clamp ox 0 2048 /\ _oy r' = clamp oy 0 2048
     /\ 0 <= _ox r' <= 2048 /\ 0 <= _oy r' <= 2048
     /\ (ox < 0 -> _ox r' = 0) /\ (2048 < ox -> _ox r' = 2048)
     /\ (oy < 0 -> _oy r' = 0) /\ (2048 < oy -> _oy r' = 2048))
  /\ (forall g : Renderer3D,
        _ox (Renderer3D_new g) = 0 /\ _oy (Renderer3D_new g) = 0)
  /\ (forall (o : Op) (r : Renderer3D),
        sets_offset o = false ->
        _ox (step o r) = _ox r /\ _oy (step o r) = _oy r)
  /\ (forall r : Renderer3D,
        reachable r -> 0 <= _ox r <= 2048 /\ 0 <= _oy r <= 2048).
Proof.
  split; [|split; [|split]].
  - intros ox oy r r'. subst r'.
    rewrite (proj1 (setOffset_fields _ _ _)), (proj2 (setOffset_fields _ _ _)).
    unfold MAXVIEWPORTDIMENSION, clamp. lia.
  - apply Renderer3D_new_offset.
  - apply step_offset.
  - intros r (g & ops & _ & _ & ->).
    apply (run_offset_ok ops). unfold offset_ok.
    destruct (Renderer3D_new_offset g) as [-> ->].
    unfold MAXVIEWPORTDIMENSION. lia.
Qed.

End Offset.

(** ** C5, C6, C10: the chain of meshes *)

Section MeshChain.
Context {A : Arith} {T : Template} {E : Extern}.

Lemma cached_material_table_frame (r r' : Renderer3D) :
  table_frame r r' -> cached_material r' = cached_material r.
Proof. unfold table_frame. intros ->. reflexivity. Qed.

Lemma caller_material_draw_frame (r r' : Renderer3D) :
  draw_frame r r' -> caller_material r' = caller_material r.
Proof. unfold draw_frame. intros ->. reflexivity. Qed.

Lemma mesh_material_draw_frame (m : Mesh3D) (r r' : Renderer3D) :
  draw_frame r r' -> mesh_material m r' = mesh_material m r.
Proof. unfold draw_frame. intros ->. reflexivity. Qed.

Lemma cached_material_use_material (m : Mesh3D) (r : Renderer3D) :
  cached_material (use_material m r) = mesh_material m r.
Proof. reflexivity. Qed.

Lemma cached_material_restore (r : Renderer3D) :
  cached_material (restore_material r) = caller_material r.
Proof. reflexivity. Qed.

Lemma last_cons_default {X : Type} (a : X) (l : list X) (d d' : X) :
  last (a :: l) d = last (a :: l) d'.
Proof.
  revert a. induction l as [|b l IH]; intros a; [reflexivity|].
  change (last (b :: l) d = last (b :: l) d'). apply IH.
Qed.

Lemma last_app_default {X : Type} (l1 l2 : list X) (d : X) :
  last (l1 ++ l2) d = last l2 (last l1 d).
Proof.
  induction l1 as [|a l1 IH]; [reflexivity|].
  destruct l1 as [|b l1].
  - destruct l2 as [|x l2]; [reflexivity|].
    cbn [app]. apply (last_cons_default x l2 d a).
  - change (last ((b :: l1) ++ l2) d = last l2 (last (b :: l1) d)).
    exact IH.
Qed.

Lemma drawn_cons (dcm : bool) (m : Mesh3D) (next : list Mesh3D) :
  drawn dcm (m :: next)
  = (if is_null (vertice m) then [] else [m])
    ++ (if dcm then drawn true next else []).
Proof.
  unfold drawn, visited. destruct dcm; cbn [firstn filter];
    destruct (is_null (vertice m)); reflexivity.
Qed.

(** What the loop of [drawMesh] does: it calls [_drawMesh] on the meshes
    that have vertices, in the order of the chain, each with the shading
    that mesh allows; with the mesh material in use, each call runs with
    the material of its mesh, and the cache keeps the material of the last
    mesh drawn. *)
Lemma drawMesh_loop_spec shader (umm dcm : bool) mesh :
  forall r : Renderer3D,
  let res := drawMesh_loop shader umm dcm mesh r in
  map mc_mesh (snd res) = drawn dcm mesh
  /\ Forall (fun c => mc_raster_type c = mesh_raster_type shader (mc_mesh c))
            (snd res)
  /\ Forall (fun c =>
               cached_material (mc_entry c)
               = if umm then mesh_material (mc_mesh c) r
                 else cached_material r) (snd res)
  /\ cached_material (fst res)
     = if umm
       then last (map (fun m => mesh_material m r) (drawn dcm mesh))
                 (cached_material r)
       else cached_material r.
Proof.
  induction mesh as [|m next IH]; intros r; cbn [drawMesh_loop]; cbv zeta.
  - assert (Hd : drawn dcm [] = []) by (destruct dcm; reflexivity).
    rewrite Hd. cbn. repeat split; try constructor.
    destruct umm; reflexivity.
  - rewrite drawn_cons.
    pose proof (proj1 (drawMesh_body_frame shader umm m r)) as Hf.
    destruct (is_null (vertice m)) eqn:Hv.
    + rewrite (drawMesh_body_null shader umm m r Hv) in Hf |- *.
      destruct dcm; [|cbn; repeat split; try constructor;
                       destruct umm; reflexivity].
      specialize (IH r). cbv zeta in IH.
      destruct (drawMesh_loop shader umm true next r) as [r2 calls2].
      cbn [fst snd app] in *. exact IH.
    + destruct (drawMesh_body_drawn shader umm m r Hv)
        as (log & r1 & Hb & H1).
      rewrite Hb in Hf |- *. cbn [fst] in Hf.
      assert (Hentry :
        cached_material
          (_precomputeSpecularTable
             (if umm then specular_exponent m else _specularExponent r)
             (if umm then use_material m r else r))
        = if umm then mesh_material m r else cached_material r).
      { rewrite (cached_material_table_frame _ _
                   (_precomputeSpecularTable_frame _ _)).
        destruct umm; reflexivity. }
      assert (Hr1 : cached_material r1
                    = if umm then mesh_material m r else cached_material r).
      { rewrite (cached_material_table_frame _ _
                   (only_buffers_table_frame _ _ H1)). exact Hentry. }
      destruct dcm.
      * specialize (IH r1). cbv zeta in IH.
        destruct (drawMesh_loop shader umm true next r1) as [r2 calls2].
        cbn [fst snd app map] in *.
        destruct IH as (IH1 & IH2 & IH3 & IH4).
        split; [f_equal; exact IH1|].
        split; [constructor; [reflexivity|exact IH2]|].
        split.
        -- constructor; [exact Hentry|].
           eapply Forall_impl; [|exact IH3]. cbn beta. intros c Hc.
           rewrite Hc. destruct umm; [|exact Hr1].
           apply mesh_material_draw_frame, Hf.
        -- rewrite IH4. destruct umm; [|exact Hr1].
           change (mesh_material m r
                   :: map (fun m0 => mesh_material m0 r) (drawn true next))
             with ([mesh_material m r]
                   ++ map (fun m0 => mesh_material m0 r) (drawn true next)).
           rewrite last_app_default. cbn [last]. rewrite Hr1.
           f_equal. apply map_ext. intros m0.
           apply mesh_material_draw_frame, Hf.
      * cbn [fst snd app map last].
        split; [reflexivity|].
        split; [constructor; [reflexivity|constructor]|].
        split; [constructor; [exact Hentry|constructor]|].
        exact Hr1.
Qed.


(** *** The material cache is up to date in every reachable state *)

Lemma draw_material_inv (c : DrawCall) (r : Renderer3D) :
  material_inv r -> material_inv (snd (fst (draw c r))).
Proof.
  intros Hr. unfold material_inv.
  rewrite (caller_material_draw_frame _ _ (draw_draw_frame c r)).
  rewrite <- Hr.
  pose proof (draw_table_frame c r) as H.
  destruct c; try (apply cached_material_table_frame; exact H).
  destruct use_mesh_material;
    [|apply cached_material_table_frame; exact H].
  cbn [draw]. unfold drawMesh, drawMesh_calls. cbv zeta.
  destruct (no_valid_image r); [reflexivity|].
  destruct (no_valid_zbuffer r); [reflexivity|].
  pose proof (proj1 (drawMesh_loop_frame shader true draw_chained_meshes
                       mesh r)) as Hf.
  destruct (drawMesh_loop _ _ _ _ _) as [r1 calls]. cbn [fst snd] in *.
  rewrite cached_material_restore.
  rewrite (caller_material_draw_frame _ _ Hf). symmetry. exact Hr.
Qed.

Lemma step_material_inv (o : Op) (r : Renderer3D) :
  material_inv r -> material_inv (step o r).
Proof.
  destruct o; try (apply draw_material_inv);
    unfold material_inv, cached_material, caller_material;
    intros H; injection H as H1 H2 H3 H4; cbn;
    try (unfold clearZbuffer; destruct (zbuf (_uni r)); cbn);
    congruence.
Qed.

Lemma run_material_inv (ops : list Op) :
  forall r : Renderer3D, material_inv r -> material_inv (run ops r).
Proof.
  unfold run. induction ops as [|o ops IH]; intros r Hr; cbn [fold_left].
  - exact Hr.
  - apply IH, step_material_inv, Hr.
Qed.

Lemma Renderer3D_new_material_inv (g : Renderer3D) :
  material_inv (Renderer3D_new g).
Proof.
  unfold Renderer3D_new, material_inv. cbv zeta.
  match goal with
  | |- cached_material (_precomputeSpecularTable ?e ?r) = _ =>
      rewrite (cached_material_table_frame _ _
                 (_precomputeSpecularTable_frame e r));
      rewrite (caller_material_draw_frame _ _
                 (table_frame_draw_frame _ _
                    (_precomputeSpecularTable_frame e r)))
  end.
  reflexivity.
Qed.

Lemma reachable_material_inv (r : Renderer3D) :
  reachable r -> material_inv r.
Proof.
  intros (g & ops & _ & _ & ->).
  apply run_material_inv, Renderer3D_new_material_inv.
Qed.

(** C5.  In [drawMesh] with [use_mesh_material = true], every mesh that is
    drawn is drawn with its own material in the cache; when the call
    returns, the cache holds the material of the caller (light colors times
    the caller's strengths, and the caller's color), which in every
    reachable state is what it held before the call; and the restore is the
    last thing the call does, once: up to it the cache holds the material of
    the last mesh drawn. *)
Theorem drawMesh_material_restored (shader : Z) (mesh : list Mesh3D)
  (dcm : bool) (r : Renderer3D) :
  let loop := drawMesh_loop shader true dcm mesh r in
  let res := drawMesh_calls shader mesh true dcm r in
  let r' := snd (fst res) in
  (reachable r ->
     cached_material r' = cached_material r
     /\ cached_material r' = caller_material r)
  /\ (fst (fst res) = 0 ->
      map mc_mesh (snd res) = drawn dcm mesh
      /\ Forall (fun c =>
                  cached_material (mc_entry c) = mesh_material (mc_mesh c) r)
                (snd res)
      /\ cached_material r' = caller_material r
      /\ r' = restore_material (fst loop)
      /\ cached_material (fst loop)
         = last (map (fun m => mesh_material m r) (drawn dcm mesh))
                (cached_material r)).
Proof.
  cbv zeta.
  pose proof (drawMesh_loop_spec shader true dcm mesh r) as Hs.
  pose proof (proj1 (drawMesh_loop_frame shader true dcm mesh r)) as Hf.
  cbv zeta in Hs. destruct Hs as (Hs1 & _ & Hs3 & Hs4).
  split.
  - intros Hreach. apply reachable_material_inv in Hreach.
    pose proof (draw_material_inv (DrawMesh shader mesh true dcm) r Hreach)
      as Hinv.
    assert (Hsame :
      snd (fst (draw (DrawMesh shader mesh true dcm) r))
      = snd (fst (drawMesh_calls shader mesh true dcm r))).
    { cbn [draw]. unfold drawMesh.
      destruct (drawMesh_calls shader mesh true dcm r) as [[st r1] calls].
      reflexivity. }
    rewrite Hsame in Hinv. unfold material_inv in Hinv, Hreach.
    assert (Hc : caller_material
                   (snd (fst (drawMesh_calls shader mesh true dcm r)))
                 = caller_material r).
    { rewrite <- Hsame.
      apply caller_material_draw_frame, draw_draw_frame. }
    rewrite Hinv, Hc. split; [symmetry; exact Hreach|reflexivity].
  - unfold drawMesh_calls.
    destruct (no_valid_image r); [cbn; discriminate|].
    destruct (no_valid_zbuffer r); [cbn; discriminate|].
    destruct (drawMesh_loop shader true dcm mesh r) as [r1 calls].
    cbn [fst snd] in *. intros _.
    repeat split; try assumption.
    rewrite cached_material_restore.
    apply caller_material_draw_frame, Hf.
Qed.


(** C10.  With a valid image and depth buffer [drawMesh] returns 0 whatever
    the meshes are.  A mesh whose vertex array is null is skipped: the body
    of the loop leaves the renderer as it is (no material is substituted,
    no table is computed) and calls nothing, and the traversal goes on with
    the next mesh.  When every mesh is like this nothing is drawn at all. *)
Theorem drawMesh_skips_null_vertices (shader : Z) (mesh : list Mesh3D)
  (umm dcm : bool) (r : Renderer3D) :
  no_valid_image r = false ->
  no_valid_zbuffer r = false ->
  fst (fst (drawMesh shader mesh umm dcm r)) = 0
  /\ (forall m r0,
        is_null (vertice m) = true ->
        drawMesh_body shader umm m r0 = (r0, []))
  /\ (forall m next,
        is_null (vertice m) = true ->
        drawMesh shader (m :: next) umm true r
        = drawMesh shader next umm true r)
  /\ (forallb (fun m => is_null (vertice m)) mesh = true ->
      drawMesh shader mesh umm dcm r
      = (0, if umm then restore_material r else r, [])).
Proof.
  intros Him Hz. split; [|split; [|split]].
  - unfold drawMesh, drawMesh_calls. rewrite Him, Hz.
    destruct (drawMesh_loop _ _ _ _ _). reflexivity.
  - intros m r0. apply drawMesh_body_null.
  - intros m next Hv. unfold drawMesh, drawMesh_calls. rewrite Him, Hz.
    cbn [drawMesh_loop]. rewrite (drawMesh_body_null shader umm m r Hv).
    destruct (drawMesh_loop shader umm true next r) as [r1 calls].
    reflexivity.
  - intros Hall. unfold drawMesh, drawMesh_calls. rewrite Him, Hz.
    assert (Hl : drawMesh_loop shader umm dcm mesh r = (r, [])).
    { clear Him Hz. induction mesh as [|m next IH]; [reflexivity|].
      cbn [forallb] in Hall. apply andb_true_iff in Hall.
      destruct Hall as [Hv Hall]. cbn [drawMesh_loop].
      rewrite (drawMesh_body_null shader umm m r Hv).
      destruct dcm; [|reflexivity]. rewrite (IH Hall). reflexivity. }
    rewrite Hl. reflexivity.
Qed.

End MeshChain.

(** ** The power table *)

Section PowerTable.
Context {A : Arith} {T : Template} {E : Extern}.

Lemma list_set_length (tab : list F) (k : nat) (v : F) :
  length (list_set tab k v) = length tab.
Proof.
  revert k. induction tab as [|a tab IH]; intros k; [reflexivity|].
  destruct k; cbn; [reflexivity|]. rewrite IH. reflexivity.
Qed.

Lemma list_set_nth (tab : list F) (k j : nat) (v d : F) :
  (k < length tab)%nat ->
  nth j (list_set tab k v) d = if Nat.eqb j k then v else nth j tab d.
Proof.
  revert k j. induction tab as [|a tab IH]; intros k j Hk; [inversion Hk|].
  destruct k, j; cbn in *; try reflexivity.
  apply IH. lia.
Qed.

Lemma fill_table_length (entry : Z -> F) (n : nat) :
  forall k tab, length (fill_table entry n k tab) = length tab.
Proof.
  induction n as [|n IH]; intros k tab; cbn; [reflexivity|].
  rewrite IH. apply list_set_length.
Qed.

(** The loop writes [entry j] at every index [j] of [k .. k + n - 1] and
    leaves the other entries. *)
Lemma fill_table_get (entry : Z -> F) (n : nat) :
  forall k tab j,
  0 <= k -> 0 <= j -> (Z.to_nat k + n <= length tab)%nat ->
  tab_get (fill_table entry n k tab) j
  = if (k <=? j) && (j <? k + Z.of_nat n) then entry j else tab_get tab j.
Proof.
  induction n as [|n IH]; intros k tab j Hk Hj Hlen; cbn [fill_table].
  - replace (k + Z.of_nat 0) with k by lia.
    destruct (Z.leb_spec k j), (Z.ltb_spec j k); try reflexivity; lia.
  - rewrite IH; [|lia|lia|rewrite list_set_length; lia].
    unfold tab_get. rewrite list_set_nth by lia.
    destruct (Z.leb_spec (k + 1) j), (Z.ltb_spec j (k + 1 + Z.of_nat n)),
      (Z.leb_spec k j), (Z.ltb_spec j (k + Z.of_nat (S n)));
      cbn [andb];
      destruct (Nat.eqb_spec (Z.to_nat j) (Z.to_nat k));
      try reflexivity; try lia; f_equal; lia.
Qed.

(** When [e] is not the exponent of the current table, the 16 entries
    are rebuilt. *)
Lemma _precomputeSpecularTable_rebuilt (e : Z) (r : Renderer3D) :
  length (_fastpowtab r) = 16%nat ->
  _currentpow r <> e ->
  table_built (_precomputeSpecularTable e r)
  /\ _currentpow (_precomputeSpecularTable e r) = e.
Proof.
  intros Hlen He. unfold _precomputeSpecularTable. cbv zeta.
  destruct (Z.eqb_spec (_currentpow r) e) as [He'|_]; [contradiction|].
  unfold table_built, specular_powfact, specular_entry.
  destruct (e >? 0) eqn:Hpos;
    cbn [_currentpow _powfact _fastpowtab set_currentpow set_powfact
         set_fastpowtab];
    rewrite Hpos;
    (split; [|reflexivity]);
    (split; [rewrite fill_table_length; exact Hlen|]);
    (split; [reflexivity|]);
    intros k Hk; unfold _POWTABSIZE in *;
    (rewrite fill_table_get; [|lia|lia|rewrite Hlen; cbn; lia]);
    destruct (Z.leb_spec 0 k), (Z.ltb_spec k (0 + Z.of_nat (Z.to_nat 16)));
    cbn [andb]; try reflexivity; lia.
Qed.

(** After [_precomputeSpecularTable e] the table is the one of [e]. *)
Lemma _precomputeSpecularTable_built (e : Z) (r : Renderer3D) :
  table_built r ->
  table_built (_precomputeSpecularTable e r)
  /\ _currentpow (_precomputeSpecularTable e r) = e.
Proof.
  intros Hb. destruct (Z.eq_dec (_currentpow r) e) as [He|He].
  - unfold _precomputeSpecularTable.
    rewrite (proj2 (Z.eqb_eq _ _) He). split; assumption.
  - apply _precomputeSpecularTable_rebuilt; [apply Hb|exact He].
Qed.

Lemma only_buffers_table_built (r r' : Renderer3D) :
  only_buffers r r' -> table_built r -> table_built r'.
Proof. unfold only_buffers. intros ->. exact (fun H => H). Qed.

Lemma _precomputeSpecularTable_same (e : Z) (r : Renderer3D) :
  _currentpow r = e -> _precomputeSpecularTable e r = r.
Proof.
  intros He. unfold _precomputeSpecularTable.
  rewrite (proj2 (Z.eqb_eq _ _) He). reflexivity.
Qed.

(** *** An invariant kept by the pieces of a draw method is kept by it *)

Section Preserved.
Variable I : Renderer3D -> Prop.
Hypothesis I_buffers : forall r r', only_buffers r r' -> I r -> I r'.
Hypothesis I_table : forall e r, I r -> I (_precomputeSpecularTable e r).
Hypothesis I_use : forall m r, I r -> I (use_material m r).
Hypothesis I_restore : forall r, I r -> I (restore_material r).

Lemma drawMesh_body_preserves shader umm mesh (r : Renderer3D) :
  I r -> I (fst (drawMesh_body shader umm mesh r)).
Proof.
  intros Hr. destruct (is_null (vertice mesh)) eqn:Hv.
  - rewrite drawMesh_body_null by exact Hv. exact Hr.
  - destruct (drawMesh_body_drawn shader umm mesh r Hv)
      as (log & r1 & -> & H1).
    cbn [fst]. apply (I_buffers _ _ H1), I_table.
    destruct umm; [apply I_use|]; exact Hr.
Qed.

Lemma drawMesh_loop_preserves shader umm dcm mesh :
  forall r : Renderer3D,
  I r -> I (fst (drawMesh_loop shader umm dcm mesh r)).
Proof.
  induction mesh as [|m next IH]; intros r Hr; cbn [drawMesh_loop].
  - exact Hr.
  - pose proof (drawMesh_body_preserves shader umm m r Hr) as H1.
    destruct (drawMesh_body shader umm m r) as [r1 calls1].
    destruct dcm; [|exact H1].
    specialize (IH r1 H1).
    destruct (drawMesh_loop shader umm true next r1) as [r2 calls2].
    exact IH.
Qed.

Lemma draw_preserves (c : DrawCall) (r : Renderer3D) :
  I r -> I (snd (fst (draw c r))).
Proof.
  intros Hr.
  destruct c; cbn [draw];
    unfold drawMesh, drawMesh_calls, drawTriangle, drawTriangle_N,
      drawTriangle_T, drawTriangle_NT, drawTriangles, drawQuad, drawQuad_N,
      drawQuad_T, drawQuad_NT, drawQuads; cbv zeta;
    (destruct (no_valid_image r); [exact Hr|]);
    (destruct (no_valid_zbuffer r); [exact Hr|]).
  1: { pose proof (drawMesh_loop_preserves shader use_mesh_material
                     draw_chained_meshes mesh r Hr) as H.
       destruct (drawMesh_loop _ _ _ _ _) as [r1 calls]. cbn [fst snd] in *.
       destruct use_mesh_material; [apply I_restore|]; exact H. }
  all: pose proof (I_table (_specularExponent r) r Hr) as Ht;
       repeat match goal with
         | |- context [if ?c then _ else _] => destruct c
         end;
       cbn [fst snd]; try exact Ht; try exact Hr;
       match goal with
       | |- context [_drawTriangle ?a ?b ?c ?d ?e ?f ?g ?h ?i ?j ?k] =>
           pose proof (_drawTriangle_only_buffers a b c d e f g h i j k) as H;
           destruct (_drawTriangle a b c d e f g h i j k) as [r1 log1]
       | |- context [_drawQuad ?a ?b ?c ?d ?e ?f ?g ?h ?i ?j ?k ?l ?m ?n] =>
           pose proof (_drawQuad_only_buffers a b c d e f g h i j k l m n) as H;
           destruct (_drawQuad a b c d e f g h i j k l m n) as [r1 log1]
       | |- context [drawTriangles_loop ?a ?b ?c ?d ?e ?f ?g ?h ?i ?j ?k ?l] =>
           pose proof
             (drawTriangles_loop_only_buffers a b c d e f g h i j k l) as H;
           destruct (drawTriangles_loop a b c d e f g h i j k l) as [r1 log1]
       | |- context [drawQuads_loop ?a ?b ?c ?d ?e ?f ?g ?h ?i ?j ?k ?l] =>
           pose proof
             (drawQuads_loop_only_buffers a b c d e f g h i j k l) as H;
           destruct (drawQuads_loop a b c d e f g h i j k l) as [r1 log1]
       end;
       cbn [fst snd] in *;
       apply (I_buffers _ _ H);
       first [exact Ht
             | apply (I_buffers _ _ (only_buffers_set_uni _ _)); exact Ht].
Qed.

End Preserved.

(** *** The table is up to date in every reachable state *)

Lemma draw_table_built (c : DrawCall) (r : Renderer3D) :
  table_built r -> table_built (snd (fst (draw c r))).
Proof.
  apply draw_preserves.
  - apply only_buffers_table_built.
  - intros e r0 H. apply _precomputeSpecularTable_built, H.
  - intros m r0 H. exact H.
  - intros r0 H. exact H.
Qed.

Lemma step_table_built (o : Op) (r : Renderer3D) :
  table_built r -> table_built (step o r).
Proof.
  destruct o; try (apply draw_table_built); cbn [step];
    try (exact (fun H => H)).
  unfold clearZbuffer. destruct (zbuf (_uni r)); exact (fun H => H).
Qed.

Lemma run_table_built (ops : list Op) :
  forall r : Renderer3D, table_built r -> table_built (run ops r).
Proof.
  unfold run. induction ops as [|o ops IH]; intros r Hr; cbn [fold_left].
  - exact Hr.
  - apply IH, step_table_built, Hr.
Qed.

Lemma Renderer3D_new_table_built (g : Renderer3D) :
  length (_fastpowtab g) = 16%nat -> table_built (Renderer3D_new g).
Proof.
  intros Hlen. unfold Renderer3D_new. cbv zeta.
  apply _precomputeSpecularTable_rebuilt; [exact Hlen|].
  cbn. discriminate.
Qed.

Lemma reachable_table_built (r : Renderer3D) :
  reachable r -> table_built r.
Proof.
  intros (g & ops & Hlen & _ & ->).
  apply run_table_built, Renderer3D_new_table_built, Hlen.
Qed.

End PowerTable.

(** ** C2: triangles behind the eye, where the clip test runs *)

Section BehindTheEye.
Context {A : Arith} {T : Template} {E : Extern}.

Lemma only_buffers_behind_eye (r r' : Renderer3D) (P : fVec3) :
  only_buffers r r' -> behind_eye r' P = behind_eye r P.
Proof. unfold only_buffers. intros ->. reflexivity. Qed.

(** In a batch whose triangles all have a vertex behind the eye, nothing
    is sent to the rasterizer. *)
Lemma drawTriangles_loop_behind shader g t iv v inn n it tx count :
  forall k (r : Renderer3D),
  (forall j, (j < count)%nat ->
     let i := k + 3 * Z.of_nat j in
     behind_eye r (at3 v iv i) || behind_eye r (at3 v iv (i + 1))
     || behind_eye r (at3 v iv (i + 2)) = true) ->
  drawTriangles_loop shader g t iv v inn n it tx count k r = (r, []).
Proof.
  induction count as [|count IH]; intros k r H; cbn [drawTriangles_loop].
  - reflexivity.
  - cbv zeta. rewrite _drawTriangle_behind.
    2: { specialize (H 0%nat ltac:(lia)). cbv zeta in H.
         replace (k + 3 * Z.of_nat 0) with k in H by lia. exact H. }
    rewrite IH; [reflexivity|].
    intros j Hj. specialize (H (S j) ltac:(lia)). cbv zeta in H |- *.
    replace (k + 3 + 3 * Z.of_nat j) with (k + 3 * Z.of_nat (S j)) by lia.
    exact H.
Qed.

Lemma drawQuads_loop_behind shader g t iv v inn n it tx count :
  forall k (r : Renderer3D),
  (forall j, (j < count)%nat ->
     let i := k + 4 * Z.of_nat j in
     behind_eye r (at3 v iv i) || behind_eye r (at3 v iv (i + 1))
     || behind_eye r (at3 v iv (i + 2)) || behind_eye r (at3 v iv (i + 3))
     = true) ->
  drawQuads_loop shader g t iv v inn n it tx count k r = (r, []).
Proof.
  induction count as [|count IH]; intros k r H; cbn [drawQuads_loop].
  - reflexivity.
  - cbv zeta. rewrite _drawQuad_behind.
    2: { specialize (H 0%nat ltac:(lia)). cbv zeta in H.
         replace (k + 4 * Z.of_nat 0) with k in H by lia. exact H. }
    rewrite IH; [reflexivity|].
    intros j Hj. specialize (H (S j) ltac:(lia)). cbv zeta in H |- *.
    replace (k + 4 + 4 * Z.of_nat j) with (k + 4 * Z.of_nat (S j)) by lia.
    exact H.
Qed.

Lemma get_upd_same (p : Slot) (f : ExtVec4 -> ExtVec4) (s : Slots) :
  get (upd p f s) p = f (get s p).
Proof. destruct p; reflexivity. Qed.

(** With the clip test, the triangle is dropped when its newest vertex
    (the one behind [PC2]) is behind the eye. *)
Lemma mesh_cliptest_behind (r : Renderer3D) (pc0 pc1 pc2 : Slot) (s : Slots) :
  (z4 (ext_P (get s pc2)) >=? f0)%fl = true ->
  snd (mesh_cliptest true r pc0 pc1 pc2 s) = true.
Proof.
  intros H. unfold mesh_cliptest. cbv zeta.
  assert (Hn : needclip_slot pc2 (project_slot r pc2 s) = true).
  { unfold needclip_slot, project_slot. rewrite get_upd_same.
    apply needclip_vertex_behind. exact H. }
  rewrite Hn.
  destruct (missedP (get (project_slot r pc2 s) pc0)); cbn [orb];
    match goal with
    | |- snd (if ?c then _ else _) = _ => destruct c
    end; reflexivity.
Qed.

Lemma mesh_triangle_cliptest_behind RT mesh (w : Walk) :
  (z4 (ext_P (get (w_slots w) (PC2 w))) >=? f0)%fl = true ->
  w_log (mesh_triangle RT true mesh w) = w_log w.
Proof.
  intros H. unfold mesh_triangle. cbv zeta.
  destruct (fltb f0 _); [reflexivity|].
  pose proof (mesh_cliptest_behind (w_r w) (PC0 w) (PC1 w) (PC2 w)
                (w_slots w) H) as Hc.
  destruct (mesh_cliptest _ _ _ _ _ _) as [s needclip].
  cbn [snd] in Hc. rewrite Hc. reflexivity.
Qed.

End BehindTheEye.

(** ** C3: when skipping the clip test is sound *)

Section ClipTestSkip.
Context {A : Arith} {T : Template} {E : Extern}.

Lemma project_only_buffers (r r' : Renderer3D) (P : fVec4)
  (V : RasterizerVec4) :
  only_buffers r r' -> project r' P V = project r P V.
Proof. unfold only_buffers. intros ->. reflexivity. Qed.

Lemma modelView_only_buffers (r r' : Renderer3D) :
  only_buffers r r' -> _r_modelViewM r' = _r_modelViewM r.
Proof. unfold only_buffers. intros ->. reflexivity. Qed.

(** The view-space position of a working vertex is written by [set_P]
    only. *)
Lemma ext_P_upd (p q : Slot) (f : ExtVec4 -> ExtVec4) (s : Slots) :
  (forall e, ext_P (f e) = ext_P e) ->
  ext_P (get (upd p f s) q) = ext_P (get s q).
Proof. intros H. destruct p, q; cbn; try reflexivity; apply H. Qed.

Lemma ext_P_upd_set_P (p q : Slot) (X : fVec4) (s : Slots) :
  ext_P (get (upd p (set_P X) s) q) = X
  \/ ext_P (get (upd p (set_P X) s) q) = ext_P (get s q).
Proof. destruct p, q; cbn; auto. Qed.

Lemma ext_P_project_slot (r : Renderer3D) (p q : Slot) (s : Slots) :
  ext_P (get (project_slot r p s) q) = ext_P (get s q).
Proof. apply ext_P_upd. reflexivity. Qed.

Lemma ext_P_shade_slot TEXTURE (r : Renderer3D) mesh icu (p q : Slot)
  (s : Slots) :
  ext_P (get (shade_slot TEXTURE r mesh icu p s) q) = ext_P (get s q).
Proof.
  unfold shade_slot. cbv zeta.
  rewrite ext_P_upd by reflexivity. apply ext_P_upd. reflexivity.
Qed.

Lemma ext_P_tex_slot mesh (p q : Slot) (s : Slots) :
  ext_P (get (tex_slot mesh p s) q) = ext_P (get s q).
Proof. apply ext_P_upd. reflexivity. Qed.

Lemma ext_P_load_indices TEXTURE GOURAUD mesh (p q : Slot) (s : Slots)
  (face : list Z) :
  ext_P (get (fst (load_indices TEXTURE GOURAUD mesh p (s, face))) q)
  = ext_P (get s q).
Proof.
  unfold load_indices.
  destruct TEXTURE, GOURAUD, (negb (is_null (texcoord mesh))),
    (negb (is_null (normal mesh))); cbn [fst];
    rewrite ?ext_P_upd by reflexivity; reflexivity.
Qed.

Lemma ext_P_mesh_cliptest c (r : Renderer3D) (p0 p1 p2 q : Slot) (s : Slots) :
  ext_P (get (fst (mesh_cliptest c r p0 p1 p2 s)) q) = ext_P (get s q).
Proof.
  unfold mesh_cliptest. cbv zeta.
  destruct c;
    destruct (missedP (get (project_slot r p2 s) p0));
    match goal with
    | |- context [if missedP ?e then _ else _] => destruct (missedP e)
    end; cbn [fst]; rewrite ?ext_P_project_slot; reflexivity.
Qed.

Lemma ext_P_mesh_shade RT mesh cu faceN (r : Renderer3D) (p0 p1 p2 q : Slot)
  (s : Slots) :
  ext_P (get (snd (mesh_shade RT mesh cu faceN r p0 p1 p2 s)) q)
  = ext_P (get s q).
Proof.
  unfold mesh_shade. cbv zeta.
  destruct (has_flag RT SHADER_GOURAUD), (has_flag RT SHADER_TEXTURE);
    cbn [snd];
    repeat (rewrite ext_P_upd by reflexivity);
    repeat match goal with
           | |- context [if missedP ?e then _ else _] => destruct (missedP e)
           end;
    repeat (rewrite ?ext_P_tex_slot, ?ext_P_shade_slot);
    repeat match goal with
           | |- context [if missedP ?e then _ else _] => destruct (missedP e)
           end;
    repeat (rewrite ?ext_P_tex_slot, ?ext_P_shade_slot);
    reflexivity.
Qed.

Lemma needclip_slot_unclipped (r : Renderer3D) (p : Slot) (s : Slots) :
  vertex_unclipped r (ext_P (get s p)) ->
  needclip_slot p (project_slot r p s) = false.
Proof.
  intros H. unfold needclip_slot, project_slot. rewrite get_upd_same.
  cbn [ext_P rv set_rv]. apply H.
Qed.

(** On a triangle whose three vertices pass the clip test, testing and
    not testing give the same vertices and the same answer. *)
Lemma mesh_cliptest_unclipped (r : Renderer3D) (p0 p1 p2 : Slot) (s : Slots) :
  vertex_unclipped r (ext_P (get s p0)) ->
  vertex_unclipped r (ext_P (get s p1)) ->
  vertex_unclipped r (ext_P (get s p2)) ->
  mesh_cliptest false r p0 p1 p2 s = mesh_cliptest true r p0 p1 p2 s.
Proof.
  intros H0 H1 H2. unfold mesh_cliptest. cbv zeta.
  rewrite (needclip_slot_unclipped r p2 s H2).
  destruct (missedP (get (project_slot r p2 s) p0)).
  - rewrite (needclip_slot_unclipped r p0 (project_slot r p2 s))
      by (rewrite ext_P_project_slot; exact H0).
    cbn [orb].
    destruct (missedP (get (project_slot r p0 (project_slot r p2 s)) p1)).
    + rewrite needclip_slot_unclipped
        by (rewrite !ext_P_project_slot; exact H1).
      reflexivity.
    + reflexivity.
  - destruct (missedP (get (project_slot r p2 s) p1)).
    + rewrite needclip_slot_unclipped
        by (rewrite !ext_P_project_slot; exact H1).
      reflexivity.
    + reflexivity.
Qed.

Lemma vertex_unclipped_only_buffers (r r' : Renderer3D) (P : fVec4) :
  only_buffers r r' -> vertex_unclipped r P -> vertex_unclipped r' P.
Proof.
  intros Hb H V. rewrite (project_only_buffers r r' P V Hb). apply H.
Qed.

Lemma mesh_triangle_unclipped RT mesh (r0 : Renderer3D) (w : Walk) :
  walk_unclipped r0 w ->
  mesh_triangle RT false mesh w = mesh_triangle RT true mesh w
  /\ walk_unclipped r0 (mesh_triangle RT true mesh w).
Proof.
  intros (Hb & H0 & H1 & H2). split.
  - unfold mesh_triangle. cbv zeta.
    rewrite (mesh_cliptest_unclipped (w_r w) (PC0 w) (PC1 w) (PC2 w)
               (w_slots w));
      try (apply (vertex_unclipped_only_buffers r0); assumption).
    reflexivity.
  - pose proof (mesh_triangle_only_buffers RT true mesh w) as Hb'.
    unfold walk_unclipped. split.
    { eapply only_buffers_trans; eassumption. }
    clear Hb'. unfold mesh_triangle. cbv zeta.
    destruct (fltb f0 _); [cbn; auto|].
    pose proof (fun q => ext_P_mesh_cliptest true (w_r w) (PC0 w) (PC1 w)
                           (PC2 w) q (w_slots w)) as Hc.
    destruct (mesh_cliptest _ _ _ _ _ _) as [s needclip]. cbn [fst] in Hc.
    destruct needclip.
    { cbn [w_slots PC0 PC1 PC2]. rewrite !Hc. auto. }
    match goal with
    | |- context [mesh_shade ?a ?b ?c ?d ?e ?f ?g ?h ?i] =>
        pose proof (fun q => ext_P_mesh_shade a b c d e f g h q i) as Hs;
        destruct (mesh_shade a b c d e f g h i) as [r1 s1]
    end.
    cbn [snd] in Hs.
    destruct (rasterize _ _ _ _ _) as [r2 log2].
    cbn [w_slots PC0 PC1 PC2]. rewrite !Hs, !Hc. auto.
Qed.

Lemma mesh_next_vertex_unclipped RT mesh (r0 : Renderer3D) (w : Walk) :
  mesh_unclipped r0 mesh -> walk_unclipped r0 w ->
  walk_unclipped r0 (mesh_next_vertex RT mesh w).
Proof.
  intros Hm (Hb & H0 & H1 & H2). unfold walk_unclipped.
  split; [rewrite mesh_next_vertex_r; exact Hb|].
  unfold mesh_next_vertex. cbv zeta.
  rewrite (modelView_only_buffers r0 (w_r w) Hb).
  destruct (negb _);
    match goal with
    | |- context [load_indices ?a ?b ?c ?d (?s, ?f)] =>
        pose proof (fun q => ext_P_load_indices a b c d q s f) as Hl;
        destruct (load_indices a b c d (s, f)) as [s1 face1]
    end; cbn [fst] in Hl; cbn [w_slots PC0 PC1 PC2];
    repeat split;
    rewrite ext_P_upd by reflexivity;
    match goal with
    | |- vertex_unclipped _ (ext_P (get (upd ?p (set_P ?X) ?s) ?q)) =>
        destruct (ext_P_upd_set_P p q X s) as [-> | ->]
    end; try apply Hm; rewrite Hl; assumption.
Qed.

Lemma mesh_first_triangle_unclipped RT mesh (r0 : Renderer3D) (w : Walk) :
  mesh_unclipped r0 mesh -> only_buffers r0 (w_r w) ->
  walk_unclipped r0 (mesh_first_triangle RT mesh w).
Proof.
  intros Hm Hb. unfold walk_unclipped.
  split; [rewrite mesh_first_triangle_r; exact Hb|].
  unfold mesh_first_triangle. cbv zeta.
  rewrite (modelView_only_buffers r0 (w_r w) Hb).
  repeat destruct (load_indices _ _ _ _ _).
  cbn [w_slots PC0 PC1 PC2].
  repeat split; repeat (rewrite ext_P_upd by reflexivity).
  all: destruct (PC0 w), (PC1 w), (PC2 w); cbn; apply Hm.
Qed.

(** Over a mesh without clipped vertex, the inner loop does not depend on
    the clip test. *)
Lemma mesh_chain_unclipped RT mesh (r0 : Renderer3D) n :
  mesh_unclipped r0 mesh ->
  forall w : Walk, walk_unclipped r0 w ->
  mesh_chain RT false mesh n w = mesh_chain RT true mesh n w.
Proof.
  intros Hm. induction n as [|n IH]; intros w Hw; cbn [mesh_chain]; cbv zeta;
    destruct (mesh_triangle_unclipped RT mesh r0 w Hw) as [-> Hw'].
  - reflexivity.
  - apply IH. apply mesh_next_vertex_unclipped; assumption.
Qed.

Lemma mesh_faces_unclipped RT mesh (r0 : Renderer3D) fuel :
  mesh_unclipped r0 mesh ->
  forall w : Walk, only_buffers r0 (w_r w) ->
  mesh_faces RT false mesh fuel w = mesh_faces RT true mesh fuel w.
Proof.
  intros Hm. induction fuel as [|fuel IH]; intros w Hb; cbn [mesh_faces];
    cbv zeta; [reflexivity|].
  destruct (_ >? 0); [|reflexivity].
  rewrite mesh_chain_unclipped with (r0 := r0); [|exact Hm|].
  - apply IH. eapply only_buffers_trans; [|apply mesh_chain_only_buffers].
    rewrite mesh_first_triangle_r. exact Hb.
  - apply mesh_first_triangle_unclipped; [exact Hm|exact Hb].
Qed.

Lemma mesh_walk_unclipped RT mesh (r : Renderer3D) :
  mesh_unclipped r mesh ->
  mesh_walk RT false mesh r = mesh_walk RT true mesh r.
Proof.
  intros Hm. unfold mesh_walk. cbv zeta.
  rewrite mesh_faces_unclipped with (r0 := r);
    [reflexivity|exact Hm|apply only_buffers_set_uni].
Qed.

(** Over a mesh without clipped vertex, [_drawMesh] draws what it would
    draw with the clip test on every triangle, whatever the test on the
    bounding box answered. *)
Lemma _drawMesh_unclipped RT mesh (r : Renderer3D) :
  mesh_unclipped r mesh ->
  _drawMesh RT mesh r = _drawMesh_always_tested RT mesh r.
Proof.
  intros Hm. unfold _drawMesh, _drawMesh_always_tested. cbv zeta.
  destruct (_discard _ _ _ _ _ _ _ _); [reflexivity|].
  destruct (_clipTestNeeded _ _ _ _ _ _ _ _); [reflexivity|].
  apply mesh_walk_unclipped. exact Hm.
Qed.

End ClipTestSkip.

(** ** The fuel of the walk over the face array *)

Section Fuel.
Context {A : Arith} {T : Template} {E : Extern}.

Lemma tl_length_le {X : Type} (l : list X) : (length (tl l) <= length l)%nat.
Proof. destruct l; cbn; lia. Qed.

Lemma load_indices_face_le TEXTURE GOURAUD mesh p s face :
  (length (snd (load_indices TEXTURE GOURAUD mesh p (s, face)))
   <= length face)%nat.
Proof.
  unfold load_indices.
  pose proof (tl_length_le face) as H1.
  destruct TEXTURE; [|destruct (negb _)];
    (destruct GOURAUD; [|destruct (negb _)]); cbn [snd];
    try lia; pose proof (tl_length_le (tl face)); lia.
Qed.

Lemma mesh_triangle_face RT c mesh (w : Walk) :
  w_face (mesh_triangle RT c mesh w) = w_face w.
Proof.
  unfold mesh_triangle. cbv zeta.
  destruct (fltb f0 _); [reflexivity|].
  destruct (mesh_cliptest _ _ _ _ _ _) as [s needclip].
  destruct needclip; [reflexivity|].
  destruct (mesh_shade _ _ _ _ _ _ _ _ _) as [r1 s1].
  destruct (rasterize _ _ _ _ _) as [r2 log2]. reflexivity.
Qed.

Lemma mesh_next_vertex_face_le RT mesh (w : Walk) :
  (length (w_face (mesh_next_vertex RT mesh w)) <= length (w_face w))%nat.
Proof.
  unfold mesh_next_vertex. cbv zeta.
  pose proof (tl_length_le (w_face w)) as H1.
  destruct (negb _);
    match goal with
    | |- context [load_indices ?a ?b ?c ?d (?e, ?f)] =>
        pose proof (load_indices_face_le a b c d e f) as H2;
        destruct (load_indices a b c d (e, f)) as [s1 face1]
    end; cbn [snd w_face] in *; lia.
Qed.

Lemma mesh_chain_face_le RT c mesh n :
  forall w : Walk,
  (length (w_face (mesh_chain RT c mesh n w)) <= length (w_face w))%nat.
Proof.
  induction n as [|n IH]; intros w; cbn [mesh_chain]; cbv zeta.
  - rewrite mesh_triangle_face. lia.
  - etransitivity; [apply IH|].
    etransitivity; [apply mesh_next_vertex_face_le|].
    rewrite mesh_triangle_face. lia.
Qed.

Lemma mesh_first_triangle_face_le RT mesh (w : Walk) :
  (length (w_face (mesh_first_triangle RT mesh w)) <= length (w_face w))%nat.
Proof.
  unfold mesh_first_triangle. cbv zeta.
  repeat match goal with
    | |- context [load_indices ?a ?b ?c ?d (?e, tl ?f)] =>
        let H := fresh "H" in
        pose proof (load_indices_face_le a b c d e (tl f)) as H;
        pose proof (tl_length_le f);
        destruct (load_indices a b c d (e, tl f)); cbn [snd] in H
    end.
  cbn [w_face]. lia.
Qed.

(** The walk does not depend on the fuel, once there is more of it than
    entries left in the face array: the fuel given by [mesh_walk] is never
    used up. *)
Lemma mesh_faces_fuel RT c mesh :
  forall fuel1 fuel2 (w : Walk),
  (length (w_face w) < fuel1)%nat -> (length (w_face w) < fuel2)%nat ->
  mesh_faces RT c mesh fuel1 w = mesh_faces RT c mesh fuel2 w.
Proof.
  induction fuel1 as [|fuel1 IH]; intros fuel2 w H1 H2; [lia|].
  destruct fuel2 as [|fuel2]; [lia|].
  cbn [mesh_faces]. cbv zeta.
  destruct (hd 0 (w_face w) >? 0) eqn:Hn; [|reflexivity].
  destruct (w_face w) as [|nbt face] eqn:Hf; [discriminate Hn|].
  cbn [tl hd length] in *.
  match goal with
  | |- mesh_faces _ _ _ _ ?w1 = _ =>
      assert (Hlen : (length (w_face w1) <= length face)%nat)
  end.
  { etransitivity; [apply mesh_chain_face_le|].
    etransitivity; [apply mesh_first_triangle_face_le|].
    cbn [w_face]. lia. }
  apply IH; lia.
Qed.

End Fuel.

(** ** Exact arithmetic: helper facts on rationals *)

Section RationalFacts.
Local Open Scope Q_scope.

Lemma Qltb_lt (x y : Q) : Qltb x y = true <-> x < y.
Proof.
  unfold Qltb. rewrite negb_true_iff. split.
  - intros H. apply Qnot_le_lt. intros Hle.
    apply Qle_bool_iff in Hle. congruence.
  - intros H. destruct (Qle_bool y x) eqn:Hb; [|reflexivity].
    apply Qle_bool_iff in Hb. exfalso. exact (Qlt_not_le _ _ H Hb).
Qed.

Lemma Qltb_ge (x y : Q) : Qltb x y = false <-> y <= x.
Proof.
  unfold Qltb. rewrite negb_false_iff. apply Qle_bool_iff.
Qed.

Lemma Qtrunc_floor (x : Q) : 0 <= x -> Qtrunc x = Qfloor x.
Proof.
  destruct x as [n d]. unfold Qle, Qtrunc, Qfloor. cbn. intros H.
  apply Z.quot_div_nonneg; lia.
Qed.

Lemma Qtrunc_inject_Z (z : Z) : Qtrunc (inject_Z z) = z.
Proof. unfold Qtrunc. cbn. apply Z.quot_1_r. Qed.

Lemma Qpower_positive_succ (a : Q) (p : positive) :
  Qpower_positive a (Pos.succ p) == Qpower_positive a p * a.
Proof.
  rewrite <- Pos.add_1_r, Qpower_plus_positive. reflexivity.
Qed.

Lemma Qpower_positive_le (a b : Q) (p : positive) :
  0 <= a -> a <= b -> Qpower_positive a p <= Qpower_positive b p.
Proof.
  intros Ha Hab. induction p as [|p IH] using Pos.peano_ind.
  - exact Hab.
  - rewrite !Qpower_positive_succ.
    pose proof (Qpower_pos_positive a p Ha) as H0.
    apply Qle_trans with (Qpower_positive b p * a).
    + apply Qmult_le_compat_r; assumption.
    + rewrite !(Qmult_comm (Qpower_positive b p)).
      apply Qmult_le_compat_r; [assumption|].
      apply Qle_trans with (Qpower_positive a p); assumption.
Qed.

(** A function on the integers that does not increase in one step does
    not increase over any number of steps. *)
Lemma steps_antitone (f : Z -> Q) (a b : Z) :
  (forall k, (a <= k < b)%Z -> f (k + 1)%Z <= f k) ->
  forall m n, (a <= m)%Z -> (m <= n)%Z -> (n <= b)%Z -> f n <= f m.
Proof.
  intros Hstep m n Ham Hmn Hnb.
  remember (Z.to_nat (n - m)) as d eqn:Hd.
  revert n Hmn Hnb Hd. induction d as [|d IH]; intros n Hmn Hnb Hd.
  - assert (n = m) by lia. subst n. apply Qle_refl.
  - apply Qle_trans with (f (n - 1)%Z).
    + replace n with ((n - 1) + 1)%Z at 1 by lia. apply Hstep. lia.
    + apply IH; lia.
Qed.

Lemma interpolate_antitone (tab : Z -> Q) :
  (forall k, (0 <= k <= 15)%Z -> 0 <= tab k) ->
  (forall k, (0 <= k < 15)%Z -> tab (k + 1)%Z <= tab k) ->
  forall s t, 0 <= s -> s <= t -> interpolate tab t <= interpolate tab s.
Proof.
  intros Hpos Hstep s t Hs Hst. unfold interpolate.
  pose proof (Qfloor_resp_le _ _ Hst) as Hij.
  pose proof (Qfloor_resp_le _ _ Hs) as H0i.
  change (Qfloor 0) with 0%Z in H0i.
  pose proof (Qfloor_le s) as Hs1. pose proof (Qlt_floor s) as Hs2.
  pose proof (Qfloor_le t) as Ht1. pose proof (Qlt_floor t) as Ht2.
  rewrite inject_Z_plus in Hs2, Ht2.
  change (inject_Z 1) with 1 in Hs2, Ht2.
  set (i := Qfloor s) in *. set (j := Qfloor t) in *.
  destruct (Z.geb_spec j 15) as [Hj|Hj].
  - (* the right abscissa is beyond the table *)
    destruct (Z.geb_spec i 15) as [Hi|Hi]; [apply Qle_refl|].
    pose proof (Hpos i ltac:(lia)) as Hti.
    pose proof (Hpos (i + 1)%Z ltac:(lia)) as Hti1.
    assert (H1 : 0 <= (1 - (s - inject_Z i)) * tab i)
      by (apply Qmult_le_0_compat; lra).
    assert (H2 : 0 <= (s - inject_Z i) * tab (i + 1)%Z)
      by (apply Qmult_le_0_compat; lra).
    lra.
  - destruct (Z.geb_spec i 15) as [Hi|Hi]; [lia|].
    pose proof (Hstep i ltac:(lia)) as Hdi.
    pose proof (Hstep j ltac:(lia)) as Hdj.
    destruct (Z.eq_dec i j) as [Heq|Hne].
    + rewrite <- Heq.
      assert (H1 : 0 <= (t - s) * (tab i - tab (i + 1)%Z))
        by (apply Qmult_le_0_compat; lra).
      lra.
    + pose proof (steps_antitone tab 0 15 Hstep (i + 1)%Z j
                    ltac:(lia) ltac:(lia) ltac:(lia)) as Hmid.
      assert (H1 : 0 <= (t - inject_Z j) * (tab j - tab (j + 1)%Z))
        by (apply Qmult_le_0_compat; lra).
      assert (H2 : 0 <= (1 - (s - inject_Z i)) * (tab i - tab (i + 1)%Z))
        by (apply Qmult_le_0_compat; lra).
      lra.
Qed.

End RationalFacts.

(** ** The specular power table, in exact arithmetic *)

Section ExactSpecular.
#[local] Existing Instance ExactQ.
Context {T : Template} {E : Extern}.
Local Open Scope Q_scope.

Lemma interpolate_comp (tab : Z -> Q) (t t' : Q) :
  t == t' -> interpolate tab t == interpolate tab t'.
Proof.
  intros H. unfold interpolate. rewrite (Qfloor_comp _ _ H).
  destruct (_ >=? _)%Z; [reflexivity|]. rewrite H. reflexivity.
Qed.

Lemma interpolate_0 (tab : Z -> Q) (t : Q) :
  t == 0 -> interpolate tab t == tab 0%Z.
Proof.
  intros H. rewrite (interpolate_comp tab t 0 H). unfold interpolate.
  cbn. ring.
Qed.

(** [_powSpecular] is the interpolation in the table at the abscissa
    [(1 - x) * _powfact]. *)
Lemma _powSpecular_interpolate (r : @Renderer3D ExactQ T) (x : Q) :
  0 <= (1 - x) * _powfact r ->
  _powSpecular r x
  == interpolate (tab_get (_fastpowtab r)) ((1 - x) * _powfact r).
Proof.
  intros Hpos. unfold _powSpecular, interpolate, _POWTABSIZE. cbv zeta.
  exactq.
  assert (Hindf : Qred (Qred (1 - x) * _powfact r) == (1 - x) * _powfact r)
    by (rewrite !Qred_correct; reflexivity).
  assert (Hi : Qtrunc (Qred (Qred (1 - x) * _powfact r))
               = Qfloor ((1 - x) * _powfact r)).
  { rewrite Qtrunc_floor by (rewrite Hindf; exact Hpos).
    apply Qfloor_comp, Hindf. }
  rewrite Hi. change (16 - 1)%Z with 15%Z.
  destruct (_ >=? _)%Z; [reflexivity|].
  rewrite !Qred_correct. reflexivity.
Qed.

Lemma bbsp_range (e : Z) : (0 < e)%Z -> 0 < bbsp e /\ bbsp e <= inject_Z e.
Proof.
  intros He. assert (H0 : 0 < inject_Z e).
  { change 0 with (inject_Z 0). rewrite <- Zlt_Qlt. exact He. }
  unfold bbsp. destruct (Qltb (inject_Z e) 8) eqn:Hb.
  - split; [exact H0|apply Qle_refl].
  - apply Qltb_ge in Hb. split; [reflexivity|exact Hb].
Qed.

Lemma specular_powfact_exact (e : Z) :
  (0 < e)%Z -> specular_powfact e == inject_Z e * 16 / bbsp e.
Proof.
  intros He. unfold specular_powfact, _POWTABSIZE. cbv zeta. exactq.
  rewrite (proj2 (Z.gtb_lt _ _) He). fold (bbsp e).
  rewrite !Qred_correct. reflexivity.
Qed.

Lemma specular_powfact_nonneg (e : Z) : 0 <= specular_powfact e.
Proof.
  destruct (Z.gtb_spec e 0) as [He|He].
  - rewrite specular_powfact_exact by exact He.
    destruct (bbsp_range e He) as [Hb Hbe].
    apply Qle_shift_div_l; [exact Hb|]. lra.
  - unfold specular_powfact. cbv zeta.
    destruct (Z.gtb_spec e 0); [lia|]. cbn. apply Qle_refl.
Qed.

Lemma table_slope_range (e : Z) :
  (0 < e)%Z -> 0 <= table_slope e /\ table_slope e <= 1 # 16.
Proof.
  intros He. destruct (bbsp_range e He) as [Hb Hbe].
  assert (H0 : 0 < inject_Z e * 16) by lra.
  unfold table_slope. split.
  - apply Qle_shift_div_l; [exact H0|]. lra.
  - apply Qle_shift_div_r; [exact H0|]. lra.
Qed.

Lemma specular_entry_exact (e k : Z) :
  (0 < e)%Z ->
  specular_entry e k == (1 - table_slope e * inject_Z k) ^ e.
Proof.
  intros He. unfold specular_entry, _POWTABSIZE, table_slope. cbv zeta.
  exactq. rewrite (proj2 (Z.gtb_lt _ _) He). fold (bbsp e).
  rewrite Qtrunc_inject_Z. rewrite !Qred_correct.
  destruct (bbsp_range e He) as [Hb Hbe].
  apply Qpower_comp; [|reflexivity].
  change (inject_Z 16) with 16. field. lra.
Qed.

Lemma specular_entry_nonneg (e k : Z) :
  (0 < e)%Z -> (0 <= k <= 15)%Z -> 0 <= specular_entry e k.
Proof.
  intros He Hk. rewrite specular_entry_exact by exact He.
  apply Qpower_0_le.
  destruct (table_slope_range e He) as [Hc0 Hc1].
  assert (Hk' : inject_Z k <= 15)
    by (change 15 with (inject_Z 15); rewrite <- Zle_Qle; lia).
  assert (Hk0 : 0 <= inject_Z k)
    by (change 0 with (inject_Z 0); rewrite <- Zle_Qle; lia).
  assert (H : table_slope e * inject_Z k <= (1 # 16) * 15).
  { apply Qle_trans with ((1 # 16) * inject_Z k).
    - apply Qmult_le_compat_r; assumption.
    - rewrite !(Qmult_comm (1 # 16)).
      apply Qmult_le_compat_r; [assumption|discriminate]. }
  lra.
Qed.

Lemma specular_entry_step (e k : Z) :
  (0 < e)%Z -> (0 <= k < 15)%Z ->
  specular_entry e (k + 1) <= specular_entry e k.
Proof.
  intros He Hk. rewrite !specular_entry_exact by exact He.
  destruct e as [|p|p]; try lia. cbn [Qpower].
  destruct (table_slope_range (Zpos p) He) as [Hc0 Hc1].
  rewrite inject_Z_plus. change (inject_Z 1) with 1.
  assert (Hk' : inject_Z k + 1 <= 15).
  { change 15 with (inject_Z 15). change 1 with (inject_Z 1).
    rewrite <- inject_Z_plus, <- Zle_Qle. lia. }
  assert (Hk0 : 0 <= inject_Z k)
    by (change 0 with (inject_Z 0); rewrite <- Zle_Qle; lia).
  assert (H : table_slope (Zpos p) * (inject_Z k + 1) <= (1 # 16) * 15).
  { apply Qle_trans with ((1 # 16) * (inject_Z k + 1)).
    - apply Qmult_le_compat_r; [assumption|lra].
    - rewrite !(Qmult_comm (1 # 16)).
      apply Qmult_le_compat_r; [assumption|discriminate]. }
  apply Qpower_positive_le; lra.
Qed.

(** The specular table in exact arithmetic (the statement of C7, for
    rationals in place of floats).  Let [_precomputeSpecularTable e] run in
    a reachable state.  The
    table is then the one of [e], and it was rebuilt only if [e] was not
    the exponent of the table in place.  [_powSpecular 1] is the first
    entry of the table.  For [e > 0], [_powSpecular] does not increase
    when its argument decreases within [0,1].  For [e = 0] all 16 entries
    are zero and [_powSpecular] is zero on [0,1].  (Rational arithmetic:
    the rounding of [float] operations is not part of the statement.) *)
Theorem specular_table_properties (r : Renderer3D) (e : Z) :
  reachable r ->
  let r' := _precomputeSpecularTable e r in
  (_currentpow r' = e /\ table_built r')
  /\ (_currentpow r = e -> r' = r)
  /\ _powSpecular r' 1 == tab_get (_fastpowtab r') 0
  /\ ((0 < e)%Z ->
      forall x y, 0 <= x -> x <= y -> y <= 1 ->
      _powSpecular r' x <= _powSpecular r' y)
  /\ (e = 0%Z -> forall x, 0 <= x <= 1 -> _powSpecular r' x == 0)
  /\ (e = 0%Z ->
      forall k, (0 <= k < 16)%Z -> tab_get (_fastpowtab r') k = 0).
Proof.
  intros Hreach r'.
  destruct (_precomputeSpecularTable_built e r
              (reachable_table_built r Hreach)) as [Hb He].
  fold r' in Hb, He. destruct Hb as (Hlen & Hpf & Htab).
  rewrite He in Hpf, Htab.
  split; [split; [exact He|]|].
  { split; [exact Hlen|]. rewrite He. split; assumption. }
  split; [apply _precomputeSpecularTable_same|].
  split; [|split; [|split]].
  - rewrite _powSpecular_interpolate.
    + apply interpolate_0. ring.
    + setoid_replace ((1 - 1) * _powfact r') with 0 by ring. apply Qle_refl.
  - intros Hpos x y Hx Hxy Hy.
    pose proof (specular_powfact_nonneg e) as Hpf0. rewrite <- Hpf in Hpf0.
    assert (Hty : 0 <= (1 - y) * _powfact r')
      by (apply Qmult_le_0_compat; [lra|exact Hpf0]).
    assert (Htxy : (1 - y) * _powfact r' <= (1 - x) * _powfact r')
      by (apply Qmult_le_compat_r; [lra|exact Hpf0]).
    rewrite !_powSpecular_interpolate by lra.
    apply interpolate_antitone; try assumption.
    + intros k Hk. rewrite Htab by (unfold _POWTABSIZE; lia).
      apply specular_entry_nonneg; assumption.
    + intros k Hk. rewrite !Htab by (unfold _POWTABSIZE; lia).
      apply specular_entry_step; assumption.
  - intros -> x Hx.
    assert (H0 : (1 - x) * _powfact r' == 0).
    { rewrite Hpf. unfold specular_powfact. cbn. ring. }
    rewrite _powSpecular_interpolate by (rewrite H0; apply Qle_refl).
    rewrite interpolate_0 by exact H0.
    rewrite Htab by (unfold _POWTABSIZE; lia). reflexivity.
  - intros -> k Hk. rewrite Htab by exact Hk. reflexivity.
Qed.

End ExactSpecular.

(** ** Face culling and winding, in exact arithmetic *)

Section ExactCulling.
#[local] Existing Instance ExactQ.
Context {T : Template} {E : Extern}.
Local Open Scope Q_scope.

(** The culling test value changes sign when the winding is reversed: it
    is the determinant of the three view-space positions (perspective) or
    the third coordinate of the face normal, negated (orthographic). *)
Lemma cull_value_reversed (Q0 Q1 Q2 : fVec4) :
  cull_value (crossProduct (vec3_of (sub4 Q1 Q2)) (vec3_of (sub4 Q0 Q2))) Q2
  == - cull_value
         (crossProduct (vec3_of (sub4 Q1 Q0)) (vec3_of (sub4 Q2 Q0))) Q0.
Proof.
  destruct Q0 as [a0 b0 c0 d0], Q1 as [a1 b1 c1 d1], Q2 as [a2 b2 c2 d2].
  unfold cull_value, dotProduct, crossProduct, vec3_of, sub4.
  destruct ORTHO;
    cbn [x3 y3 z3 x4 y4 z4 w4]; exactq; strip_Qred; ring.
Qed.

Lemma cull_test_reversed (r : Renderer3D) (P0 P1 P2 : fVec3) :
  cull_test r P2 P1 P0 == - cull_test r P0 P1 P2.
Proof. unfold cull_test. cbv zeta. apply cull_value_reversed. Qed.

Lemma culled_iff (r : Renderer3D) (P0 P1 P2 : fVec3) :
  culled r P0 P1 P2 = true <-> 0 < cull_test r P0 P1 P2 * _culling_dir r.
Proof.
  unfold culled. exactq. rewrite Qltb_lt. strip_Qred. reflexivity.
Qed.

Lemma culled_false_iff (r : Renderer3D) (P0 P1 P2 : fVec3) :
  culled r P0 P1 P2 = false <-> cull_test r P0 P1 P2 * _culling_dir r <= 0.
Proof.
  unfold culled. exactq. rewrite Qltb_ge. strip_Qred. reflexivity.
Qed.

Lemma setCulling_dir (d : Z) (r : Renderer3D) :
  _culling_dir (setCulling d r)
  = if (d >? 0)%Z then 1 else if (d <? 0)%Z then -1 else 0.
Proof. reflexivity. Qed.

(** Culling and winding in exact arithmetic (a supplement to C4).  Let
    the culling direction be set by [setCulling d].  For
    [d = 0] neither a triangle nor its winding-reversed counterpart is
    discarded by culling.  For [d <> 0] the two are never both discarded;
    exactly one of them is when the culling test value of the triangle is
    not zero, and none of them when it is zero (a degenerate triangle, or
    one seen edge-on).  (Rational arithmetic: the rounding of [float]
    operations is not part of the statement.) *)
Theorem culling_of_reversed_triangle (d : Z) (r : Renderer3D)
  (P0 P1 P2 : fVec3) :
  let r' := setCulling d r in
  let cu := cull_test r' P0 P1 P2 in
  (d = 0%Z -> culled r' P0 P1 P2 = false /\ culled r' P2 P1 P0 = false)
  /\ (d <> 0%Z -> ~ cu == 0 ->
      xorb (culled r' P0 P1 P2) (culled r' P2 P1 P0) = true)
  /\ (d <> 0%Z -> cu == 0 ->
      culled r' P0 P1 P2 = false /\ culled r' P2 P1 P0 = false).
Proof.
  cbv zeta.
  pose proof (cull_test_reversed (setCulling d r) P0 P1 P2) as Hrev.
  pose proof (setCulling_dir d r) as Hdir.
  revert Hrev Hdir. generalize (setCulling d r). intros r' Hrev Hdir.
  set (cu := cull_test r' P0 P1 P2) in *.
  set (cu' := cull_test r' P2 P1 P0) in *.
  assert (Hc : forall b, b = true \/ b = false)
    by (intros []; [left|right]; reflexivity).
  split; [|split].
  - intros ->. cbn in Hdir.
    split; apply culled_false_iff; fold cu cu'; rewrite Hdir; lra.
  - intros Hd Hcu.
    destruct (culled r' P0 P1 P2) eqn:H1; destruct (culled r' P2 P1 P0) eqn:H2;
      try reflexivity; exfalso;
      first [apply culled_iff in H1 | apply culled_false_iff in H1];
      first [apply culled_iff in H2 | apply culled_false_iff in H2];
      fold cu cu' in H1, H2; rewrite Hdir in H1, H2;
      (destruct (Z.gtb_spec d 0); [|destruct (Z.ltb_spec d 0); [|lia]]);
      try lra; apply Hcu; lra.
  - intros Hd Hcu.
    split; apply culled_false_iff; fold cu cu'; rewrite ?Hrev, Hcu; lra.
Qed.

End ExactCulling.

(** ** C4: the culling step, in every arithmetic *)

Section CullingStep.
Context {A : Arith} {T : Template} {E : Extern}.

Lemma rasterize_one RT V0 V1 V2 (r : Renderer3D) :
  length (snd (rasterize RT V0 V1 V2 r)) = 1%nat.
Proof.
  unfold rasterize. destruct (_im r) as [im|]; [|reflexivity].
  destruct (rasterizeTriangle _ _ _ _ _ _ _ _). reflexivity.
Qed.

Lemma _drawTriangle_kept RT P0 P1 P2 N0 N1 N2 T0 T1 T2 (r : Renderer3D) :
  culled r P0 P1 P2 = false -> clipped r P0 P1 P2 = false ->
  length (snd (_drawTriangle RT P0 P1 P2 N0 N1 N2 T0 T1 T2 r)) = 1%nat.
Proof.
  unfold culled, cull_test, clipped, _drawTriangle. cbv zeta.
  intros -> ->.
  destruct (has_flag RT SHADER_GOURAUD), (has_flag RT SHADER_TEXTURE);
    apply rasterize_one.
Qed.

(** C4, amended.  Let the culling direction be set by [setCulling d]; it
    is then 1, -1 or 0 as [d] is positive, negative or zero.  A winding
    whose own computed test value times the direction is [> 0] is
    discarded by [_drawTriangle], which then changes nothing and calls
    nothing; a winding that is not, and none of whose vertices needs
    clipping, is sent to the rasterizer once.  For [d = 0] neither a
    triangle nor its winding-reversed counterpart is discarded, in every
    arithmetic where a product with zero is never [> 0].  Nothing more
    ties the outcomes of the two windings together: their test values are
    computed separately. *)
Theorem culling_step_of_both_windings (d : Z) (r : Renderer3D)
  (P0 P1 P2 : fVec3) (RT : Z) (N0 N1 N2 : option fVec3)
  (T0 T1 T2 : option fVec2) :
  product_with_zero_not_positive ->
  let r' := setCulling d r in
  _culling_dir r'
  = (if d >? 0 then flit 1 else if d <? 0 then flit (-1) else flit 0)
  /\ (culled r' P0 P1 P2 = true ->
      _drawTriangle RT P0 P1 P2 N0 N1 N2 T0 T1 T2 r' = (r', []))
  /\ (culled r' P2 P1 P0 = true ->
      _drawTriangle RT P2 P1 P0 N2 N1 N0 T2 T1 T0 r' = (r', []))
  /\ (culled r' P0 P1 P2 = false -> clipped r' P0 P1 P2 = false ->
      length (snd (_drawTriangle RT P0 P1 P2 N0 N1 N2 T0 T1 T2 r')) = 1%nat)
  /\ (culled r' P2 P1 P0 = false -> clipped r' P2 P1 P0 = false ->
      length (snd (_drawTriangle RT P2 P1 P0 N2 N1 N0 T2 T1 T0 r')) = 1%nat)
  /\ (d = 0 -> culled r' P0 P1 P2 = false /\ culled r' P2 P1 P0 = false).
Proof.
  intros Hz. cbv zeta. split; [reflexivity|].
  split; [apply _drawTriangle_culled|].
  split; [apply _drawTriangle_culled|].
  split; [apply _drawTriangle_kept|].
  split; [apply _drawTriangle_kept|].
  intros ->. unfold culled. cbn [setCulling _culling_dir set_culling_dir].
  split; apply Hz.
Qed.

End CullingStep.

(** ** C3, exact arithmetic: the test on the bounding box *)

Section ExactClipTestSkip.
#[local] Existing Instance ExactQ.
Context {T : Template} {E : Extern}.
Local Open Scope Q_scope.

Lemma Qle_bool_false (x y : Q) : Qle_bool x y = false <-> y < x.
Proof.
  split.
  - intros H. apply Qnot_le_lt. intros Hle.
    apply Qle_bool_iff in Hle. congruence.
  - intros H. destruct (Qle_bool x y) eqn:Hb; [|reflexivity].
    apply Qle_bool_iff in Hb. lra.
Qed.

(** An affine function positive at the two ends of a segment is positive
    on the segment. *)
Lemma segment_pos (a e lo hi x : Q) :
  lo <= x <= hi -> 0 < a * lo + e -> 0 < a * hi + e -> 0 < a * x + e.
Proof.
  intros [Hlo Hhi] H1 H2. destruct (Qlt_le_dec a 0) as [Ha|Ha].
  - assert (0 <= (- a) * (hi - x)) by (apply Qmult_le_0_compat; lra). lra.
  - assert (0 <= a * (x - lo)) by (apply Qmult_le_0_compat; lra). lra.
Qed.

(** An affine function positive at the eight corners of a box is positive
    in the box. *)
Lemma box_pos (a b c d : Q) (bb : fBox3) (P : fVec3) :
  in_box bb P ->
  (forall C, In C (corners (xmin bb) (xmax bb) (ymin bb) (ymax bb)
                           (zmin bb) (zmax bb)) ->
             0 < a * x3 C + b * y3 C + c * z3 C + d) ->
  0 < a * x3 P + b * y3 P + c * z3 P + d.
Proof.
  intros (Hx & Hy & Hz) H.
  assert (Hc : forall x y z,
             In x [xmin bb; xmax bb] -> In y [ymin bb; ymax bb] ->
             In z [zmin bb; zmax bb] -> 0 < a * x + b * y + c * z + d).
  { intros x y z Hxi Hyi Hzi. apply (H (mkVec3 x y z)). unfold corners.
    cbn in Hxi, Hyi, Hzi |- *.
    destruct Hxi as [<-|[<-|[]]], Hyi as [<-|[<-|[]]], Hzi as [<-|[<-|[]]];
      tauto. }
  assert (Hyz : forall x, In x [xmin bb; xmax bb] ->
                  0 < a * x + b * y3 P + c * z3 P + d).
  { intros x Hxi.
    assert (Hzz : forall y, In y [ymin bb; ymax bb] ->
                    0 < a * x + b * y + c * z3 P + d).
    { intros y Hyi.
      pose proof (segment_pos c (a * x + b * y + d) _ _ _ Hz) as S.
      assert (0 < a * x + b * y + c * zmin bb + d)
        by (apply Hc; cbn; auto).
      assert (0 < a * x + b * y + c * zmax bb + d)
        by (apply Hc; cbn; auto).
      lra. }
    pose proof (segment_pos b (a * x + c * z3 P + d) _ _ _ Hy) as S.
    assert (0 < a * x + b * ymin bb + c * z3 P + d) by (apply Hzz; cbn; auto).
    assert (0 < a * x + b * ymax bb + c * z3 P + d) by (apply Hzz; cbn; auto).
    lra. }
  pose proof (segment_pos a (b * y3 P + c * z3 P + d) _ _ _ Hx) as S.
  assert (0 < a * xmin bb + b * y3 P + c * z3 P + d) by (apply Hyz; cbn; auto).
  assert (0 < a * xmax bb + b * y3 P + c * z3 P + d) by (apply Hyz; cbn; auto).
  lra.
Qed.

Lemma inv_pos (w : Q) : 0 < 1 / w <-> 0 < w.
Proof.
  unfold Qdiv. rewrite Qmult_1_l. split; intros H.
  - rewrite <- (Qinv_involutive w). apply Qinv_lt_0_compat. exact H.
  - apply Qinv_lt_0_compat. exact H.
Qed.

Lemma div_gt (x w l : Q) : 0 < w -> (l < x * (1 / w) <-> l * w < x).
Proof.
  intros Hw.
  assert (Hx : x * (1 / w) * w == x) by (field; lra).
  rewrite <- (Qmult_lt_r l (x * (1 / w)) w Hw). rewrite Hx. reflexivity.
Qed.

Lemma div_lt (x w u : Q) : 0 < w -> (x * (1 / w) < u <-> x < u * w).
Proof.
  intros Hw.
  assert (Hx : x * (1 / w) * w == x) by (field; lra).
  rewrite <- (Qmult_lt_r (x * (1 / w)) u w Hw). rewrite Hx. reflexivity.
Qed.

Lemma mult1_x4 (M : fMat4) (P : fVec3) :
  x4 (mult1 M P) == M0 M * x3 P + M4 M * y3 P + M8 M * z3 P + M12 M.
Proof. unfold mult1. cbn [x4]. exactq. strip_Qred. reflexivity. Qed.

Lemma mult1_y4 (M : fMat4) (P : fVec3) :
  y4 (mult1 M P) == M1 M * x3 P + M5 M * y3 P + M9 M * z3 P + M13 M.
Proof. unfold mult1. cbn [y4]. exactq. strip_Qred. reflexivity. Qed.

Lemma mult1_z4 (M : fMat4) (P : fVec3) :
  z4 (mult1 M P) == M2 M * x3 P + M6 M * y3 P + M10 M * z3 P + M14 M.
Proof. unfold mult1. cbn [z4]. exactq. strip_Qred. reflexivity. Qed.

Lemma mult1_w4 (M : fMat4) (P : fVec3) :
  w4 (mult1 M P) == M3 M * x3 P + M7 M * y3 P + M11 M * z3 P + M15 M.
Proof. unfold mult1. cbn [w4]. exactq. strip_Qred. reflexivity. Qed.

(** The safe region is convex: a box whose corners are sent inside is sent
    inside. *)
Lemma inside_box (b : Q) (M : fMat4) (bb : fBox3) (P : fVec3) :
  in_box bb P ->
  (forall C, In C (corners (xmin bb) (xmax bb) (ymin bb) (ymax bb)
                           (zmin bb) (zmax bb)) -> inside b (mult1 M C)) ->
  inside b (mult1 M P).
Proof.
  intros HP H. unfold inside in *.
  assert (H' : forall C,
             In C (corners (xmin bb) (xmax bb) (ymin bb) (ymax bb)
                           (zmin bb) (zmax bb)) ->
             let X := M0 M * x3 C + M4 M * y3 C + M8 M * z3 C + M12 M in
             let Y := M1 M * x3 C + M5 M * y3 C + M9 M * z3 C + M13 M in
             let Z := M2 M * x3 C + M6 M * y3 C + M10 M * z3 C + M14 M in
             let W := M3 M * x3 C + M7 M * y3 C + M11 M * z3 C + M15 M in
             0 < W /\ - b * W < X /\ X < b * W /\ - b * W < Y /\ Y < b * W
             /\ - W < Z /\ Z < W).
  { intros C HC. cbv zeta.
    rewrite <- (mult1_x4 M C), <- (mult1_y4 M C), <- (mult1_z4 M C),
      <- (mult1_w4 M C). apply H. exact HC. }
  clear H. rewrite (mult1_x4 M P), (mult1_y4 M P), (mult1_z4 M P),
    (mult1_w4 M P).
  pose proof (box_pos (M3 M) (M7 M) (M11 M) (M15 M) bb P HP) as Hw.
  pose proof (box_pos (M0 M + b * M3 M) (M4 M + b * M7 M)
                (M8 M + b * M11 M) (M12 M + b * M15 M) bb P HP) as Hx1.
  pose proof (box_pos (b * M3 M - M0 M) (b * M7 M - M4 M)
                (b * M11 M - M8 M) (b * M15 M - M12 M) bb P HP) as Hx2.
  pose proof (box_pos (M1 M + b * M3 M) (M5 M + b * M7 M)
                (M9 M + b * M11 M) (M13 M + b * M15 M) bb P HP) as Hy1.
  pose proof (box_pos (b * M3 M - M1 M) (b * M7 M - M5 M)
                (b * M11 M - M9 M) (b * M15 M - M13 M) bb P HP) as Hy2.
  pose proof (box_pos (M2 M + M3 M) (M6 M + M7 M)
                (M10 M + M11 M) (M14 M + M15 M) bb P HP) as Hz1.
  pose proof (box_pos (M3 M - M2 M) (M7 M - M6 M)
                (M11 M - M10 M) (M15 M - M14 M) bb P HP) as Hz2.
  assert (Hw' := Hw ltac:(intros C HC; specialize (H' C HC); cbv zeta in H'; lra)).
  assert (Hx1' := Hx1 ltac:(intros C HC; specialize (H' C HC); cbv zeta in H'; lra)).
  assert (Hx2' := Hx2 ltac:(intros C HC; specialize (H' C HC); cbv zeta in H'; lra)).
  assert (Hy1' := Hy1 ltac:(intros C HC; specialize (H' C HC); cbv zeta in H'; lra)).
  assert (Hy2' := Hy2 ltac:(intros C HC; specialize (H' C HC); cbv zeta in H'; lra)).
  assert (Hz1' := Hz1 ltac:(intros C HC; specialize (H' C HC); cbv zeta in H'; lra)).
  assert (Hz2' := Hz2 ltac:(intros C HC; specialize (H' C HC); cbv zeta in H'; lra)).
  clear - Hw' Hx1' Hx2' Hy1' Hy2' Hz1' Hz2'.
  repeat split; lra.
Qed.

(** A corner that passes the test of [_clipTestNeeded] is sent strictly
    inside the safe region. *)
Lemma _clip2_inside (b : Q) (C : fVec3) (M : fMat4) :
  ORTHO = false -> _clip2 b C M = false -> inside b (mult1 M C).
Proof.
  intros Hp. unfold _clip2. rewrite Hp. cbn [negb]. cbv zeta.
  generalize (mult1 M C). intros [X Y Z W].
  unfold zdivide, inside. cbn [x4 y4 z4 w4]. exactq.
  destruct (Qle_bool (Qred (1 / W)) 0) eqn:Hw; cbn [x4 y4 z4 w4].
  { intros H. exfalso. rewrite !orb_false_iff in H.
    destruct H as [[_ H] _]. vm_compute in H. discriminate. }
  rewrite !orb_false_iff, !Qle_bool_false.
  apply Qle_bool_false in Hw. revert Hw. strip_Qred.
  intros Hw (((((H1 & H2) & H3) & H4) & H5) & H6).
  apply (proj1 (inv_pos W)) in Hw.
  apply (div_gt X W (- b) Hw) in H1. apply (div_lt X W b Hw) in H2.
  apply (div_gt Y W (- b) Hw) in H3. apply (div_lt Y W b Hw) in H4.
  apply (div_gt Z W (- 1) Hw) in H5. apply (div_lt Z W 1 Hw) in H6.
  repeat split; lra.
Qed.

Lemma _clipTestNeeded_corners (b : Q) (x0 x1 y0 y1 z0 z1 : Q) (M : fMat4) :
  _clipTestNeeded b x0 x1 y0 y1 z0 z1 M = false ->
  forall C, In C (corners x0 x1 y0 y1 z0 z1) -> _clip2 b C M = false.
Proof.
  unfold _clipTestNeeded, corners. rewrite !orb_false_iff.
  intros H C HC. cbn in HC.
  repeat (destruct HC as [<-|HC]; [tauto|]). destruct HC.
Qed.

(** The product with [_projM * _r_modelViewM] is the projection of the
    view-space position. *)
Lemma mat_vec_mult1 (PM MV : fMat4) (P : fVec3) :
  let C := mat_vec PM (mult1 MV P) in
  let C' := mult1 (mat_mul PM MV) P in
  x4 C == x4 C' /\ y4 C == y4 C' /\ z4 C == z4 C' /\ w4 C == w4 C'.
Proof.
  cbv zeta. unfold mat_mul, mat_vec, mult1, col.
  cbn [x4 y4 z4 w4 M0 M1 M2 M3 M4 M5 M6 M7 M8 M9 M10 M11 M12 M13 M14 M15].
  exactq. strip_Qred. repeat split; ring.
Qed.

(** A vertex sent strictly inside the safe region passes the per-vertex
    clip test, when the projection stores [-z] into [w]. *)
Lemma inside_unclipped (r : Renderer3D) (P : fVec3) :
  ORTHO = false -> stores_minus_z_in_w (_projM r) ->
  inside clipboundXY (mult1 (mat_mul (_projM r) (_r_modelViewM r)) P) ->
  vertex_unclipped r (mult1 (_r_modelViewM r) P).
Proof.
  intros Hp (Hm3 & Hm7 & Hm11 & Hm15) Hin V.
  destruct (mat_vec_mult1 (_projM r) (_r_modelViewM r) P)
    as (Ex & Ey & Ez & Ew).
  unfold inside in Hin. rewrite <- Ex, <- Ey, <- Ez, <- Ew in Hin.
  assert (Hz : w4 (mat_vec (_projM r) (mult1 (_r_modelViewM r) P))
               == - z4 (mult1 (_r_modelViewM r) P)).
  { unfold mat_vec. cbn [w4]. exactq. strip_Qred.
    rewrite Hm3, Hm7, Hm11, Hm15. ring. }
  unfold needclip_vertex, project. rewrite Hp.
  revert Hin Hz. generalize (mult1 (_r_modelViewM r) P). intros Qv.
  generalize (mat_vec (_projM r) Qv). intros [X Y Z W].
  generalize clipboundXY. intros b.
  unfold rv_set_pos, zdivide. cbn [pos x4 y4 z4 w4]. exactq.
  intros (Hw & H1 & H2 & H3 & H4 & H5 & H6) Hz.
  rewrite !orb_false_iff, !Qle_bool_false, !Qltb_ge. strip_Qred.
  pose proof (div_gt X W (- b) Hw) as G1. pose proof (div_lt X W b Hw) as G2.
  pose proof (div_gt Y W (- b) Hw) as G3. pose proof (div_lt Y W b Hw) as G4.
  pose proof (div_gt Z W (- 1) Hw) as G5. pose proof (div_lt Z W 1 Hw) as G6.
  repeat split; try apply Qlt_le_weak; try tauto;
    first [apply G1|apply G2|apply G3|apply G4|apply G5|apply G6|idtac]; lra.
Qed.

(** In perspective, with a projection that stores [-z] into [w] and a
    bounding box that holds every vertex the face array can name (a name
    outside the vertex array reads as the origin), [_drawMesh] draws what
    it would draw with the clip test on every triangle.  (Rational
    arithmetic; the orthographic mode is not covered.) *)
Theorem _drawMesh_skip_sound RT (mesh : Mesh3D) (r : Renderer3D) :
  ORTHO = false ->
  stores_minus_z_in_w (_projM r) ->
  (forall i, in_box (bounding_box mesh) (tab3 (vertice mesh) i)) ->
  _drawMesh RT mesh r = _drawMesh_always_tested RT mesh r.
Proof.
  intros Hp Hm Hbox.
  unfold _drawMesh, _drawMesh_always_tested. cbv zeta.
  destruct (_discard _ _ _ _ _ _ _ _); [reflexivity|].
  destruct (_clipTestNeeded _ _ _ _ _ _ _ _) eqn:Hc; [reflexivity|].
  apply mesh_walk_unclipped. intros i.
  apply inside_unclipped; [exact Hp|exact Hm|].
  apply inside_box with (bb := bounding_box mesh); [apply Hbox|].
  intros C HC. apply _clip2_inside; [exact Hp|].
  exact (_clipTestNeeded_corners _ _ _ _ _ _ _ _ Hc C HC).
Qed.

End ExactClipTestSkip.

(** ** The example scene, in exact arithmetic *)

Section ExactScene.
#[local] Existing Instance ExactQ.
#[local] Existing Instance Persp8.
#[local] Existing Instance DemoExtern.

Lemma demo_renderer_reachable : reachable demo_renderer.
Proof.
  exists demo_memory, demo_setup. repeat split; reflexivity.
Qed.

(** Witness of C1: a triangle drawn before any image is bound, a quad
    drawn with an image but no depth buffer, and a textured triangle drawn
    without texture image. *)
Lemma draw_rejected_is_noop_witness :
  let r0 := Renderer3D_new demo_memory in
  let r1 := setImage (Some demo_image) r0 in
  let r2 := demo_renderer in
  let P := vec3i 0 0 0 in
  let t := mkVec2 f0 f0 in
  draw (DrawTriangle 0 P P P) r0 = (-1, r0, [])
  /\ draw (DrawQuad 0 P P P P) r1 = (-2, r1, [])
  /\ exists r',
       draw (DrawTriangle_T SHADER_TEXTURE P P P t t t None) r2 = (-3, r', [])
       /\ _im r' = _im r2 /\ _uni r' = _uni r2.
Proof.
  cbv zeta. split; [|split].
  - apply (proj1 (draw_rejected_is_noop _ _)). vm_compute. reflexivity.
  - apply (proj1 (proj2 (draw_rejected_is_noop _ _)));
      vm_compute; reflexivity.
  - apply (proj2 (proj2 (draw_rejected_is_noop _ _)));
      vm_compute; reflexivity.
Defined.

(** Witness of C9: out-of-range offsets set in a reachable state. *)
Lemma offset_in_viewport_range_witness :
  let r := run (demo_setup ++ [OpSetOffset (-5) 5000])
               (Renderer3D_new demo_memory) in
  reachable r
  /\ (0 <= _ox r <= 2048 /\ 0 <= _oy r <= 2048)
  /\ _ox r = 0 /\ _oy r = 2048.
Proof.
  cbv zeta.
  assert (Hr : reachable (run (demo_setup ++ [OpSetOffset (-5) 5000])
                              (Renderer3D_new demo_memory))).
  { exists demo_memory, (demo_setup ++ [OpSetOffset (-5) 5000]).
    repeat split; reflexivity. }
  split; [exact Hr|]. split.
  - exact (proj2 (proj2 (proj2 offset_in_viewport_range)) _ Hr).
  - split; vm_compute; reflexivity.
Defined.

(** Witness of C5: a chain of three meshes drawn with their materials. *)
Lemma drawMesh_material_restored_witness :
  let chain := [smooth_mesh; flat_mesh; null_mesh] in
  let res := drawMesh_calls SHADER_GOURAUD chain true true demo_renderer in
  let loop := drawMesh_loop SHADER_GOURAUD true true chain demo_renderer in
  fst (fst res) = 0
  /\ cached_material (snd (fst res)) = cached_material demo_renderer
  /\ map mc_mesh (snd res) = [smooth_mesh; flat_mesh]
  /\ cached_material (fst loop) = mesh_material flat_mesh demo_renderer.
Proof.
  cbv zeta.
  pose proof (drawMesh_material_restored SHADER_GOURAUD
                [smooth_mesh; flat_mesh; null_mesh] true demo_renderer) as H.
  cbv zeta in H. destruct H as [H1 H2].
  assert (H0 : fst (fst (drawMesh_calls SHADER_GOURAUD
                           [smooth_mesh; flat_mesh; null_mesh] true true
                           demo_renderer)) = 0)
    by (vm_compute; reflexivity).
  destruct (H1 demo_renderer_reachable) as [H3 _].
  destruct (H2 H0) as (H4 & _ & _ & _ & H5).
  split; [exact H0|]. split; [exact H3|]. split.
  - rewrite H4. vm_compute. reflexivity.
  - rewrite H5. vm_compute. reflexivity.
Defined.


(** Witness of C10: a chain that starts with a mesh without vertices. *)
Lemma drawMesh_skips_null_vertices_witness :
  let r := demo_renderer in
  fst (fst (drawMesh SHADER_FLAT [null_mesh; null_mesh] true true r)) = 0
  /\ drawMesh SHADER_FLAT [null_mesh; flat_mesh] false true r
     = drawMesh SHADER_FLAT [flat_mesh] false true r
  /\ drawMesh SHADER_FLAT [null_mesh; null_mesh] true true r
     = (0, restore_material r, []).
Proof.
  cbv zeta.
  assert (Him : no_valid_image demo_renderer = false)
    by (vm_compute; reflexivity).
  assert (Hz : no_valid_zbuffer demo_renderer = false)
    by (vm_compute; reflexivity).
  split; [|split].
  - exact (proj1 (drawMesh_skips_null_vertices SHADER_FLAT
                    [null_mesh; null_mesh] true true demo_renderer Him Hz)).
  - exact (proj1 (proj2 (proj2
             (drawMesh_skips_null_vertices SHADER_FLAT
                [null_mesh; flat_mesh] false true demo_renderer Him Hz)))
             null_mesh [flat_mesh] eq_refl).
  - exact (proj2 (proj2 (proj2
             (drawMesh_skips_null_vertices SHADER_FLAT
                [null_mesh; null_mesh] true true demo_renderer Him Hz)))
             eq_refl).
Defined.

(** An instance in exact arithmetic: the table of the exponent 4, built in the example
    scene. *)
Lemma specular_table_properties_witness :
  let r' := _precomputeSpecularTable 4 demo_renderer in
  _currentpow r' = 4
  /\ (_powSpecular r' 1 == tab_get (_fastpowtab r') 0)%Q
  /\ (_powSpecular r' (1 # 4) <= _powSpecular r' (3 # 4))%Q.
Proof.
  cbv zeta.
  pose proof (specular_table_properties demo_renderer 4
                demo_renderer_reachable) as H.
  cbv zeta in H. destruct H as ((H1 & _) & _ & H2 & H3 & _).
  split; [exact H1|]. split; [exact H2|].
  apply H3; [reflexivity|discriminate|discriminate|discriminate].
Defined.

(** In exact arithmetic too, with culling enabled, a triangle seen edge-on
    and its winding-reversed counterpart are both kept by the culling
    step. *)
Lemma culling_edge_on_counterexample :
  let r := setCulling 1 demo_renderer in
  let '(P0, P1, P2) := edge_on_triangle in
  culled r P0 P1 P2 = false /\ culled r P2 P1 P0 = false
  /\ xorb (culled r P0 P1 P2) (culled r P2 P1 P0) = false.
Proof. vm_compute. repeat split; reflexivity. Qed.

(** An instance in exact arithmetic: a triangle facing the camera. *)
Lemma culling_of_reversed_triangle_witness :
  let r := setCulling 1 demo_renderer in
  let P0 := vec3i 0 0 0 in
  let P1 := vec3i 1 0 0 in
  let P2 := vec3i 0 1 0 in
  ~ (cull_test r P0 P1 P2 == 0)%Q
  /\ xorb (culled r P0 P1 P2) (culled r P2 P1 P0) = true.
Proof.
  cbv zeta.
  assert (H : ~ (cull_test (setCulling 1 demo_renderer) (vec3i 0 0 0)
                   (vec3i 1 0 0) (vec3i 0 1 0) == 0)%Q)
    by (vm_compute; discriminate).
  split; [exact H|].
  refine (proj1 (proj2 (culling_of_reversed_triangle 1 demo_renderer
                          (vec3i 0 0 0) (vec3i 1 0 0) (vec3i 0 1 0))) _ H).
  discriminate.
Defined.

(** C2 on the code: in the example scene, the triangle of [behind_mesh]
    has its three vertices behind the eye (view-space depth 1), and
    [drawMesh] sends it to the rasterizer: the bounding box of the mesh is
    all zeros, the test on the box finds its only corner (the model origin)
    inside the safe region, and the per-triangle clip test is skipped. *)
Theorem drawMesh_rasterizes_behind_the_eye :
  let r := demo_renderer in
  let res := draw (DrawMesh SHADER_FLAT [behind_mesh] true true) r in
  reachable r
  /\ bounding_box behind_mesh = mkBox3 f0 f0 f0 f0 f0 f0
  /\ behind_eye r (tab3 (vertice behind_mesh) 0) = true
  /\ behind_eye r (tab3 (vertice behind_mesh) 1) = true
  /\ behind_eye r (tab3 (vertice behind_mesh) 2) = true
  /\ fst (fst res) = 0
  /\ length (snd res) = 1%nat.
Proof.
  cbv zeta. split; [exact demo_renderer_reachable|].
  vm_compute. repeat split; reflexivity.
Qed.

(** C3 on the code: in the example scene, for [crossing_mesh] (bounding box
    all zeros) the test on the box says that no clip test is needed, and
    [_drawMesh] sends two triangles to the rasterizer, the second with a
    vertex behind the eye; with the per-triangle clip test it sends the
    first one only. *)
Theorem cliptest_skip_changes_the_output :
  let r := demo_renderer in
  let M := mat_mul (_projM r) (_r_modelViewM r) in
  let code := snd (_drawMesh SHADER_FLAT crossing_mesh r) in
  let always_tested := snd (mesh_walk SHADER_FLAT true crossing_mesh r) in
  bounding_box crossing_mesh = mkBox3 f0 f0 f0 f0 f0 f0
  /\ _discard r f0 f0 f0 f0 f0 f0 M = false
  /\ _clipTestNeeded clipboundXY f0 f0 f0 f0 f0 f0 M = false
  /\ length code = 2%nat
  /\ length always_tested = 1%nat
  /\ code <> always_tested.
Proof.
  cbv zeta. repeat split; try (vm_compute; reflexivity).
  intros H. apply (f_equal (@length _)) in H. vm_compute in H. discriminate H.
Qed.

(** The mesh [flat_mesh] lies in its bounding box, in front of the camera:
    the clip test is skipped, one triangle is drawn, and the same is drawn
    with the clip test. *)
Lemma flat_mesh_drawn_without_cliptest :
  let bb := bounding_box flat_mesh in
  _clipTestNeeded clipboundXY (xmin bb) (xmax bb) (ymin bb) (ymax bb)
    (zmin bb) (zmax bb)
    (mat_mul (_projM demo_renderer) (_r_modelViewM demo_renderer)) = false
  /\ length (snd (_drawMesh SHADER_FLAT flat_mesh demo_renderer)) = 1%nat
  /\ _drawMesh SHADER_FLAT flat_mesh demo_renderer
     = _drawMesh_always_tested SHADER_FLAT flat_mesh demo_renderer.
Proof.
  cbv zeta. split; [vm_compute; reflexivity|].
  split; [vm_compute; reflexivity|].
  apply _drawMesh_skip_sound.
  - reflexivity.
  - vm_compute. repeat split; reflexivity.
  - intros i. unfold flat_mesh, tab3, vertice, bounding_box.
    destruct (Z.to_nat i) as [|[|[|[|n]]]]; vm_compute;
      repeat split; discriminate.
Qed.

(** In exact arithmetic the test value of the nearly edge-on triangle is
    negative: only the reversed winding is discarded. *)
Lemma nearly_edge_on_exact_value :
  let r := setCulling 1 demo_renderer in
  let '(A0, A1, A2) := nearly_edge_on_triangle in
  (cull_test r A0 A1 A2 == - (1981 # 17179869184))%Q
  /\ culled r A0 A1 A2 = false /\ culled r A2 A1 A0 = true.
Proof. vm_compute. repeat split; reflexivity. Qed.

End ExactScene.

(** ** The example scene, in IEEE binary32 arithmetic

    The inputs of the examples are small integers and the intermediate
    results are exact in binary32: the same outcomes are computed with
    the operations of IEEE 754. *)

Section Binary32Scene.
#[local] Existing Instance Persp8.
#[local] Existing Instance DemoExtern.

#[local] Existing Instance B32.

Lemma binary32_behind_the_eye_is_rasterized :
  let r := demo_renderer in
  let res := draw (DrawMesh SHADER_FLAT [behind_mesh] true true) r in
  behind_eye r (tab3 (vertice behind_mesh) 0) = true
  /\ behind_eye r (tab3 (vertice behind_mesh) 1) = true
  /\ behind_eye r (tab3 (vertice behind_mesh) 2) = true
  /\ fst (fst res) = 0
  /\ length (snd res) = 1%nat.
Proof. vm_compute. repeat split; reflexivity. Qed.

Lemma binary32_skipped_cliptest_differs :
  let r := demo_renderer in
  let M := mat_mul (_projM r) (_r_modelViewM r) in
  _clipTestNeeded clipboundXY f0 f0 f0 f0 f0 f0 M = false
  /\ length (snd (_drawMesh SHADER_FLAT crossing_mesh r)) = 2%nat
  /\ length (snd (mesh_walk SHADER_FLAT true crossing_mesh r)) = 1%nat.
Proof. vm_compute. repeat split; reflexivity. Qed.

Lemma binary32_edge_on_is_kept :
  let r := setCulling 1 demo_renderer in
  let '(P0, P1, P2) := edge_on_triangle in
  culled r P0 P1 P2 = false /\ culled r P2 P1 P0 = false.
Proof. vm_compute. split; reflexivity. Qed.

(** Counterexample to C4, in binary32 and in the example scene with
    [setCulling 1]: a triangle seen edge-on and its winding-reversed
    counterpart are both kept by the culling step (both test values are
    zero), and a nearly edge-on triangle and its counterpart are both
    discarded (rounding makes both computed test values positive). *)
Lemma culling_not_complementary_counterexample :
  let r := setCulling 1 demo_renderer in
  let '(P0, P1, P2) := edge_on_triangle in
  let '(A0, A1, A2) := nearly_edge_on_triangle in
  (culled r P0 P1 P2 = false /\ culled r P2 P1 P0 = false)
  /\ (culled r A0 A1 A2 = true /\ culled r A2 A1 A0 = true)
  /\ length (snd (_drawTriangle SHADER_FLAT A0 A1 A2 None None None
                                None None None r)) = 0%nat
  /\ length (snd (_drawTriangle SHADER_FLAT A2 A1 A0 None None None
                                None None None r)) = 0%nat.
Proof. vm_compute. repeat split; reflexivity. Qed.

Lemma binary32_product_with_zero :
  product_with_zero_not_positive (A := B32).
Proof.
  intros x. destruct x as [s|s| |s m e]; try destruct s; vm_compute;
    reflexivity.
Qed.

(** Witness of C4 as amended, in binary32: with culling disabled, a
    triangle facing the camera is kept in both windings, and drawn. *)
Lemma culling_step_of_both_windings_witness :
  let r := setCulling 0 demo_renderer in
  let P0 := vec3i 0 0 0 in
  let P1 := vec3i 1 0 0 in
  let P2 := vec3i 0 1 0 in
  product_with_zero_not_positive (A := B32)
  /\ (culled r P0 P1 P2 = false /\ culled r P2 P1 P0 = false)
  /\ length (snd (_drawTriangle SHADER_FLAT P0 P1 P2 None None None
                                None None None r)) = 1%nat
  /\ length (snd (_drawTriangle SHADER_FLAT P2 P1 P0 None None None
                                None None None r)) = 1%nat.
Proof.
  cbv zeta.
  pose proof (culling_step_of_both_windings (A := B32) 0 demo_renderer
                (vec3i 0 0 0) (vec3i 1 0 0) (vec3i 0 1 0) SHADER_FLAT
                None None None None None None binary32_product_with_zero)
    as H.
  cbv zeta in H. destruct H as (_ & _ & _ & H1 & H2 & H3).
  specialize (H3 eq_refl). destruct H3 as [K1 K2].
  split; [exact binary32_product_with_zero|].
  split; [split; [exact K1|exact K2]|].
  split; [apply H1; [exact K1|vm_compute; reflexivity]
         |apply H2; [exact K2|vm_compute; reflexivity]].
Defined.

(** For the exponent 2^30, which [drawMesh] can pass on from a mesh, the
    value that [_powSpecular] casts to [int] at [x = 0] is 2^31: it is
    outside the range of a 32-bit [int]. *)
Lemma binary32_index_beyond_int :
  to_int ((f1 - flit 0) * specular_powfact (2 ^ 30))%fl = 2 ^ 31.
Proof. vm_compute. reflexivity. Qed.

End Binary32Scene.
